(** * Smartflo inbound voice bot: audio codec, telephony session and model session

    A shallow embedding of the streaming bridge under [src/project]:
    - [audio/converter.py]    (class [AudioConverter]),
    - [smartflo/session.py]   (class [SmartfloAudioSession]),
    - [gemini_live/client.py] (class [GeminiLiveClient]),
    - the counters of [orchestrator.py] (class [StreamingOrchestrator]).

    Python objects become records, coroutines become computations in a small
    monad that threads the object's fields, may raise a Python exception and
    records the calls made to the outside world (socket writes, callbacks,
    log lines) in order. *)

From Stdlib Require Import ZArith NArith List String Ascii Bool Arith Lia.
From Stdlib Require Import Strings.Byte.
Import ListNotations.

Local Open Scope string_scope.
Local Open Scope list_scope.

(* ===================================================================== *)
(** * Python values the code handles *)
(* ===================================================================== *)

(** The exception classes that occur; every one derives from [Exception],
    and [OtherError] stands for any other class that does.  What is raised
    and is no [Exception] ([asyncio.CancelledError], which [task.cancel()]
    raises inside a coroutine at the [await] it waits at, [KeyboardInterrupt],
    [SystemExit]) passes every [except Exception] of this repository and is
    outside the model: an awaited call returns or raises one of these. *)
Inductive exn : Type :=
| JSONDecodeError        (* json.loads on text that is no JSON document *)
| TypeError
| AttributeError
| KeyError
| ValueError
| BinasciiError          (* binascii.Error, raised by base64.b64decode *)
| InvalidFrameLength     (* audioop.error: not a whole number of frames *)
| RuntimeError
| ConnectionClosed       (* websockets.exceptions.ConnectionClosed *)
| OtherError (what : string).

Inductive result (A : Type) : Type :=
| Ok (a : A)
| Raise (e : exn).
Arguments Ok {A} a.
Arguments Raise {A} e.

(** [bytes]: a list of octets. *)
Definition bytes := list byte.

(** Conversion to [unsigned char]: the low eight bits. *)
Definition byte_of_N (n : N) : byte :=
  match Byte.of_N (n mod 256) with
  | Some b => b
  | None => x00
  end.

Definition all_bytes : list byte :=
  Eval vm_compute in map (fun n => byte_of_N (N.of_nat n)) (seq 0 256).

(** Exhaustive checks over one and two octets. *)
Definition check1 (p : byte -> bool) : bool := forallb p all_bytes.

Definition check2 (p : byte -> byte -> bool) : bool :=
  forallb (fun b1 => forallb (p b1) all_bytes) all_bytes.

(* ===================================================================== *)
(** * base64 (Python standard library) *)
(* ===================================================================== *)

Module Base64.

Local Open Scope N_scope.

(** Modelled from the spec: [base64.b64encode] and [base64.b64decode] belong
    to the Python standard library and are not under src/.  The spec's
    "base64 framing" is rendered as RFC 4648 base64 with the standard
    alphabet and [=] padding, decoded the way [binascii.a2b_base64] does
    when [validate] is left at [False]. *)
Definition alphabet : list byte :=
  list_byte_of_string
    "ABCDEFGHIJKLMNOPQRSTUVWXYZabcdefghijklmnopqrstuvwxyz0123456789+/".

Definition BASE64_PAD : byte := "="%byte.

(** [table_b2a_base64[v]] *)
Definition table_b2a_base64 (v : N) : byte :=
  nth (N.to_nat v) alphabet BASE64_PAD.

(** [table_a2b_base64[c]]: the six-bit value of a character of the
    alphabet, [None] for every other octet. *)
Definition table_a2b_base64 (c : byte) : option N :=
  let n := Byte.to_N c in
  if (65 <=? n) && (n <=? 90) then Some (n - 65)            (* A-Z *)
  else if (97 <=? n) && (n <=? 122) then Some (n - 71)      (* a-z *)
  else if (48 <=? n) && (n <=? 57) then Some (n + 4)        (* 0-9 *)
  else if n =? 43 then Some 62                              (* + *)
  else if n =? 47 then Some 63                              (* / *)
  else None.

(** The four six-bit values of a full three-octet group. *)
Definition sextet1 (b1 : byte) : N := N.shiftr (Byte.to_N b1) 2.

Definition sextet2 (b1 b2 : byte) : N :=
  N.lor (N.shiftl (N.land (Byte.to_N b1) 3) 4) (N.shiftr (Byte.to_N b2) 4).

Definition sextet3 (b2 b3 : byte) : N :=
  N.lor (N.shiftl (N.land (Byte.to_N b2) 15) 2) (N.shiftr (Byte.to_N b3) 6).

Definition sextet4 (b3 : byte) : N := N.land (Byte.to_N b3) 63.

(** Modelled from the spec: [base64.b64encode] (Python standard library, not
    under src/): three octets become four characters; a tail of one or two
    octets is completed with [=]. *)
Fixpoint b64encode (s : bytes) : bytes :=
  match s with
  | [] => []
  | [b1] =>
      [table_b2a_base64 (sextet1 b1);
       table_b2a_base64 (N.shiftl (N.land (Byte.to_N b1) 3) 4);
       BASE64_PAD; BASE64_PAD]
  | [b1; b2] =>
      [table_b2a_base64 (sextet1 b1);
       table_b2a_base64 (sextet2 b1 b2);
       table_b2a_base64 (N.shiftl (N.land (Byte.to_N b2) 15) 2);
       BASE64_PAD]
  | b1 :: b2 :: b3 :: rest =>
      table_b2a_base64 (sextet1 b1)
      :: table_b2a_base64 (sextet2 b1 b2)
      :: table_b2a_base64 (sextet3 b2 b3)
      :: table_b2a_base64 (sextet4 b3)
      :: b64encode rest
  end.

Definition emit (b : byte) (r : result bytes) : result bytes :=
  match r with
  | Ok out => Ok (b :: out)
  | Raise e => Raise e
  end.

(** Modelled from the spec: [binascii.a2b_base64] in its lenient mode
    (Python standard library, not under src/).  The scanner keeps the
    position in the current quad, the bits left over from the previous
    character and the number of pad characters seen in a row; characters
    outside the alphabet are skipped, a pad completing a quad ends the
    input, and input ending inside a quad raises [binascii.Error]. *)
Fixpoint a2b_base64 (data : bytes) (quad_pos : nat) (leftchar : N)
                    (pads : nat) : result bytes :=
  match data with
  | [] => if Nat.eqb quad_pos 0 then Ok [] else Raise BinasciiError
  | this_ch :: rest =>
      if Byte.eqb this_ch BASE64_PAD then
        if Nat.leb 2 quad_pos then
          if Nat.leb 4 (quad_pos + S pads) then Ok []
          else a2b_base64 rest quad_pos leftchar (S pads)
        else a2b_base64 rest quad_pos leftchar pads
      else
        match table_a2b_base64 this_ch with
        | None => a2b_base64 rest quad_pos leftchar pads
        | Some v =>
            match quad_pos with
            | 0%nat => a2b_base64 rest 1 v 0
            | 1%nat =>
                emit (byte_of_N (N.lor (N.shiftl leftchar 2) (N.shiftr v 4)))
                     (a2b_base64 rest 2 (N.land v 15) 0)
            | 2%nat =>
                emit (byte_of_N (N.lor (N.shiftl leftchar 4) (N.shiftr v 2)))
                     (a2b_base64 rest 3 (N.land v 3) 0)
            | _ =>
                emit (byte_of_N (N.lor (N.shiftl leftchar 6) v))
                     (a2b_base64 rest 0 0 0)
            end
        end
  end.

(** [str.encode('ascii')] as [b64decode] applies it to a [str] argument:
    a string with a character outside ASCII raises [ValueError].  A string
    is read as its UTF-8 octets, so such a character shows as an octet of
    128 or more. *)
Definition is_ascii (s : string) : bool :=
  forallb (fun c => Byte.to_N c <? 128) (list_byte_of_string s).

(** Modelled from the spec: [base64.b64decode(s)] on a [str] (Python
    standard library, not under src/). *)
Definition b64decode (s : string) : result bytes :=
  if is_ascii s then a2b_base64 (list_byte_of_string s) 0 0 0
  else Raise ValueError.

(** A character produced by the encoder is never the pad and decodes to the
    value it was produced from. *)
Definition good_char (v : N) : bool :=
  negb (Byte.eqb (table_b2a_base64 v) BASE64_PAD)
  && match table_a2b_base64 (table_b2a_base64 v) with
     | Some v' => v' =? v
     | None => false
     end.

Definition decodes_to (expected : bytes) (r : result bytes) : bool :=
  match r with
  | Ok out => if list_eq_dec Byte.byte_eq_dec out expected then true else false
  | Raise _ => false
  end.

End Base64.

(* ===================================================================== *)
(** * audioop (Python standard library): G.711 mu-law *)
(* ===================================================================== *)

Module Audioop.

Local Open Scope Z_scope.

Definition BIAS : Z := 0x84.
Definition CLIP : Z := 32635.
Definition seg_uend : list Z :=
  [0x3F; 0x7F; 0xFF; 0x1FF; 0x3FF; 0x7FF; 0xFFF; 0x1FFF].

(** [search(val, table, size)]: index of the first entry that is at least
    [val], [size] when there is none. *)
Fixpoint search (val : Z) (table : list Z) : Z :=
  match table with
  | [] => 0
  | e :: table' => if val <=? e then 0 else 1 + search val table'
  end.

(** A 16-bit sample, stored low octet first. *)
Definition GETINT16 (lo hi : byte) : Z :=
  let u := Z.of_N (Byte.to_N lo) + 256 * Z.of_N (Byte.to_N hi) in
  if u <? 32768 then u else u - 65536.

Definition SETINT16 (val : Z) : bytes :=
  let u := val mod 65536 in
  [byte_of_N (Z.to_N (u mod 256)); byte_of_N (Z.to_N (u / 256))].

(** Modelled from the spec: [st_14linear2ulaw] of CPython's audioop (not
    under src/): the mu-law code word of a 14-bit two's complement sample. *)
Definition st_14linear2ulaw (pcm_val : Z) : byte :=
  let mask := if pcm_val <? 0 then 0x7F else 0xFF in
  let mag := if pcm_val <? 0 then - pcm_val else pcm_val in
  let mag := if CLIP <? mag then CLIP else mag in
  let mag := mag + Z.shiftr BIAS 2 in
  let seg := search mag seg_uend in
  if 8 <=? seg then byte_of_N (Z.to_N (Z.lxor 0x7F mask))
  else
    let uval := Z.lor (Z.shiftl seg 4) (Z.land (Z.shiftr mag (seg + 1)) 0xF) in
    byte_of_N (Z.to_N (Z.lxor uval mask)).

(** Modelled from the spec: the table [_st_ulaw2linear16] of CPython's
    audioop (not under src/), entry [uc], given by the G.711 expansion that
    tabulates it. *)
Definition st_ulaw2linear16 (uc : byte) : Z :=
  let u_val := Z.lxor (Z.of_N (Byte.to_N uc)) 0xFF in
  let t := Z.shiftl (Z.shiftl (Z.land u_val 0xF) 3 + BIAS)
                    (Z.shiftr (Z.land u_val 0x70) 4) in
  if Z.land u_val 0x80 =? 0 then t - BIAS else BIAS - t.

(** One step of the loop of [lin2ulaw]: [GETSAMPLE32] widens the sample to 32
    bits and the coder takes the top 14 of them. *)
Definition encode_sample (sample : Z) : byte :=
  st_14linear2ulaw (Z.shiftr (Z.shiftl sample 16) 18).

(** One step of the loop of [ulaw2lin]: the table entry, widened to 32 bits,
    stored back through [SETSAMPLE32] as its top 16. *)
Definition decode_sample (uc : byte) : Z :=
  Z.shiftr (Z.shiftl (st_ulaw2linear16 uc) 16) 16.

Fixpoint lin2ulaw_frames (fragment : bytes) : bytes :=
  match fragment with
  | lo :: hi :: rest => encode_sample (GETINT16 lo hi) :: lin2ulaw_frames rest
  | _ => []
  end.

(** Modelled from the spec: [audioop.lin2ulaw(fragment, 2)] (Python
    standard library, not under src/): "input length must be even (one or
    more 16-bit samples), else fails with InvalidFrameLength". *)
Definition lin2ulaw (fragment : bytes) : result bytes :=
  if Nat.eqb (Nat.modulo (List.length fragment) 2) 0
  then Ok (lin2ulaw_frames fragment)
  else Raise InvalidFrameLength.

(** Modelled from the spec: [audioop.ulaw2lin(fragment, 2)] (Python
    standard library, not under src/): "input length unconstrained; output
    is exactly 2x input length". *)
Definition ulaw2lin (fragment : bytes) : result bytes :=
  Ok (flat_map (fun uc => SETINT16 (decode_sample uc)) fragment).

(** Width of the quantization interval, in 16-bit units, of the segment a
    code word lies in: 8 in the finest segment, 1024 in the coarsest. *)
Definition quantization_step (uc : byte) : Z :=
  let u_val := Z.lxor (Z.of_N (Byte.to_N uc)) 0xFF in
  Z.shiftl 8 (Z.shiftr (Z.land u_val 0x70) 4).

(** A decoded sample [y] lies within one quantization step of the original
    sample [x]. *)
Definition within_one_step (x y : Z) : Prop :=
  Z.abs (y - x) < quantization_step (encode_sample x) <= 1024.

(** Decidable form of [within_one_step] for the sample stored in two octets. *)
Definition sample_ok (lo hi : byte) : bool :=
  let x := GETINT16 lo hi in
  let q := quantization_step (encode_sample x) in
  (Z.abs (decode_sample (encode_sample x) - x) <? q) && (q <=? 1024).

(** The 16-bit samples of a PCM buffer. *)
Fixpoint samples (pcm : bytes) : list Z :=
  match pcm with
  | lo :: hi :: rest => GETINT16 lo hi :: samples rest
  | _ => []
  end.

End Audioop.

(* ===================================================================== *)
(** * audio/converter.py *)
(* ===================================================================== *)

Module AudioConverter.

(** [AudioConverter.ulaw_to_pcm16] *)
Definition ulaw_to_pcm16 (ulaw_data : bytes) : result bytes :=
  Audioop.ulaw2lin ulaw_data.

(** [AudioConverter.pcm16_to_ulaw] *)
Definition pcm16_to_ulaw (pcm_data : bytes) : result bytes :=
  Audioop.lin2ulaw pcm_data.

(** [AudioConverter.to_base64]: [base64.b64encode(audio_data).decode('utf-8')] *)
Definition to_base64 (audio_data : bytes) : string :=
  string_of_list_byte (Base64.b64encode audio_data).

(** [AudioConverter.from_base64] *)
Definition from_base64 (b64_string : string) : result bytes :=
  Base64.b64decode b64_string.

(** The lossy round trip through the companded form: the buffer encodes,
    the code words decode to a buffer of the same length, and every decoded
    sample lies within one quantization step of the sample it came from. *)
Definition companding_roundtrip (b : bytes) : Prop :=
  exists ulaw pcm,
    pcm16_to_ulaw b = Ok ulaw /\
    ulaw_to_pcm16 ulaw = Ok pcm /\
    List.length pcm = List.length b /\
    Forall2 Audioop.within_one_step (Audioop.samples b) (Audioop.samples pcm).

End AudioConverter.

(* ===================================================================== *)
(** * JSON documents and the Python operations applied to them *)
(* ===================================================================== *)

Set Warnings "-register-all".

(** What [json.loads] returns.  A float is held as [m * 2^e]; an object is
    the [dict] built from it, keys in order and without repetition. *)
Inductive json : Type :=
| JNull
| JBool (b : bool)
| JInt (n : Z)
| JFloat (m e : Z)
| JString (s : string)
| JArray (items : list json)
| JObject (members : list (string * json)).

(** A message read from a socket: text on which [json.loads] raises
    [JSONDecodeError], or the document it parses to. *)
Inductive frame : Type :=
| Malformed (text : string)
| Document (data : json).

Definition json_loads (message : frame) : result json :=
  match message with
  | Malformed _ => Raise JSONDecodeError
  | Document data => Ok data
  end.

Module Py.

Fixpoint lookup (key : string) (members : list (string * json)) : option json :=
  match members with
  | [] => None
  | (k, v) :: rest => if String.eqb k key then Some v else lookup key rest
  end.

(** The truth value of an object, as [if x:] and [not x] take it. *)
Definition truthy (v : json) : bool :=
  match v with
  | JNull => false
  | JBool b => b
  | JInt n => negb (Z.eqb n 0)
  | JFloat m _ => negb (Z.eqb m 0)
  | JString s => negb (String.eqb s EmptyString)
  | JArray items => match items with [] => false | _ => true end
  | JObject members => match members with [] => false | _ => true end
  end.

(** [v == s] for a string literal [s]. *)
Definition eq_str (v : json) (s : string) : bool :=
  match v with
  | JString s' => String.eqb s' s
  | _ => false
  end.

(** [needle in haystack] on two strings. *)
Fixpoint is_infix (needle haystack : string) : bool :=
  String.prefix needle haystack
  || match haystack with
     | EmptyString => false
     | String _ rest => is_infix needle rest
     end.

(** [key in v]: membership among the keys of a dict, the items of a list or
    the substrings of a string; [TypeError] on anything else. *)
Definition contains (key : string) (v : json) : result bool :=
  match v with
  | JObject members =>
      Ok (match lookup key members with Some _ => true | None => false end)
  | JArray items => Ok (existsb (fun x => eq_str x key) items)
  | JString s => Ok (is_infix key s)
  | _ => Raise TypeError
  end.

(** [v[key]] for a string [key]. *)
Definition getitem (v : json) (key : string) : result json :=
  match v with
  | JObject members =>
      match lookup key members with
      | Some x => Ok x
      | None => Raise KeyError
      end
  | _ => Raise TypeError
  end.

(** [v.get(key, default)]: only a dict has the method. *)
Definition get (v : json) (key : string) (default : json) : result json :=
  match v with
  | JObject members =>
      Ok (match lookup key members with Some x => x | None => default end)
  | _ => Raise AttributeError
  end.

(** [v.startswith(prefix)]: only a string has the method. *)
Definition startswith (v : json) (prefix : string) : result bool :=
  match v with
  | JString s => Ok (String.prefix prefix s)
  | _ => Raise AttributeError
  end.

(** What [for x in v] goes through: the items of a list, the keys of a dict,
    the characters of a string (here one string per octet; the loop that
    iterates does nothing on a string of one character or of one octet). *)
Definition iter (v : json) : result (list json) :=
  match v with
  | JArray items => Ok items
  | JObject members => Ok (map (fun kv => JString (fst kv)) members)
  | JString s =>
      Ok (map (fun c => JString (String c EmptyString)) (list_ascii_of_string s))
  | _ => Raise TypeError
  end.

(** [base64.b64decode(v)]: [TypeError] unless [v] is a string. *)
Definition b64decode (v : json) : result bytes :=
  match v with
  | JString s => Base64.b64decode s
  | _ => Raise TypeError
  end.

End Py.

(* ===================================================================== *)
(** * Coroutines: state, exceptions and a trace of outside calls *)
(* ===================================================================== *)

Section Monad.

Context {S E : Type}.

(** A computation on an object with fields [S]: its result or the exception
    it raises, the fields afterwards, and the outside calls made (type [E]),
    oldest first. *)
Definition M (A : Type) : Type := S -> result A * S * list E.

Definition ret {A : Type} (a : A) : M A := fun s => (Ok a, s, []).

Definition bind {A B : Type} (m : M A) (k : A -> M B) : M B :=
  fun s =>
    match m s with
    | (Ok a, s1, t1) =>
        match k a s1 with
        | (r, s2, t2) => (r, s2, t1 ++ t2)
        end
    | (Raise e, s1, t1) => (Raise e, s1, t1)
    end.

Definition raise {A : Type} (e : exn) : M A := fun s => (Raise e, s, []).

(** [try: m  except Exception as e: h e] *)
Definition try_except {A : Type} (m : M A) (h : exn -> M A) : M A :=
  fun s =>
    match m s with
    | (Ok a, s1, t1) => (Ok a, s1, t1)
    | (Raise e, s1, t1) =>
        match h e s1 with
        | (r, s2, t2) => (r, s2, t1 ++ t2)
        end
    end.

Definition get : M S := fun s => (Ok s, s, []).

Definition modify (f : S -> S) : M unit := fun s => (Ok tt, f s, []).

Definition tell (e : E) : M unit := fun s => (Ok tt, s, [e]).

Definition lift {A : Type} (r : result A) : M A :=
  match r with
  | Ok a => ret a
  | Raise e => raise e
  end.

(** [for x in l: body x] *)
Fixpoint for_each {X : Type} (l : list X) (body : X -> M unit) : M unit :=
  match l with
  | [] => ret tt
  | x :: rest => bind (body x) (fun _ => for_each rest body)
  end.

(** An awaited call into the outside world: the call is recorded, then it
    returns or raises as the outside decides ([None]: it returns). *)
Definition await (call : E) (outcome : option exn) : M unit :=
  bind (tell call)
       (fun _ => match outcome with
                 | None => ret tt
                 | Some e => raise e
                 end).

Definition result_of {A : Type} (r : result A * S * list E) : result A :=
  fst (fst r).

Definition state_of {A : Type} (r : result A * S * list E) : S :=
  snd (fst r).

Definition trace_of {A : Type} (r : result A * S * list E) : list E :=
  snd r.

End Monad.

Arguments M : clear implicits.

Declare Scope monad_scope.
Delimit Scope monad_scope with monad.
Notation "x <- m ;; k" := (bind m (fun x => k))
  (at level 61, m at next level, right associativity) : monad_scope.
Notation "m ;; k" := (bind m (fun _ => k))
  (at level 61, right associativity) : monad_scope.

(** A registered callback, by the arguments on which it raises ([None]: the
    call returns).  The callbacks of this repository touch no field of the
    session that calls them. *)
Definition callback (A : Type) : Type := A -> option exn.

Inductive log_level : Type := DEBUG | INFO | WARNING | ERROR.

(** A computation relates the fields before and after by [R] and records
    only calls that satisfy [T], whether it returns or raises. *)
Definition stable {S E A : Type} (R : S -> S -> Prop) (T : E -> Prop)
                  (m : M S E A) : Prop :=
  forall s, R s (state_of (m s)) /\ Forall T (trace_of (m s)).

(* ===================================================================== *)
(** * smartflo/session.py *)
(* ===================================================================== *)

Module Smartflo.

Local Open Scope monad_scope.

(** Calls the session makes to the outside.  A log line carries its level and
    its fixed text, without the pictograph and the interpolated values. *)
Inductive effect : Type :=
| Log (level : log_level) (message : string)
| WsAccept
| WsClose
| WsSendText (message : json)          (* websocket.send_text(json.dumps(message)) *)
| OnAudio (ulaw_data : bytes)          (* on_audio_callback(ulaw_data) *)
| OnStart                              (* on_start_callback() *)
| OnStop.                              (* on_stop_callback() *)

(** The fields of [SmartfloAudioSession]; [None] is [JNull] in the two
    identifiers.  The socket and the stateless converter are left out. *)
Record session : Type := {
  connected : bool;
  stream_sid : json;
  call_sid : json;
  on_audio_callback : option (callback bytes);
  on_start_callback : option (callback unit);
  on_stop_callback : option (callback unit);
  audio_chunks_received : nat;
  audio_chunks_sent : nat;
  start_time : option Z
}.

(** [__init__] *)
Definition init : session := {|
  connected := false;
  stream_sid := JNull;
  call_sid := JNull;
  on_audio_callback := None;
  on_start_callback := None;
  on_stop_callback := None;
  audio_chunks_received := 0;
  audio_chunks_sent := 0;
  start_time := None
|}.

Definition set_connected (b : bool) (s : session) : session := {|
  connected := b;
  stream_sid := stream_sid s;
  call_sid := call_sid s;
  on_audio_callback := on_audio_callback s;
  on_start_callback := on_start_callback s;
  on_stop_callback := on_stop_callback s;
  audio_chunks_received := audio_chunks_received s;
  audio_chunks_sent := audio_chunks_sent s;
  start_time := start_time s
|}.

Definition set_stream_sid (v : json) (s : session) : session := {|
  connected := connected s;
  stream_sid := v;
  call_sid := call_sid s;
  on_audio_callback := on_audio_callback s;
  on_start_callback := on_start_callback s;
  on_stop_callback := on_stop_callback s;
  audio_chunks_received := audio_chunks_received s;
  audio_chunks_sent := audio_chunks_sent s;
  start_time := start_time s
|}.

Definition set_call_sid (v : json) (s : session) : session := {|
  connected := connected s;
  stream_sid := stream_sid s;
  call_sid := v;
  on_audio_callback := on_audio_callback s;
  on_start_callback := on_start_callback s;
  on_stop_callback := on_stop_callback s;
  audio_chunks_received := audio_chunks_received s;
  audio_chunks_sent := audio_chunks_sent s;
  start_time := start_time s
|}.

Definition set_audio_chunks_received (n : nat) (s : session) : session := {|
  connected := connected s;
  stream_sid := stream_sid s;
  call_sid := call_sid s;
  on_audio_callback := on_audio_callback s;
  on_start_callback := on_start_callback s;
  on_stop_callback := on_stop_callback s;
  audio_chunks_received := n;
  audio_chunks_sent := audio_chunks_sent s;
  start_time := start_time s
|}.

Definition set_audio_chunks_sent (n : nat) (s : session) : session := {|
  connected := connected s;
  stream_sid := stream_sid s;
  call_sid := call_sid s;
  on_audio_callback := on_audio_callback s;
  on_start_callback := on_start_callback s;
  on_stop_callback := on_stop_callback s;
  audio_chunks_received := audio_chunks_received s;
  audio_chunks_sent := n;
  start_time := start_time s
|}.

Definition set_start_time (t : option Z) (s : session) : session := {|
  connected := connected s;
  stream_sid := stream_sid s;
  call_sid := call_sid s;
  on_audio_callback := on_audio_callback s;
  on_start_callback := on_start_callback s;
  on_stop_callback := on_stop_callback s;
  audio_chunks_received := audio_chunks_received s;
  audio_chunks_sent := audio_chunks_sent s;
  start_time := t
|}.

Local Abbreviation Co := (M session effect).

Definition log (level : log_level) (message : string) : Co unit :=
  tell (Log level message).

(** [accept]: [now] is the reading of [time.time()], [accepted] what the
    awaited [websocket.accept()] does. *)
Definition accept (now : Z) (accepted : option exn) : Co unit :=
  await WsAccept accepted ;;
  modify (set_connected true) ;;
  modify (set_start_time (Some now)) ;;
  log INFO "Smartflo WebSocket connected".

(** [_handle_connected] *)
Definition _handle_connected (message : json) : Co unit :=
  log INFO "Smartflo connected event".

(** [_handle_start] *)
Definition _handle_start (message : json) : Co unit :=
  start_data <- lift (Py.get message "start" (JObject [])) ;;
  sid <- lift (Py.get message "streamSid" JNull) ;;
  sid <- (if Py.truthy sid then ret sid
          else lift (Py.get start_data "streamSid" JNull)) ;;
  modify (set_stream_sid sid) ;;
  csid <- lift (Py.get start_data "callSid" JNull) ;;
  modify (set_call_sid csid) ;;
  caller_from <- lift (Py.get start_data "from" JNull) ;;
  caller_to <- lift (Py.get start_data "to" JNull) ;;
  log INFO "Call started" ;;
  log INFO "From -> To" ;;
  s <- get ;;
  match on_start_callback s with
  | Some f => await OnStart (f tt)
  | None => ret tt
  end.

(** [_handle_media] *)
Definition _handle_media (message : json) : Co unit :=
  media <- lift (Py.get message "media" (JObject [])) ;;
  payload_b64 <- lift (Py.get media "payload" JNull) ;;
  if negb (Py.truthy payload_b64) then ret tt
  else
    try_except
      (ulaw_data <- lift (Py.b64decode payload_b64) ;;
       modify (fun s => set_audio_chunks_received (audio_chunks_received s + 1) s) ;;
       s <- get ;;
       match on_audio_callback s with
       | Some f => await (OnAudio ulaw_data) (f ulaw_data)
       | None => ret tt
       end)
      (fun e => log ERROR "Error processing media").

(** [_handle_stop] *)
Definition _handle_stop (message : json) : Co unit :=
  stop_data <- lift (Py.get message "stop" (JObject [])) ;;
  reason <- lift (Py.get stop_data "reason" (JString "Unknown")) ;;
  log INFO "Call ended" ;;
  s <- get ;;
  match on_stop_callback s with
  | Some f => await OnStop (f tt)
  | None => ret tt
  end.

(** The body of the loop of [handle_events] for one message; [true] when it
    leaves the loop through [break]. *)
Definition handle_message (message : frame) : Co bool :=
  try_except
    (data <- lift (json_loads message) ;;
     event_type <- lift (Py.get data "event" JNull) ;;
     if Py.eq_str event_type "connected" then
       _handle_connected data ;; ret false
     else if Py.eq_str event_type "start" then
       _handle_start data ;; ret false
     else if Py.eq_str event_type "media" then
       _handle_media data ;; ret false
     else if Py.eq_str event_type "stop" then
       _handle_stop data ;; ret true
     else ret false)
    (fun e =>
       match e with
       | JSONDecodeError => log ERROR "Invalid JSON from Smartflo" ;; ret false
       | _ => log ERROR "Error processing Smartflo event" ;; ret false
       end).

(** [async for message in self.websocket.iter_text()]: the messages that
    arrive, then the end of the stream, which is silent on a disconnect
    ([None]) or raises. *)
Fixpoint event_loop (messages : list frame) (failure : option exn) : Co unit :=
  match messages with
  | [] =>
      match failure with
      | None => ret tt
      | Some e => raise e
      end
  | message :: rest =>
      stop <- handle_message message ;;
      if stop then ret tt else event_loop rest failure
  end.

(** [handle_events], as the run of the task that calls it: the fields are
    those this task reads and writes, and what another task does to the
    session while this one waits at an [await] is no part of the run. *)
Definition handle_events (messages : list frame) (failure : option exn) : Co unit :=
  try_except (event_loop messages failure)
             (fun e => log ERROR "Error in Smartflo event loop") ;;
  modify (set_connected false) ;;
  log INFO "Session stats".

(** The [media] message [send_audio] writes. *)
Definition media_message (sid : json) (payload_b64 : string) : json :=
  JObject [("event", JString "media");
           ("streamSid", sid);
           ("media", JObject [("payload", JString payload_b64)])].

(** The silence filler [send_audio] appends. *)
Definition pad_to_frame (ulaw_data : bytes) : bytes :=
  if negb (Nat.eqb (Nat.modulo (List.length ulaw_data) 160) 0) then
    let padding := 160 - Nat.modulo (List.length ulaw_data) 160 in
    ulaw_data ++ repeat xff padding
  else ulaw_data.

(** [send_audio]: [written] is what the awaited [websocket.send_text] does. *)
Definition send_audio (written : option exn) (ulaw_data : bytes) : Co unit :=
  s <- get ;;
  if negb (connected s) || negb (Py.truthy (stream_sid s)) then ret tt
  else
    try_except
      (let ulaw_data := pad_to_frame ulaw_data in
       let payload_b64 := string_of_list_byte (Base64.b64encode ulaw_data) in
       let message := media_message (stream_sid s) payload_b64 in
       await (WsSendText message) written ;;
       modify (fun s => set_audio_chunks_sent (audio_chunks_sent s + 1) s))
      (fun e => log ERROR "Error sending audio to Smartflo").

(** [close]: [closed] is what the awaited [websocket.close()] does. *)
Definition close (closed : option exn) : Co unit :=
  s <- get ;;
  if connected s then
    try_except (await WsClose closed)
               (fun e => log DEBUG "Error closing websocket") ;;
    modify (set_connected false) ;;
    log INFO "Closed Smartflo WebSocket"
  else ret tt.

(** What [_handle_media] reads as the payload of a [media] message:
    [message.get("media", {}).get("payload")]. *)
Definition payload_of (message : json) : result json :=
  match Py.get message "media" (JObject []) with
  | Ok media => Py.get media "payload" JNull
  | Raise e => Raise e
  end.

(** The state the spec calls [Streaming]: connected, with the stream
    identifier set. *)
Definition streaming (s : session) : bool :=
  connected s && Py.truthy (stream_sid s).

End Smartflo.

(* ===================================================================== *)
(** * gemini_live/client.py *)
(* ===================================================================== *)

Module Gemini.

Local Open Scope monad_scope.

Inductive effect : Type :=
| Log (level : log_level) (message : string)
| WsConnect                                   (* websockets.connect(...) *)
| WsSend (message : json)                     (* ws.send(json.dumps(message)) *)
| WsClose
| AudioCallback (audio_data : bytes)          (* audio_callback(audio_data) *)
| TranscriptCallback (text : json) (partial : bool)
| VadCallback (event : string).               (* vad_callback(event) *)

(** The fields of [GeminiLiveClient]; [ws] tells whether [self.ws] holds a
    socket.  The stateless converter is left out. *)
Record client : Type := {
  ws : bool;
  connected : bool;
  audio_callback : option (callback bytes);
  transcript_callback : option (callback json);
  vad_callback : option (callback string);
  user_speaking : bool;
  bot_speaking : bool
}.

(** [__init__] *)
Definition init : client := {|
  ws := false;
  connected := false;
  audio_callback := None;
  transcript_callback := None;
  vad_callback := None;
  user_speaking := false;
  bot_speaking := false
|}.

Definition set_ws (b : bool) (c : client) : client := {|
  ws := b;
  connected := connected c;
  audio_callback := audio_callback c;
  transcript_callback := transcript_callback c;
  vad_callback := vad_callback c;
  user_speaking := user_speaking c;
  bot_speaking := bot_speaking c
|}.

Definition set_connected (b : bool) (c : client) : client := {|
  ws := ws c;
  connected := b;
  audio_callback := audio_callback c;
  transcript_callback := transcript_callback c;
  vad_callback := vad_callback c;
  user_speaking := user_speaking c;
  bot_speaking := bot_speaking c
|}.

Definition set_user_speaking (b : bool) (c : client) : client := {|
  ws := ws c;
  connected := connected c;
  audio_callback := audio_callback c;
  transcript_callback := transcript_callback c;
  vad_callback := vad_callback c;
  user_speaking := b;
  bot_speaking := bot_speaking c
|}.

Definition set_bot_speaking (b : bool) (c : client) : client := {|
  ws := ws c;
  connected := connected c;
  audio_callback := audio_callback c;
  transcript_callback := transcript_callback c;
  vad_callback := vad_callback c;
  user_speaking := user_speaking c;
  bot_speaking := b
|}.

(** Assignment of the three callback attributes by the owner of the client. *)
Definition set_callbacks (audio : option (callback bytes))
                         (transcript : option (callback json))
                         (vad : option (callback string))
                         (c : client) : client := {|
  ws := ws c;
  connected := connected c;
  audio_callback := audio;
  transcript_callback := transcript;
  vad_callback := vad;
  user_speaking := user_speaking c;
  bot_speaking := bot_speaking c
|}.

Local Abbreviation Co := (M client effect).

Definition log (level : log_level) (message : string) : Co unit :=
  tell (Log level message).

(** The configuration of [config.py] that the setup message carries:
    0.5 and the double nearest to 0.9. *)
Definition GEMINI_MODEL : string := "gemini-2.0-flash-exp".
Definition GEMINI_TEMPERATURE : json := JFloat 1 (-1).
Definition GEMINI_TOP_P : json := JFloat 8106479329266893 (-53).
Definition GEMINI_MAX_TOKENS : json := JInt 80.

Definition system_instruction_text : string :=
  "You are Asha, Tata Tele assistant. Speak Hinglish. "
  ++ "CRITICAL: Keep ALL responses under 10 words. Be extremely brief. "
  ++ "One question at a time only. No explanations. "
  ++ "First message: 'Namaste! Main Asha. Kaise madad karoon?' "
  ++ "Then: Ultra-short responses like 'Ji boliye', 'Theek hai', 'Aapka number?', 'Samajh gayi'. "
  ++ "Never give long answers. Speed is critical.".

Definition setup_message : json :=
  JObject [("setup", JObject [
    ("model", JString ("models/" ++ GEMINI_MODEL));
    ("generation_config", JObject [
       ("response_modalities", JArray [JString "AUDIO"]);
       ("speech_config", JObject [
          ("voice_config", JObject [
             ("prebuilt_voice_config", JObject [("voice_name", JString "Puck")])])]);
       ("temperature", GEMINI_TEMPERATURE);
       ("top_p", GEMINI_TOP_P);
       ("max_output_tokens", GEMINI_MAX_TOKENS)]);
    ("system_instruction", JObject [
       ("parts", JArray [JObject [("text", JString system_instruction_text)]])]);
    ("tools", JArray [])])].

(** [_send_config] *)
Definition _send_config (sent : option exn) : Co unit :=
  await (WsSend setup_message) sent ;;
  log INFO "Sent Gemini Live configuration (VAD enabled)".

(** [connect]: [opened] and [sent] are what the awaited
    [websockets.connect] and [ws.send] do. *)
Definition connect (opened sent : option exn) : Co unit :=
  try_except
    (log INFO "Connecting to Gemini Live API..." ;;
     await WsConnect opened ;;
     modify (set_ws true) ;;
     modify (set_connected true) ;;
     log INFO "Connected to Gemini Live API" ;;
     _send_config sent)
    (fun e =>
       log ERROR "Failed to connect to Gemini" ;;
       modify (set_connected false) ;;
       raise e).

(** The [realtime_input] message [send_audio_chunk] writes. *)
Definition realtime_input (audio_b64 : string) : json :=
  JObject [("realtime_input", JObject [
    ("media_chunks", JArray [
       JObject [("mime_type", JString "audio/pcm");
                ("data", JString audio_b64)]])])].

(** [send_audio_chunk]: [sent] is what the awaited [ws.send] does. *)
Definition send_audio_chunk (sent : option exn) (pcm_data : bytes) : Co unit :=
  c <- get ;;
  if negb (connected c) || negb (ws c) then ret tt
  else
    try_except
      ((if negb (user_speaking c) then
          modify (set_user_speaking true) ;;
          log DEBUG "User started speaking"
        else ret tt) ;;
       let audio_b64 := AudioConverter.to_base64 pcm_data in
       await (WsSend (realtime_input audio_b64)) sent)
      (fun e => log ERROR "Error sending audio to Gemini").

(** The two [if not self.bot_speaking] blocks that open the handling of a
    [modelTurn]. *)
Definition model_turn_begin : Co unit :=
  c <- get ;;
  (if negb (bot_speaking c) then
     modify (set_bot_speaking true) ;;
     modify (set_user_speaking false) ;;
     log INFO "Bot speaking (VAD: user stopped)" ;;
     match vad_callback c with
     | Some f => await (VadCallback "user_stopped") (f "user_stopped")
     | None => ret tt
     end
   else ret tt) ;;
  c <- get ;;
  if negb (bot_speaking c) then
    modify (set_bot_speaking true) ;;
    log INFO "Bot started speaking"
  else ret tt.

(** The body of [for part in model_turn.get("parts", [])].  The latency
    warning, which reads the clock and touches no field, is left out. *)
Definition handle_part (part : json) : Co unit :=
  has_inline <- lift (Py.contains "inlineData" part) ;;
  (if has_inline then
     inline_data <- lift (Py.getitem part "inlineData") ;;
     mime_type <- lift (Py.get inline_data "mimeType" (JString EmptyString)) ;;
     is_audio <- lift (Py.startswith mime_type "audio/") ;;
     c <- get ;;
     match (if is_audio then audio_callback c else None) with
     | Some f =>
         audio_b64 <- lift (Py.get inline_data "data" (JString EmptyString)) ;;
         if Py.truthy audio_b64 then
           audio_data <- lift (Py.b64decode audio_b64) ;;
           await (AudioCallback audio_data) (f audio_data)
         else ret tt
     | None => ret tt
     end
   else ret tt) ;;
  has_text <- lift (Py.contains "text" part) ;;
  c <- get ;;
  match (if has_text then transcript_callback c else None) with
  | Some f =>
      text <- lift (Py.getitem part "text") ;;
      if Py.truthy text then await (TranscriptCallback text false) (f text)
      else ret tt
  | None => ret tt
  end.

(** [if "modelTurn" in server_content: ...] *)
Definition model_turn_block (server_content : json) : Co unit :=
  has_turn <- lift (Py.contains "modelTurn" server_content) ;;
  if has_turn then
    model_turn <- lift (Py.getitem server_content "modelTurn") ;;
    model_turn_begin ;;
    parts <- lift (Py.get model_turn "parts" (JArray [])) ;;
    parts <- lift (Py.iter parts) ;;
    for_each parts handle_part
  else ret tt.

(** [key in server_content and server_content[key]], as a truth value. *)
Definition flag_set (key : string) (server_content : json) : result bool :=
  match Py.contains key server_content with
  | Ok true =>
      match Py.getitem server_content key with
      | Ok v => Ok (Py.truthy v)
      | Raise e => Raise e
      end
  | Ok false => Ok false
  | Raise e => Raise e
  end.

(** [if self.vad_callback: await self.vad_callback(event)] *)
Definition call_vad (event : string) : Co unit :=
  c <- get ;;
  match vad_callback c with
  | Some f => await (VadCallback event) (f event)
  | None => ret tt
  end.

(** The body of the [turnComplete] block. *)
Definition on_turn_complete : Co unit :=
  modify (set_bot_speaking false) ;;
  log INFO "Turn complete - waiting for user" ;;
  call_vad "turn_complete".

(** The body of the first [interrupted] block. *)
Definition on_interrupted : Co unit :=
  modify (set_bot_speaking false) ;;
  modify (set_user_speaking true) ;;
  log INFO "Bot interrupted by user" ;;
  call_vad "interrupted" ;;
  call_vad "turn_complete".

(** The body of the second [interrupted] block. *)
Definition on_interrupted_again : Co unit :=
  modify (set_bot_speaking false) ;;
  log INFO "Bot interrupted by user speech" ;;
  call_vad "interrupted".

(** [if "turnComplete" in server_content and server_content["turnComplete"]] *)
Definition turn_complete_block (server_content : json) : Co unit :=
  complete <- lift (flag_set "turnComplete" server_content) ;;
  if complete then on_turn_complete else ret tt.

(** The first [if "interrupted" in server_content and ...] *)
Definition interrupted_block (server_content : json) : Co unit :=
  interrupted <- lift (flag_set "interrupted" server_content) ;;
  if interrupted then on_interrupted else ret tt.

(** The second [if "interrupted" in server_content and ...] *)
Definition interrupted_again_block (server_content : json) : Co unit :=
  interrupted <- lift (flag_set "interrupted" server_content) ;;
  if interrupted then on_interrupted_again else ret tt.

(** The checks on the top-level keys that follow the server content. *)
Definition other_keys (data : json) : Co unit :=
  setup_complete <- lift (Py.contains "setupComplete" data) ;;
  (if setup_complete then log INFO "Gemini Live setup complete - VAD enabled"
   else ret tt) ;;
  cancelled <- lift (Py.contains "toolCallCancellation" data) ;;
  if cancelled then log DEBUG "Tool call cancelled" else ret tt.

(** The statements under [try] in the loop of [receive_events], after
    [json.loads]. *)
Definition dispatch (data : json) : Co unit :=
  has_content <- lift (Py.contains "serverContent" data) ;;
  (if has_content then
     server_content <- lift (Py.getitem data "serverContent") ;;
     model_turn_block server_content ;;
     turn_complete_block server_content ;;
     interrupted_block server_content ;;
     interrupted_again_block server_content
   else ret tt) ;;
  other_keys data.

(** The two [except] clauses of the loop of [receive_events]. *)
Definition on_error (e : exn) : Co unit :=
  match e with
  | JSONDecodeError => log ERROR "Invalid JSON from Gemini"
  | _ => log ERROR "Error processing Gemini event"
  end.

(** The body of the loop of [receive_events] for one message. *)
Definition on_message (message : frame) : Co unit :=
  try_except
    (data <- lift (json_loads message) ;;
     dispatch data)
    on_error.


(** What is left of the handling of a message once [model_turn_begin] has
    run: the parts, the other blocks on the server content, the other keys. *)
Definition after_begin (data server_content model_turn : json) : Co unit :=
  (parts <- lift (Py.get model_turn "parts" (JArray [])) ;;
   parts <- lift (Py.iter parts) ;;
   for_each parts handle_part) ;;
  (turn_complete_block server_content ;;
   interrupted_block server_content ;;
   interrupted_again_block server_content) ;;
  other_keys data.


(** [async for message in self.ws]: the messages that arrive, then the end
    of the stream, silent ([None]) or raising. *)
Fixpoint receive_loop (messages : list frame) (failure : option exn) : Co unit :=
  match messages with
  | [] =>
      match failure with
      | None => ret tt
      | Some e => raise e
      end
  | message :: rest => on_message message ;; receive_loop rest failure
  end.

(** [receive_events] *)
Definition receive_events (messages : list frame) (failure : option exn) : Co unit :=
  c <- get ;;
  if negb (connected c) || negb (ws c) then raise RuntimeError
  else
    try_except (receive_loop messages failure)
      (fun e =>
         match e with
         | ConnectionClosed =>
             log WARNING "Gemini WebSocket connection closed" ;;
             modify (set_connected false)
         | _ =>
             log ERROR "Error in Gemini receive loop" ;;
             modify (set_connected false) ;;
             raise e
         end).

(** [close]: [closed] is what the awaited [ws.close()] does. *)
Definition close (closed : option exn) : Co unit :=
  c <- get ;;
  if ws c then
    await WsClose closed ;;
    modify (set_connected false) ;;
    log INFO "Closed Gemini WebSocket connection"
  else ret tt.

(** What can happen to a client, one step at a time; the receive loop
    advances by one message per step. *)
Inductive action : Type :=
| Connect (opened sent : option exn)
| SendAudioChunk (sent : option exn) (pcm_data : bytes)
| Receive (message : frame)
| Register (audio : option (callback bytes))
           (transcript : option (callback json))
           (vad : option (callback string))
| Close (closed : option exn).

Definition step (a : action) (c : client) : client :=
  match a with
  | Connect opened sent => state_of (connect opened sent c)
  | SendAudioChunk sent pcm_data => state_of (send_audio_chunk sent pcm_data c)
  | Receive message => state_of (on_message message c)
  | Register audio transcript vad => set_callbacks audio transcript vad c
  | Close closed => state_of (close closed c)
  end.

Definition run (actions : list action) (c : client) : client :=
  fold_left (fun c a => step a c) actions c.

(** The states of a client. *)
Inductive reachable : client -> Prop :=
| reachable_init : reachable init
| reachable_step a c : reachable c -> reachable (step a c).

(** At most one of the two speaking flags is up. *)
Definition exclusive (c : client) : Prop :=
  user_speaking c = true -> bot_speaking c = true -> False.

Definition same_callbacks (c c' : client) : Prop :=
  audio_callback c' = audio_callback c /\
  transcript_callback c' = transcript_callback c /\
  vad_callback c' = vad_callback c.

(** What one step of the handling of a message does to the fields: the
    callbacks stay, flags that were exclusive remain so, and nothing changes
    at all when the step is [quiet]. *)
Definition turn_step (quiet : Prop) (c c' : client) : Prop :=
  same_callbacks c c' /\
  (exclusive c -> exclusive c') /\
  (quiet -> c' = c).

(** A call other than [vad_callback("user_stopped")]. *)
Definition not_user_stopped (e : effect) : Prop :=
  match e with
  | VadCallback event => String.eqb event "user_stopped" = false
  | _ => True
  end.

(** Whether a part of a model turn carries inline data. *)
Definition carries_inline_data (part : json) : bool :=
  match Py.contains "inlineData" part with
  | Ok b => b
  | Raise _ => false
  end.

(** A model turn whose only part is text. *)
Definition text_only_turn : frame :=
  Document (JObject [("serverContent", JObject [
    ("modelTurn", JObject [
       ("parts", JArray [JObject [("text", JString "Namaste")]])])])]).

(** [interrupted: true] *)
Definition interrupted_message : frame :=
  Document (JObject [("serverContent", JObject [("interrupted", JBool true)])]).

(** A connected client with a VAD callback that always returns. *)
Definition listening : client :=
  step (Register None None (Some (fun _ => None))) (step (Connect None None) init).

(** [send_audio_chunk] goes past its guard while the bot is marked as
    speaking. *)
Definition barges_in (c : client) : bool :=
  connected c && ws c && bot_speaking c.

(** The states reached when no call of [send_audio_chunk] barges in. *)
Inductive reachable_in_turns : client -> Prop :=
| in_turns_init : reachable_in_turns init
| in_turns_send sent pcm_data c :
    reachable_in_turns c -> barges_in c = false ->
    reachable_in_turns (step (SendAudioChunk sent pcm_data) c)
| in_turns_connect opened sent c :
    reachable_in_turns c -> reachable_in_turns (step (Connect opened sent) c)
| in_turns_receive message c :
    reachable_in_turns c -> reachable_in_turns (step (Receive message) c)
| in_turns_register audio transcript vad c :
    reachable_in_turns c ->
    reachable_in_turns (step (Register audio transcript vad) c)
| in_turns_close closed c :
    reachable_in_turns c -> reachable_in_turns (step (Close closed) c).

(** Whether a call of a callback is in a trace. *)
Definition is_callback (e : effect) : bool :=
  match e with
  | AudioCallback _ | TranscriptCallback _ _ | VadCallback _ => true
  | _ => false
  end.

Definition is_vad (event : string) (e : effect) : bool :=
  match e with
  | VadCallback event' => String.eqb event' event
  | _ => false
  end.

Definition is_log (e : effect) : bool :=
  match e with
  | Log _ _ => true
  | _ => false
  end.

End Gemini.

(* ===================================================================== *)
(** * orchestrator.py: the counters *)
(* ===================================================================== *)

Module Orchestrator.

(** The bookkeeping fields of [StreamingOrchestrator]; [responding] tells
    whether [response_start_time] is set.  Time stamps are left out, and so
    are the conversion and the forwarding to the other session that the two
    callbacks go on to do. *)
Record counters : Type := {
  audio_in_count : nat;
  audio_out_count : nat;
  responding : bool
}.

(** The bookkeeping of [handle_smartflo_audio], the audio callback of the
    telephony session. *)
Definition handle_smartflo_audio (o : counters) : counters := {|
  audio_in_count := audio_in_count o + 1;
  audio_out_count := audio_out_count o;
  responding := false
|}.

(** The bookkeeping of [handle_gemini_audio], the audio callback of the model
    session. *)
Definition handle_gemini_audio (o : counters) : counters := {|
  audio_in_count := audio_in_count o;
  audio_out_count := audio_out_count o + 1;
  responding := true
|}.

(** The counters after the calls recorded in a trace of the telephony
    session. *)
Definition after_smartflo (trace : list Smartflo.effect) (o : counters) : counters :=
  fold_left (fun o e =>
               match e with
               | Smartflo.OnAudio _ => handle_smartflo_audio o
               | _ => o
               end) trace o.

(** The counters after the calls recorded in a trace of the model session. *)
Definition after_gemini (trace : list Gemini.effect) (o : counters) : counters :=
  fold_left (fun o e =>
               match e with
               | Gemini.AudioCallback _ => handle_gemini_audio o
               | _ => o
               end) trace o.

End Orchestrator.

(* ===================================================================== *)
(** * audioop.ratecv and the rest of audio/converter.py *)
(* ===================================================================== *)

Module Ratecv.

Local Open Scope Z_scope.

(** The default weights of the filter of [ratecv]. *)
Definition weightA : Z := 1.
Definition weightB : Z := 0.

(** The output sample between two input samples; the C code computes it in
    [double] and converts to [int], which on 32-bit samples and rates below
    2^22 is the integer quotient rounded towards zero. *)
Definition interpolate (prev_i cur_i d outrate : Z) : Z :=
  Z.quot (prev_i * d + cur_i * (outrate - d)) outrate.

(** [while (d >= 0) { output; d -= inrate; }], with the number of rounds it
    makes as fuel; returns the frames written and [d] at the exit. *)
Fixpoint emit_frames (fuel : nat) (inrate outrate prev_i cur_i d : Z)
  : bytes * Z :=
  match fuel with
  | O => ([], d)
  | S fuel' =>
      if 0 <=? d then
        let cur_o := interpolate prev_i cur_i d outrate in
        match emit_frames fuel' inrate outrate prev_i cur_i (d - inrate) with
        | (out, d') => (Audioop.SETINT16 (Z.shiftr cur_o 16) ++ out, d')
        end
      else ([], d)
  end.

(** The loop [for (;;)] of [ratecv] on 16-bit mono frames, entered with
    [d < 0]: frames are read while [d < 0], the fragment running out ends the
    conversion, and frames are written while [d >= 0]. *)
Fixpoint feed_frames (fragment : bytes) (inrate outrate prev_i cur_i d : Z)
  : bytes :=
  match fragment with
  | lo :: hi :: rest =>
      let prev_i' := cur_i in
      let cur_i' :=
        Z.quot (weightA * Z.shiftl (Audioop.GETINT16 lo hi) 16 + weightB * prev_i')
               (weightA + weightB) in
      let d' := d + outrate in
      if d' <? 0 then feed_frames rest inrate outrate prev_i' cur_i' d'
      else
        match emit_frames (Z.to_nat (d' / inrate) + 1)
                          inrate outrate prev_i' cur_i' d' with
        | (out, d'') => out ++ feed_frames rest inrate outrate prev_i' cur_i' d''
        end
  | _ => []
  end.

(** The range of a C [int], the type [ratecv] takes its rates in. *)
Definition INT_MIN : Z := -2147483648.
Definition INT_MAX : Z := 2147483647.

Definition c_int (n : Z) : bool := (INT_MIN <=? n) && (n <=? INT_MAX).

(** Modelled from the spec: [audioop.ratecv(fragment, 2, 1, inrate, outrate,
    None)[0]] (Python standard library, not under src/): the rate
    conversion by linear interpolation that [resample] delegates to.  A rate
    that is no C [int] raises [OverflowError] when the arguments are read,
    ahead of the two guards, whose failures are [audioop.error].  The
    [MemoryError] of an output too large to allocate is left out. *)
Definition ratecv (fragment : bytes) (inrate outrate : Z) : result bytes :=
  if negb (c_int inrate && c_int outrate) then
    Raise (OtherError "OverflowError")
  else if negb (Nat.eqb (Nat.modulo (List.length fragment) 2) 0) then
    Raise InvalidFrameLength
  else if (inrate <=? 0) || (outrate <=? 0) then
    Raise (OtherError "sampling rate not > 0")
  else
    let g := Z.gcd inrate outrate in
    Ok (feed_frames fragment (inrate / g) (outrate / g) 0 0 (- (outrate / g))).

End Ratecv.

Module Resampler.

Local Open Scope Z_scope.

(** [AudioConverter.resample] with [sample_width = 2] *)
Definition resample (audio_data : bytes) (from_rate to_rate : Z) : result bytes :=
  if from_rate =? to_rate then Ok audio_data
  else Ratecv.ratecv audio_data from_rate to_rate.

(** [AudioConverter.smartflo_to_gemini] *)
Definition smartflo_to_gemini (ulaw_data : bytes) : result bytes :=
  match AudioConverter.ulaw_to_pcm16 ulaw_data with
  | Ok pcm_8k => resample pcm_8k 8000 16000
  | Raise e => Raise e
  end.

(** [AudioConverter.gemini_to_smartflo] *)
Definition gemini_to_smartflo (pcm_data : bytes) (gemini_rate : Z) : result bytes :=
  match resample pcm_data gemini_rate 8000 with
  | Ok pcm_8k => AudioConverter.pcm16_to_ulaw pcm_8k
  | Raise e => Raise e
  end.

(** Doubling of the rate by linear interpolation: every sample is kept and
    the mean of two neighbours, rounded down, goes between them. *)
Fixpoint interleave_from (prev : Z) (samples : list Z) : list Z :=
  match samples with
  | [] => []
  | s :: rest => (prev + s) / 2 :: s :: interleave_from s rest
  end.

Definition interleave (samples : list Z) : list Z :=
  match samples with
  | [] => []
  | s :: rest => s :: interleave_from s rest
  end.

(** Every third sample, after [skip] samples are passed over. *)
Fixpoint pick (skip : nat) (samples : list Z) : list Z :=
  match samples with
  | [] => []
  | s :: rest =>
      match skip with
      | O => s :: pick 2 rest
      | S k => pick k rest
      end
  end.

(** The one code word that does not survive decoding and encoding again:
    negative zero comes back as positive zero. *)
Definition canonical (uc : byte) : byte :=
  if Byte.eqb uc x7f then xff else uc.

End Resampler.

(* ===================================================================== *)
(** * Notions for the properties of the two sessions *)
(* ===================================================================== *)

Module SmartfloNotions.
Import Smartflo.

(** The fields no message of the telephony side may touch. *)
Definition wiring (s s' : session) : Prop :=
  connected s' = connected s /\
  on_audio_callback s' = on_audio_callback s /\
  on_start_callback s' = on_start_callback s /\
  on_stop_callback s' = on_stop_callback s /\
  audio_chunks_sent s' = audio_chunks_sent s /\
  start_time s' = start_time s.

(** [wiring], and the count of chunks received as well. *)
Definition steady (s s' : session) : Prop :=
  wiring s s' /\
  audio_chunks_received s' = audio_chunks_received s.

(** A call that is none on the socket. *)
Definition off_socket (e : effect) : Prop :=
  match e with
  | WsAccept | WsClose | WsSendText _ => False
  | _ => True
  end.

(** A call that is neither on the socket nor of the audio callback. *)
Definition silent (e : effect) : Prop :=
  match e with
  | WsAccept | WsClose | WsSendText _ | OnAudio _ => False
  | _ => True
  end.

(** The [start] object of a message, [{}] when there is none. *)
Definition start_of (members : list (string * json)) : json :=
  match Py.lookup "start" members with
  | Some v => v
  | None => JObject []
  end.

(** [d.get(key)] on the members of a dict. *)
Definition field (key : string) (members : list (string * json)) : json :=
  match Py.lookup key members with
  | Some v => v
  | None => JNull
  end.

(** [message.get("streamSid") or start_data.get("streamSid")] *)
Definition chosen_sid (members start_data : list (string * json)) : json :=
  if Py.truthy (field "streamSid" members) then field "streamSid" members
  else field "streamSid" start_data.

(** The line the loop of [handle_events] logs for an exception: the first
    [except] clause takes every [JSONDecodeError], wherever it was raised. *)
Definition error_line (e : exn) : effect :=
  Log ERROR (match e with
             | JSONDecodeError => "Invalid JSON from Smartflo"
             | _ => "Error processing Smartflo event"
             end).

(** The calls of [_handle_start] and of [_handle_stop] once the fields are
    read: the callback, when one is registered, and the error line of the
    loop when it raises. *)
Definition callback_calls (call : effect) (registered : option (callback unit))
  : list effect :=
  match registered with
  | None => []
  | Some f =>
      match f tt with
      | None => [call]
      | Some e => [call; error_line e]
      end
  end.

(** The two [except] clauses of the loop of [handle_events]. *)
Definition on_error (e : exn) : M session effect bool :=
  match e with
  | JSONDecodeError =>
      bind (log ERROR "Invalid JSON from Smartflo") (fun _ => ret false)
  | _ => bind (log ERROR "Error processing Smartflo event") (fun _ => ret false)
  end.

(** The [stop] object of a message, [{}] when there is none. *)
Definition stop_of (members : list (string * json)) : json :=
  match Py.lookup "stop" members with
  | Some v => v
  | None => JObject []
  end.

Definition is_object (v : json) : bool :=
  match v with
  | JObject _ => true
  | _ => false
  end.

(** Whether the call of a callback without arguments returns; no call is
    made when none is registered. *)
Definition returns (registered : option (callback unit)) : bool :=
  match registered with
  | Some f => match f tt with None => true | Some _ => false end
  | None => true
  end.

(** The messages on which the loop of [handle_events] reaches its [break]. *)
Definition breaks_loop (members : list (string * json)) (s : session) : bool :=
  Py.eq_str (field "event" members) "stop"
  && is_object (stop_of members)
  && returns (on_stop_callback s).

(** The [if]/[elif] chain of the loop of [handle_events]. *)
Definition route (event_type data : json) : M session effect bool :=
  if Py.eq_str event_type "connected" then
    bind (_handle_connected data) (fun _ => ret false)
  else if Py.eq_str event_type "start" then
    bind (_handle_start data) (fun _ => ret false)
  else if Py.eq_str event_type "media" then
    bind (_handle_media data) (fun _ => ret false)
  else if Py.eq_str event_type "stop" then
    bind (_handle_stop data) (fun _ => ret true)
  else ret false.


(** What the audio callback is called with, in the order of the calls. *)
Fixpoint delivered (trace : list effect) : list bytes :=
  match trace with
  | [] => []
  | OnAudio ulaw_data :: rest => ulaw_data :: delivered rest
  | _ :: rest => delivered rest
  end.


(** Whether the loop of [handle_events] leaves through [break] at a
    message. *)
Definition stops (message : frame) (s : session) : bool :=
  match message with
  | Document (JObject members) => breaks_loop members s
  | _ => false
  end.

(** A session on which a call is under way. *)
Definition in_call : session :=
  set_stream_sid (JString "MZ18ad3ab5a668481ce02b83e7395059f0")
    (set_connected true init).

End SmartfloNotions.

Module GeminiNotions.
Import Gemini.

(** The fields no message of the model may touch. *)
Definition link (c c' : client) : Prop :=
  ws c' = ws c /\ connected c' = connected c /\ same_callbacks c c'.

(** A call that is none on the socket. *)
Definition off_socket (e : effect) : Prop :=
  match e with
  | WsConnect | WsSend _ | WsClose => False
  | _ => True
  end.

(** Callbacks are only called when registered: the calls a client with the
    callbacks of [c] may make. *)
Definition registered_call (c : client) (e : effect) : Prop :=
  match e with
  | AudioCallback _ => audio_callback c <> None
  | TranscriptCallback _ _ => transcript_callback c <> None
  | VadCallback _ => vad_callback c <> None
  | WsConnect | WsSend _ | WsClose => False
  | Log _ _ => True
  end.

(** [bot_speaking] is not raised and [user_speaking] is not lowered. *)
Definition towards_user (c c' : client) : Prop :=
  (bot_speaking c' = true -> bot_speaking c = true) /\
  (user_speaking c = true -> user_speaking c' = true).

End GeminiNotions.

(* ===================================================================== *)
(** * Notions for the runs of the model session *)
(* ===================================================================== *)

(** [stable], for the runs that start from fields on which [P] holds. *)
Definition stable_from {S E A : Type} (P : S -> Prop) (R : S -> S -> Prop)
                       (T : E -> Prop) (m : M S E A) : Prop :=
  forall s, P s -> R s (state_of (m s)) /\ Forall T (trace_of (m s)).

Module GeminiShapes.
Import Gemini.


(** Whether the handling of a message reaches [model_turn_begin]: the
    message is an object whose [serverContent] is an object with the key
    [modelTurn]. *)
Definition opens_turn (message : frame) : bool :=
  match message with
  | Document (JObject members) =>
      match Py.lookup "serverContent" members with
      | Some (JObject server_content) =>
          match Py.lookup "modelTurn" server_content with
          | Some _ => true
          | None => false
          end
      | _ => false
      end
  | _ => false
  end.

(** The line the loop of [receive_events] logs for an exception. *)
Definition error_line (e : exn) : effect :=
  Log ERROR (match e with
             | JSONDecodeError => "Invalid JSON from Gemini"
             | _ => "Error processing Gemini event"
             end).


(** The calls of [audio_callback] in a trace, by their arguments. *)
Fixpoint played (trace : list effect) : list bytes :=
  match trace with
  | [] => []
  | AudioCallback audio_data :: rest => audio_data :: played rest
  | _ :: rest => played rest
  end.

(** The outcome of [receive_events] on a client that is connected, by the
    way the stream of messages ends. *)
Definition loop_outcome (failure : option exn) : result unit :=
  match failure with
  | None => Ok tt
  | Some ConnectionClosed => Ok tt
  | Some e => Raise e
  end.

(** The [except] clauses of [receive_events]. *)
Definition loop_handler (e : exn) : M client effect unit :=
  match e with
  | ConnectionClosed =>
      bind (log WARNING "Gemini WebSocket connection closed")
           (fun _ => modify (set_connected false))
  | _ =>
      bind (log ERROR "Error in Gemini receive loop")
           (fun _ => bind (modify (set_connected false)) (fun _ => raise e))
  end.

End GeminiShapes.
(* ===================================================================== *)
(** * orchestrator.py: the two callbacks and [stop] *)
(* ===================================================================== *)

Module Bridge.

Local Open Scope monad_scope.

(** Calls the orchestrator makes: its own log lines, the cancelling of a
    task, by its place in [self.tasks], and what the two sessions do when
    it calls them. *)
Inductive effect : Type :=
| Log (level : log_level) (message : string)
| Cancel (task : nat)
| OfGemini (e : Gemini.effect)
| OfSmartflo (e : Smartflo.effect).

(** The fields of [StreamingOrchestrator], with the two sessions it holds;
    the bookkeeping fields are those of [Orchestrator.counters]. *)
Record orchestrator : Type := {
  smartflo_session : Smartflo.session;
  gemini_client : Gemini.client;
  running : bool;
  counts : Orchestrator.counters
}.

(** [__init__] *)
Definition init (session : Smartflo.session) : orchestrator := {|
  smartflo_session := session;
  gemini_client := Gemini.init;
  running := false;
  counts := {| Orchestrator.audio_in_count := 0;
               Orchestrator.audio_out_count := 0;
               Orchestrator.responding := false |}
|}.

Definition set_smartflo_session (s : Smartflo.session) (o : orchestrator)
  : orchestrator := {|
  smartflo_session := s;
  gemini_client := gemini_client o;
  running := running o;
  counts := counts o
|}.

Definition set_gemini_client (c : Gemini.client) (o : orchestrator)
  : orchestrator := {|
  smartflo_session := smartflo_session o;
  gemini_client := c;
  running := running o;
  counts := counts o
|}.

Definition set_running (b : bool) (o : orchestrator) : orchestrator := {|
  smartflo_session := smartflo_session o;
  gemini_client := gemini_client o;
  running := b;
  counts := counts o
|}.

Definition set_counts (n : Orchestrator.counters) (o : orchestrator)
  : orchestrator := {|
  smartflo_session := smartflo_session o;
  gemini_client := gemini_client o;
  running := running o;
  counts := n
|}.

(** [self.response_start_time = ...]: set, or [None]. *)
Definition set_responding (b : bool) (o : orchestrator) : orchestrator :=
  set_counts {| Orchestrator.audio_in_count := Orchestrator.audio_in_count (counts o);
                Orchestrator.audio_out_count := Orchestrator.audio_out_count (counts o);
                Orchestrator.responding := b |} o.

(** [self.audio_in_count += 1] *)
Definition count_in (o : orchestrator) : orchestrator :=
  set_counts {| Orchestrator.audio_in_count := Orchestrator.audio_in_count (counts o) + 1;
                Orchestrator.audio_out_count := Orchestrator.audio_out_count (counts o);
                Orchestrator.responding := Orchestrator.responding (counts o) |} o.

(** [self.audio_out_count += 1] *)
Definition count_out (o : orchestrator) : orchestrator :=
  set_counts {| Orchestrator.audio_in_count := Orchestrator.audio_in_count (counts o);
                Orchestrator.audio_out_count := Orchestrator.audio_out_count (counts o) + 1;
                Orchestrator.responding := Orchestrator.responding (counts o) |} o.

Local Abbreviation Co := (M orchestrator effect).

Definition log (level : log_level) (message : string) : Co unit :=
  tell (Log level message).

(** A method of [self.gemini_client], run on the client the orchestrator
    holds. *)
Definition on_gemini {A : Type} (m : M Gemini.client Gemini.effect A) : Co A :=
  fun o =>
    match m (gemini_client o) with
    | (r, c, t) => (r, set_gemini_client c o, map OfGemini t)
    end.

(** A method of [self.smartflo_session], likewise. *)
Definition on_smartflo {A : Type} (m : M Smartflo.session Smartflo.effect A)
  : Co A :=
  fun o =>
    match m (smartflo_session o) with
    | (r, s, t) => (r, set_smartflo_session s o, map OfSmartflo t)
    end.

(** [handle_smartflo_audio], the audio callback of the telephony session;
    [sent] is what the write on the socket of the model does.  The time
    stamps are left out. *)
Definition handle_smartflo_audio (sent : option exn) (ulaw_data : bytes)
  : Co unit :=
  try_except
    (o <- get ;;
     (if Orchestrator.responding (counts o) then
        log INFO "User interrupting - stopping bot response" ;;
        modify (set_responding false)
      else ret tt) ;;
     modify count_in ;;
     pcm_data <- lift (Resampler.smartflo_to_gemini ulaw_data) ;;
     on_gemini (Gemini.send_audio_chunk sent pcm_data))
    (fun e => log ERROR "Error in audio-in pipeline").

(** [handle_gemini_audio], the audio callback of the model session;
    [written] is what the write on the telephony socket does. *)
Definition handle_gemini_audio (written : option exn) (pcm_data : bytes)
  : Co unit :=
  try_except
    (o <- get ;;
     (if negb (Orchestrator.responding (counts o)) then
        log INFO "First response in" ;;
        modify (set_responding true)
      else ret tt) ;;
     modify count_out ;;
     ulaw_data <- lift (Resampler.gemini_to_smartflo pcm_data 24000) ;;
     on_smartflo (Smartflo.send_audio written ulaw_data))
    (fun e => log ERROR "Error in audio-out pipeline").

(** [handle_transcript] *)
Definition handle_transcript (text : json) (partial : bool) : Co unit :=
  let prefix := if partial then "[Partial]" else "[Final]" in
  log INFO prefix.

(** [_setup_callbacks]: the callbacks are registered as calls that return,
    which the two above always do; no VAD callback is registered. *)
Definition _setup_callbacks (o : orchestrator) : orchestrator :=
  set_gemini_client
    (Gemini.set_callbacks (Some (fun _ => None)) (Some (fun _ => None))
                          (Gemini.vad_callback (gemini_client o))
                          (gemini_client o))
    (set_smartflo_session
       {| Smartflo.connected := Smartflo.connected (smartflo_session o);
          Smartflo.stream_sid := Smartflo.stream_sid (smartflo_session o);
          Smartflo.call_sid := Smartflo.call_sid (smartflo_session o);
          Smartflo.on_audio_callback := Some (fun _ => None);
          Smartflo.on_start_callback := Smartflo.on_start_callback (smartflo_session o);
          Smartflo.on_stop_callback := Smartflo.on_stop_callback (smartflo_session o);
          Smartflo.audio_chunks_received :=
            Smartflo.audio_chunks_received (smartflo_session o);
          Smartflo.audio_chunks_sent := Smartflo.audio_chunks_sent (smartflo_session o);
          Smartflo.start_time := Smartflo.start_time (smartflo_session o) |}
       o).

(** [for task in self.tasks: if not task.done(): task.cancel()], the tasks
    given by what [done()] answers for each. *)
Fixpoint cancel_tasks (place : nat) (done : list bool) : Co unit :=
  match done with
  | [] => ret tt
  | d :: rest =>
      (if negb d then tell (Cancel place) else ret tt) ;;
      cancel_tasks (S place) rest
  end.

(** [stop]: [closed_model] and [closed_phone] are what closing the two
    sockets does. *)
Definition stop (done : list bool) (closed_model closed_phone : option exn)
  : Co unit :=
  log INFO "Stopping streaming orchestrator..." ;;
  modify (set_running false) ;;
  cancel_tasks 0 done ;;
  on_gemini (Gemini.close closed_model) ;;
  on_smartflo (Smartflo.close closed_phone) ;;
  log INFO "Streaming orchestrator stopped".

(** The calls on one of the two sockets in a trace. *)
Definition to_model (e : effect) : bool :=
  match e with
  | OfGemini (Gemini.WsSend _) => true
  | _ => false
  end.

Definition to_phone (e : effect) : bool :=
  match e with
  | OfSmartflo (Smartflo.WsSendText _) => true
  | _ => false
  end.

Definition is_cancel (e : effect) : bool :=
  match e with
  | Cancel _ => true
  | _ => false
  end.

Definition is_vad_call (e : effect) : bool :=
  match e with
  | OfGemini (Gemini.VadCallback _) => true
  | _ => false
  end.

(** The orchestrator as [start] has it when the tasks are launched:
    [connect] has returned, [running] is set and the callbacks are set up. *)
Definition started (session : Smartflo.session) : orchestrator :=
  _setup_callbacks
    (set_running true
       (state_of (on_gemini (Gemini.connect None None) (init session)))).


End Bridge.
(* ===================================================================== *)
(** * server.py at the root: the bridge that sends audio as hexadecimal *)
(* ===================================================================== *)

Module Hex.

Local Open Scope N_scope.

(** One digit of [bytes.hex()]. *)
Definition hex_char (n : N) : ascii :=
  ascii_of_N (if n <? 10 then 48 + n else 87 + n).

(** Modelled from the spec: [bytes.hex()] (Python built-in, not under
    src/): two lower-case digits for every octet. *)
Definition hex (data : bytes) : string :=
  string_of_list_ascii
    (flat_map (fun b => [hex_char (Byte.to_N b / 16); hex_char (Byte.to_N b mod 16)])
              data).

(** The value of a hexadecimal digit, of either case. *)
Definition digit_value (c : ascii) : option N :=
  let n := N_of_ascii c in
  if (48 <=? n) && (n <=? 57) then Some (n - 48)
  else if (97 <=? n) && (n <=? 102) then Some (n - 87)
  else if (65 <=? n) && (n <=? 70) then Some (n - 55)
  else None.

(** ASCII white space, which [fromhex] passes over between two octets. *)
Definition is_space (c : ascii) : bool :=
  let n := N_of_ascii c in
  (n =? 32) || ((9 <=? n) && (n <=? 13)).

Fixpoint fromhex_loop (s : list ascii) : result bytes :=
  match s with
  | [] => Ok []
  | c :: rest =>
      if is_space c then fromhex_loop rest
      else
        match digit_value c, rest with
        | Some top, c' :: rest' =>
            match digit_value c' with
            | Some bot =>
                match fromhex_loop rest' with
                | Ok out => Ok (byte_of_N (top * 16 + bot) :: out)
                | Raise e => Raise e
                end
            | None => Raise ValueError
            end
        | _, _ => Raise ValueError
        end
  end.

(** Modelled from the spec: [bytes.fromhex(v)] (Python built-in, not under
    src/): [TypeError] unless [v] is a string, [ValueError] on a character
    that is no digit where one is due. *)
Definition fromhex (v : json) : result bytes :=
  match v with
  | JString s => fromhex_loop (list_ascii_of_string s)
  | _ => Raise TypeError
  end.

End Hex.

Module Legacy.

Local Open Scope monad_scope.

(** Calls of the bridge to the outside. *)
Inductive effect : Type :=
| Log (level : log_level) (message : string)
| GeminiSend (message : json)           (* self.websocket.send(json.dumps(message)) *)
| SendBytes (audio_bytes : bytes).      (* smartflo_ws.send_bytes(audio_bytes) *)

(** The fields of [GeminiLiveConnection]; [websocket] tells whether
    [self.websocket] holds a socket. *)
Record connection : Type := {
  websocket : bool;
  connected : bool
}.

Local Abbreviation Co := (M connection effect).

Definition log (level : log_level) (message : string) : Co unit :=
  tell (Log level message).

(** The [realtime_input] message [send_audio_chunk] writes. *)
Definition realtime_input (audio_hex : string) : json :=
  JObject [("realtime_input", JObject [
    ("media_chunks", JArray [
       JObject [("mime_type", JString "audio/pcm_s16le");
                ("data", JString audio_hex)]])])].

(** [GeminiLiveConnection.send_audio_chunk]: [sent] is what the awaited
    write does. *)
Definition send_audio_chunk (sent : option exn) (audio_data : bytes) : Co unit :=
  c <- get ;;
  if negb (connected c) || negb (websocket c) then
    raise (OtherError "Not connected to Gemini Live")
  else
    try_except
      (await (GeminiSend (realtime_input (Hex.hex audio_data))) sent)
      (fun e => log ERROR "Error sending audio chunk" ;; raise e).

(** [response_data.keys()]: only a dict has the method. *)
Definition keys (v : json) : result unit :=
  match v with
  | JObject _ => Ok tt
  | _ => Raise AttributeError
  end.

(** The body of [for part in parts] in [forward_gemini_to_smartflo];
    [written] tells what the awaited [send_bytes] does for each buffer. *)
Definition handle_part (written : callback bytes) (part : json) : Co unit :=
  has_inline <- lift (Py.contains "inlineData" part) ;;
  if has_inline then
    inline_data <- lift (Py.getitem part "inlineData") ;;
    has_data <- lift (Py.contains "data" inline_data) ;;
    if has_data then
      audio_hex <- lift (Py.getitem inline_data "data") ;;
      audio_bytes <- lift (Hex.fromhex audio_hex) ;;
      log DEBUG "Sending bytes to Smartflo" ;;
      await (SendBytes audio_bytes) (written audio_bytes)
    else ret tt
  else ret tt.

(** The body of the loop of [forward_gemini_to_smartflo] for one message. *)
Definition on_response (written : callback bytes) (message : frame) : Co unit :=
  try_except
    (response_data <- lift (json_loads message) ;;
     lift (keys response_data) ;;
     log DEBUG "Received from Gemini" ;;
     has_content <- lift (Py.contains "serverContent" response_data) ;;
     if has_content then
       server_content <- lift (Py.getitem response_data "serverContent") ;;
       has_turn <- lift (Py.contains "modelTurn" server_content) ;;
       if has_turn then
         model_turn <- lift (Py.getitem server_content "modelTurn") ;;
         parts <- lift (Py.get model_turn "parts" (JArray [])) ;;
         parts <- lift (Py.iter parts) ;;
         for_each parts (handle_part written)
       else ret tt
     else
       has_tool <- lift (Py.contains "toolCall" response_data) ;;
       if has_tool then log INFO "Received tool call from Gemini"
       else
         has_setup <- lift (Py.contains "setupComplete" response_data) ;;
         if has_setup then log INFO "Gemini setup completed successfully"
         else ret tt)
    (fun e =>
       match e with
       | JSONDecodeError => log ERROR "Failed to parse Gemini response"
       | _ => log ERROR "Error processing Gemini response"
       end).

(** A message of the model with one part of inline data. *)
Definition audio_response (data : string) : frame :=
  Document (JObject [("serverContent", JObject [
    ("modelTurn", JObject [
       ("parts", JArray [
          JObject [("inlineData", JObject [("mimeType", JString "audio/pcm");
                                           ("data", JString data)])]])])])]).

(** The data of the one chunk of a [realtime_input] message. *)
Definition chunk_data (message : json) : result json :=
  match Py.getitem message "realtime_input" with
  | Ok input =>
      match Py.getitem input "media_chunks" with
      | Ok (JArray [chunk]) => Py.getitem chunk "data"
      | Ok _ => Raise ValueError
      | Raise e => Raise e
      end
  | Raise e => Raise e
  end.

(** A call that is none on the socket of the model. *)
Definition to_phone_or_log (e : effect) : Prop :=
  match e with
  | GeminiSend _ => False
  | _ => True
  end.

(** The buffers sent to the telephony socket, in the order they are sent. *)
Fixpoint sent_bytes (trace : list effect) : list bytes :=
  match trace with
  | [] => []
  | SendBytes audio_bytes :: rest => audio_bytes :: sent_bytes rest
  | _ :: rest => sent_bytes rest
  end.

End Legacy.
(* ===================================================================== *)
(** * Properties *)
(* ===================================================================== *)

(** ** Exhaustive checks and induction in steps *)

Lemma all_bytes_complete (b : byte) : In b all_bytes.
Proof.
  assert (H : existsb (Byte.eqb b) all_bytes = true) by (destruct b; reflexivity).
  apply existsb_exists in H. destruct H as [x [Hin Heq]].
  apply Byte.byte_dec_bl in Heq. now subst x.
Qed.

Lemma check1_spec (p : byte -> bool) :
  check1 p = true -> forall b, p b = true.
Proof.
  unfold check1. intros H b.
  rewrite forallb_forall in H. apply H, all_bytes_complete.
Qed.

Lemma check2_spec (p : byte -> byte -> bool) :
  check2 p = true -> forall b1 b2, p b1 b2 = true.
Proof.
  unfold check2. intros H b1 b2.
  rewrite forallb_forall in H. specialize (H b1 (all_bytes_complete b1)).
  rewrite forallb_forall in H. apply H, all_bytes_complete.
Qed.

Lemma list_ind3 {A : Type} (P : list A -> Prop) :
  P [] -> (forall a, P [a]) -> (forall a b, P [a; b]) ->
  (forall a b c l, P l -> P (a :: b :: c :: l)) ->
  forall l, P l.
Proof.
  intros H0 H1 H2 H3.
  refine (fix go (l : list A) : P l :=
            match l with
            | [] => H0
            | [a] => H1 a
            | [a; b] => H2 a b
            | a :: b :: c :: l' => H3 a b c l' (go l')
            end).
Qed.

Lemma list_ind2 {A : Type} (P : list A -> Prop) :
  P [] -> (forall a, P [a]) ->
  (forall a b l, P l -> P (a :: b :: l)) ->
  forall l, P l.
Proof.
  intros H0 H1 H2.
  refine (fix go (l : list A) : P l :=
            match l with
            | [] => H0
            | [a] => H1 a
            | a :: b :: l' => H2 a b l' (go l')
            end).
Qed.

(** ** base64 *)

Module Base64Facts.
Import Base64.
Local Open Scope N_scope.

Lemma good_char_step v rest quad_pos leftchar pads :
  good_char v = true ->
  a2b_base64 (table_b2a_base64 v :: rest) quad_pos leftchar pads =
  match quad_pos with
  | 0%nat => a2b_base64 rest 1 v 0
  | 1%nat =>
      emit (byte_of_N (N.lor (N.shiftl leftchar 2) (N.shiftr v 4)))
           (a2b_base64 rest 2 (N.land v 15) 0)
  | 2%nat =>
      emit (byte_of_N (N.lor (N.shiftl leftchar 4) (N.shiftr v 2)))
           (a2b_base64 rest 3 (N.land v 3) 0)
  | _ =>
      emit (byte_of_N (N.lor (N.shiftl leftchar 6) v))
           (a2b_base64 rest 0 0 0)
  end.
Proof.
  unfold good_char. intros H.
  apply andb_prop in H. destruct H as [Hpad Hval].
  apply negb_true_iff in Hpad.
  cbn [a2b_base64]. rewrite Hpad.
  destruct (table_a2b_base64 (table_b2a_base64 v)) as [v'|]; [|discriminate].
  apply N.eqb_eq in Hval. now subst v'.
Qed.

Lemma good_sextet1 b1 : good_char (sextet1 b1) = true.
Proof. revert b1. apply check1_spec. vm_compute. reflexivity. Qed.

Lemma good_sextet2 b1 b2 : good_char (sextet2 b1 b2) = true.
Proof. revert b1 b2. apply check2_spec. vm_compute. reflexivity. Qed.

Lemma good_sextet3 b2 b3 : good_char (sextet3 b2 b3) = true.
Proof. revert b2 b3. apply check2_spec. vm_compute. reflexivity. Qed.

Lemma good_sextet4 b3 : good_char (sextet4 b3) = true.
Proof. revert b3. apply check1_spec. vm_compute. reflexivity. Qed.

(** The three octets come back out of the four sextets. *)
Lemma octet1_back b1 b2 :
  byte_of_N (N.lor (N.shiftl (sextet1 b1) 2) (N.shiftr (sextet2 b1 b2) 4)) = b1.
Proof.
  apply Byte.byte_dec_bl. revert b1 b2.
  apply (check2_spec (fun b1 b2 => Byte.eqb
    (byte_of_N (N.lor (N.shiftl (sextet1 b1) 2) (N.shiftr (sextet2 b1 b2) 4))) b1)).
  vm_compute. reflexivity.
Qed.

Lemma sextet2_low b1 b2 :
  N.land (sextet2 b1 b2) 15 = N.land (Byte.to_N b2 / 16) 15.
Proof.
  apply N.eqb_eq. revert b1 b2.
  apply (check2_spec (fun b1 b2 =>
    N.land (sextet2 b1 b2) 15 =? N.land (Byte.to_N b2 / 16) 15)).
  vm_compute. reflexivity.
Qed.

Lemma sextet3_high b2 b3 :
  N.shiftr (sextet3 b2 b3) 2 = N.land (Byte.to_N b2) 15.
Proof.
  apply N.eqb_eq. revert b2 b3.
  apply (check2_spec (fun b2 b3 =>
    N.shiftr (sextet3 b2 b3) 2 =? N.land (Byte.to_N b2) 15)).
  vm_compute. reflexivity.
Qed.

Lemma octet2_back b2 :
  byte_of_N (N.lor (N.shiftl (N.land (Byte.to_N b2 / 16) 15) 4)
                   (N.land (Byte.to_N b2) 15)) = b2.
Proof. destruct b2; reflexivity. Qed.

Lemma octet3_back b2 b3 :
  byte_of_N (N.lor (N.shiftl (N.land (sextet3 b2 b3) 3) 6) (sextet4 b3)) = b3.
Proof.
  apply Byte.byte_dec_bl. revert b2 b3.
  apply (check2_spec (fun b2 b3 => Byte.eqb
    (byte_of_N (N.lor (N.shiftl (N.land (sextet3 b2 b3) 3) 6) (sextet4 b3))) b3)).
  vm_compute. reflexivity.
Qed.

(** One full group of the encoder's output, read from the start of a quad. *)
Lemma a2b_group b1 b2 b3 rest :
  a2b_base64 (table_b2a_base64 (sextet1 b1)
              :: table_b2a_base64 (sextet2 b1 b2)
              :: table_b2a_base64 (sextet3 b2 b3)
              :: table_b2a_base64 (sextet4 b3) :: rest) 0 0 0
  = emit b1 (emit b2 (emit b3 (a2b_base64 rest 0 0 0))).
Proof.
  rewrite (good_char_step _ _ _ _ _ (good_sextet1 b1)).
  rewrite (good_char_step _ _ _ _ _ (good_sextet2 b1 b2)).
  rewrite (good_char_step _ _ _ _ _ (good_sextet3 b2 b3)).
  rewrite (good_char_step _ _ _ _ _ (good_sextet4 b3)).
  rewrite octet1_back, sextet2_low, sextet3_high, octet2_back, octet3_back.
  reflexivity.
Qed.

Lemma decodes_to_spec expected r : decodes_to expected r = true -> r = Ok expected.
Proof.
  destruct r as [out|e]; cbn; [|discriminate].
  destruct (list_eq_dec Byte.byte_eq_dec out expected); [now subst|discriminate].
Qed.

Lemma a2b_tail1 b1 : a2b_base64 (b64encode [b1]) 0 0 0 = Ok [b1].
Proof.
  apply decodes_to_spec. revert b1.
  apply (check1_spec (fun b1 => decodes_to [b1] (a2b_base64 (b64encode [b1]) 0 0 0))).
  vm_compute. reflexivity.
Qed.

Lemma a2b_tail2 b1 b2 : a2b_base64 (b64encode [b1; b2]) 0 0 0 = Ok [b1; b2].
Proof.
  apply decodes_to_spec. revert b1 b2.
  apply (check2_spec (fun b1 b2 =>
    decodes_to [b1; b2] (a2b_base64 (b64encode [b1; b2]) 0 0 0))).
  vm_compute. reflexivity.
Qed.

Lemma a2b_b64encode (s : bytes) : a2b_base64 (b64encode s) 0 0 0 = Ok s.
Proof.
  induction s as [| b1 | b1 b2 | b1 b2 b3 rest IH] using list_ind3.
  - reflexivity.
  - apply a2b_tail1.
  - apply a2b_tail2.
  - cbn [b64encode]. rewrite a2b_group, IH. reflexivity.
Qed.

(** Everything the encoder writes is an ASCII character. *)
Lemma table_b2a_ascii v : (Byte.to_N (table_b2a_base64 v) <? 128) = true.
Proof.
  unfold table_b2a_base64.
  destruct (nth_in_or_default (N.to_nat v) alphabet BASE64_PAD) as [Hin | Hd].
  - revert Hin. generalize (nth (N.to_nat v) alphabet BASE64_PAD). intros c Hin.
    assert (Hall : forallb (fun c => Byte.to_N c <? 128) alphabet = true)
      by reflexivity.
    rewrite forallb_forall in Hall. now apply Hall.
  - rewrite Hd. reflexivity.
Qed.

Lemma b64encode_ascii (s : bytes) :
  forallb (fun c => Byte.to_N c <? 128) (b64encode s) = true.
Proof.
  induction s as [| b1 | b1 b2 | b1 b2 b3 rest IH] using list_ind3;
    cbn [b64encode forallb]; rewrite ?table_b2a_ascii, ?IH; reflexivity.
Qed.

Lemma b64decode_b64encode (s : bytes) :
  b64decode (string_of_list_byte (b64encode s)) = Ok s.
Proof.
  unfold b64decode, is_ascii.
  rewrite list_byte_of_string_of_list_byte, b64encode_ascii.
  apply a2b_b64encode.
Qed.

End Base64Facts.

(** ** mu-law *)

Module AudioopFacts.
Import Audioop.
Local Open Scope Z_scope.

Lemma sample_roundtrip lo hi :
  within_one_step (GETINT16 lo hi) (decode_sample (encode_sample (GETINT16 lo hi))).
Proof.
  assert (H : sample_ok lo hi = true).
  { revert lo hi. apply check2_spec. vm_compute. reflexivity. }
  unfold sample_ok in H. apply andb_prop in H. destruct H as [H1 H2].
  apply Z.ltb_lt in H1. apply Z.leb_le in H2.
  unfold within_one_step. split; assumption.
Qed.

(** What [ulaw2lin] stores for a code word reads back as the table entry. *)
Lemma stored_sample uc rest :
  samples (SETINT16 (decode_sample uc) ++ rest) = decode_sample uc :: samples rest.
Proof.
  assert (H : (let '(lo, hi) := match SETINT16 (decode_sample uc) with
                                | [lo; hi] => (lo, hi)
                                | _ => (x00, x00)
                                end in GETINT16 lo hi =? decode_sample uc) = true).
  { revert uc. apply check1_spec. vm_compute. reflexivity. }
  unfold SETINT16 in *. cbn [app samples].
  apply Z.eqb_eq in H. now rewrite H.
Qed.

Lemma even_length_mod2 (n : nat) :
  Nat.eqb (Nat.modulo n 2) 0 = Nat.even n.
Proof.
  destruct (Nat.even n) eqn:E.
  - apply Nat.even_spec in E. destruct E as [k ->].
    rewrite Nat.mul_comm, Nat.Div0.mod_mul. reflexivity.
  - assert (O : Nat.odd n = true) by (rewrite <- Nat.negb_even, E; reflexivity).
    apply Nat.odd_spec in O. destruct O as [k ->].
    rewrite Nat.add_comm, Nat.mul_comm, Nat.Div0.mod_add. reflexivity.
Qed.

Lemma lin2ulaw_frames_length (fragment : bytes) :
  Nat.even (List.length fragment) = true ->
  List.length fragment = (2 * List.length (lin2ulaw_frames fragment))%nat.
Proof.
  induction fragment as [| lo | lo hi rest IH] using list_ind2; intros E.
  - reflexivity.
  - discriminate.
  - cbn [lin2ulaw_frames List.length] in *.
    change (Nat.even (S (S (List.length rest)))) with (Nat.even (List.length rest)) in E.
    specialize (IH E). lia.
Qed.

Lemma roundtrip_frames (pcm : bytes) :
  Nat.even (List.length pcm) = true ->
  let pcm' := flat_map (fun uc => SETINT16 (decode_sample uc)) (lin2ulaw_frames pcm) in
  List.length pcm' = List.length pcm /\
  Forall2 within_one_step (samples pcm) (samples pcm').
Proof.
  induction pcm as [| lo | lo hi rest IH] using list_ind2; intros E.
  - split; [reflexivity | constructor].
  - discriminate.
  - change (Nat.even (S (S (List.length rest)))) with (Nat.even (List.length rest)) in E.
    specialize (IH E). cbn zeta in IH. destruct IH as [IHlen IHs].
    cbn [lin2ulaw_frames flat_map]. cbn zeta. split.
    + rewrite length_app. unfold SETINT16 at 1. cbn [List.length].
      rewrite IHlen. reflexivity.
    + rewrite stored_sample. cbn [samples].
      constructor; [apply sample_roundtrip | exact IHs].
Qed.

End AudioopFacts.

(** ** audio/converter.py *)

(** C9. Base64 framing round trip: for every byte buffer, [from_base64]
    applied to the string [to_base64] makes of it gives the buffer back. *)
Theorem base64_roundtrip (audio_data : bytes) :
  AudioConverter.from_base64 (AudioConverter.to_base64 audio_data) = Ok audio_data.
Proof.
  unfold AudioConverter.from_base64, AudioConverter.to_base64.
  apply Base64Facts.b64decode_b64encode.
Qed.

(** C7. [pcm16_to_ulaw] raises the frame-length error exactly on the buffers
    of odd length; on a buffer of even length it returns one code word for
    every two octets. *)
Theorem pcm16_to_ulaw_frame_length (pcm_data : bytes) :
  match AudioConverter.pcm16_to_ulaw pcm_data with
  | Ok ulaw =>
      Nat.even (List.length pcm_data) = true /\
      List.length pcm_data = 2 * List.length ulaw
  | Raise e =>
      Nat.odd (List.length pcm_data) = true /\ e = InvalidFrameLength
  end.
Proof.
  unfold AudioConverter.pcm16_to_ulaw, Audioop.lin2ulaw.
  rewrite AudioopFacts.even_length_mod2.
  destruct (Nat.even (List.length pcm_data)) eqn:E.
  - split; [reflexivity | now apply AudioopFacts.lin2ulaw_frames_length].
  - split; [| reflexivity]. now rewrite <- Nat.negb_even, E.
Qed.

(** C6, as stated, fails on a buffer of odd length: a buffer of one octet has
    positive length and does not encode at all. *)
Lemma companding_roundtrip_odd_length :
  0 < List.length [x00] /\ ~ AudioConverter.companding_roundtrip [x00].
Proof.
  split; [repeat constructor |].
  intros [ulaw [pcm [H _]]]. discriminate H.
Qed.

(** C6, amended. For every byte buffer of even length, decoding the encoded
    buffer gives a buffer of the same length whose every sample lies within
    one quantization step (at most 1024) of the original sample. *)
Theorem companding_roundtrip_even_length (b : bytes) :
  Nat.even (List.length b) = true -> AudioConverter.companding_roundtrip b.
Proof.
  intros E. unfold AudioConverter.companding_roundtrip.
  unfold AudioConverter.pcm16_to_ulaw, AudioConverter.ulaw_to_pcm16.
  unfold Audioop.lin2ulaw, Audioop.ulaw2lin.
  rewrite AudioopFacts.even_length_mod2, E.
  destruct (AudioopFacts.roundtrip_frames b E) as [Hlen Hs].
  eexists. eexists. repeat split; [exact Hlen | exact Hs].
Qed.

Lemma companding_roundtrip_even_length_witness :
  Nat.even (List.length [x34; x12; xff; x7f; x00; x80]) = true /\
  AudioConverter.companding_roundtrip [x34; x12; xff; x7f; x00; x80].
Proof.
  split; [reflexivity |].
  apply companding_roundtrip_even_length. reflexivity.
Defined.

(** ** Coroutines *)

Section MonadFacts.

Context {S E : Type}.

Lemma bind_ok {A B : Type} (m : M S E A) (k : A -> M S E B) s a s1 t1 :
  m s = (Ok a, s1, t1) ->
  bind m k s = (result_of (k a s1), state_of (k a s1), t1 ++ trace_of (k a s1)).
Proof.
  intros H. unfold bind. rewrite H.
  destruct (k a s1) as [[r s2] t2]. reflexivity.
Qed.

Lemma bind_raise {A B : Type} (m : M S E A) (k : A -> M S E B) s e s1 t1 :
  m s = (Raise e, s1, t1) -> bind m k s = (Raise e, s1, t1).
Proof. intros H. unfold bind. now rewrite H. Qed.

Lemma run_eta {A : Type} (r : result A * S * list E) :
  r = (result_of r, state_of r, trace_of r).
Proof. now destruct r as [[? ?] ?]. Qed.

Variable R : S -> S -> Prop.
Variable T : E -> Prop.
Hypothesis R_refl : forall s, R s s.
Hypothesis R_trans : forall s1 s2 s3, R s1 s2 -> R s2 s3 -> R s1 s3.

Lemma stable_ret {A : Type} (a : A) : stable R T (ret a).
Proof. intros s. split; [apply R_refl | constructor]. Qed.

Lemma stable_raise {A : Type} (e : exn) : stable R T (raise (A := A) e).
Proof. intros s. split; [apply R_refl | constructor]. Qed.

Lemma stable_lift {A : Type} (r : result A) : stable R T (lift r).
Proof. destruct r; [apply stable_ret | apply stable_raise]. Qed.

Lemma stable_get : stable R T get.
Proof. intros s. split; [apply R_refl | constructor]. Qed.

Lemma stable_tell (e : E) : T e -> stable R T (tell e).
Proof. intros He s. split; [apply R_refl | repeat constructor; exact He]. Qed.

Lemma stable_modify (f : S -> S) : (forall s, R s (f s)) -> stable R T (modify f).
Proof. intros Hf s. split; [apply Hf | constructor]. Qed.

Lemma stable_bind {A B : Type} (m : M S E A) (k : A -> M S E B) :
  stable R T m -> (forall a, stable R T (k a)) -> stable R T (bind m k).
Proof.
  intros Hm Hk s. specialize (Hm s).
  unfold bind. destruct (m s) as [[[a | e] s1] t1]; cbn in Hm.
  - specialize (Hk a s1). destruct (k a s1) as [[r s2] t2]. cbn in *.
    destruct Hm as [Hm1 Hm2], Hk as [Hk1 Hk2]. split.
    + eapply R_trans; eassumption.
    + apply Forall_app. split; assumption.
  - exact Hm.
Qed.

Lemma stable_try_except {A : Type} (m : M S E A) (h : exn -> M S E A) :
  stable R T m -> (forall e, stable R T (h e)) -> stable R T (try_except m h).
Proof.
  intros Hm Hh s. specialize (Hm s).
  unfold try_except. destruct (m s) as [[[a | e] s1] t1]; cbn in Hm.
  - exact Hm.
  - specialize (Hh e s1). destruct (h e s1) as [[r s2] t2]. cbn in *.
    destruct Hm as [Hm1 Hm2], Hh as [Hh1 Hh2]. split.
    + eapply R_trans; eassumption.
    + apply Forall_app. split; assumption.
Qed.

Lemma stable_await (call : E) (outcome : option exn) :
  T call -> stable R T (await call outcome).
Proof.
  intros Hc. unfold await. apply stable_bind; [now apply stable_tell |].
  intros _. destruct outcome; [apply stable_raise | apply stable_ret].
Qed.

Lemma stable_for_each {X : Type} (l : list X) (body : X -> M S E unit) :
  (forall x, stable R T (body x)) -> stable R T (for_each l body).
Proof.
  intros Hb. induction l as [| x rest IH]; cbn [for_each].
  - apply stable_ret.
  - apply stable_bind; [apply Hb | intros _; exact IH].
Qed.

End MonadFacts.

Lemma stable_weaken {S E A : Type} (R R' : S -> S -> Prop) (T T' : E -> Prop)
                    (m : M S E A) :
  (forall s s', R s s' -> R' s s') -> (forall e, T e -> T' e) ->
  stable R T m -> stable R' T' m.
Proof.
  intros HR HT Hm s. destruct (Hm s) as [H1 H2]. split.
  - now apply HR.
  - eapply Forall_impl; [exact HT | exact H2].
Qed.

(** ** smartflo/session.py *)

Module SmartfloFacts.
Import Smartflo.

Lemma pad_to_frame_spec (ulaw_data : bytes) :
  exists n,
    pad_to_frame ulaw_data = ulaw_data ++ repeat xff n /\
    Nat.modulo (List.length (ulaw_data ++ repeat xff n)) 160 = 0 /\
    n < 160.
Proof.
  unfold pad_to_frame.
  destruct (Nat.eqb (Nat.modulo (List.length ulaw_data) 160) 0) eqn:E; cbn [negb].
  - exists 0. cbn [repeat]. rewrite app_nil_r.
    apply Nat.eqb_eq in E. repeat split; [exact E | lia].
  - apply Nat.eqb_neq in E.
    exists (160 - Nat.modulo (List.length ulaw_data) 160).
    assert (Hlt : Nat.modulo (List.length ulaw_data) 160 < 160)
      by (apply Nat.mod_upper_bound; discriminate).
    repeat split; [| lia].
    rewrite length_app, repeat_length.
    pose proof (Nat.div_mod_eq (List.length ulaw_data) 160) as Hdm.
    replace (List.length ulaw_data + (160 - Nat.modulo (List.length ulaw_data) 160))
      with ((List.length ulaw_data / 160 + 1) * 160) by lia.
    apply Nat.Div0.mod_mul.
Qed.

Lemma send_audio_streaming (s : session) (written : option exn) (ulaw_data : bytes) :
  streaming s = true ->
  send_audio written ulaw_data s =
    (Ok tt,
     match written with
     | None => set_audio_chunks_sent (audio_chunks_sent s + 1) s
     | Some _ => s
     end,
     WsSendText (media_message (stream_sid s)
        (string_of_list_byte (Base64.b64encode (pad_to_frame ulaw_data))))
     :: match written with
        | None => []
        | Some _ => [Log ERROR "Error sending audio to Smartflo"]
        end).
Proof.
  unfold streaming. intros H. apply andb_prop in H. destruct H as [Hc Hs].
  unfold send_audio, bind, get. rewrite Hc, Hs. destruct written; reflexivity.
Qed.

Lemma send_audio_not_streaming (s : session) (written : option exn) (ulaw_data : bytes) :
  streaming s = false -> send_audio written ulaw_data s = (Ok tt, s, []).
Proof.
  unfold streaming. intros H.
  unfold send_audio, bind, get.
  destruct (connected s); cbn in *; [rewrite H |]; reflexivity.
Qed.

End SmartfloFacts.



(** C8. A text message that is no JSON document changes no field of the
    session that reads it, makes it write one error line to the log and
    nothing else, so that no callback runs and the counters of the
    orchestrator stay as they are, and the read loop goes on with the
    messages that follow; this holds on the telephony socket and on the model
    socket. *)
Theorem malformed_json_is_skipped (text : string) :
  (forall s rest failure,
     Smartflo.handle_message (Malformed text) s =
       (Ok false, s, [Smartflo.Log ERROR "Invalid JSON from Smartflo"]) /\
     Smartflo.event_loop (Malformed text :: rest) failure s =
       (result_of (Smartflo.event_loop rest failure s),
        state_of (Smartflo.event_loop rest failure s),
        Smartflo.Log ERROR "Invalid JSON from Smartflo"
          :: trace_of (Smartflo.event_loop rest failure s))) /\
  (forall c rest failure,
     Gemini.on_message (Malformed text) c =
       (Ok tt, c, [Gemini.Log ERROR "Invalid JSON from Gemini"]) /\
     Gemini.receive_loop (Malformed text :: rest) failure c =
       (result_of (Gemini.receive_loop rest failure c),
        state_of (Gemini.receive_loop rest failure c),
        Gemini.Log ERROR "Invalid JSON from Gemini"
          :: trace_of (Gemini.receive_loop rest failure c))) /\
  (forall o,
     Orchestrator.after_smartflo
       [Smartflo.Log ERROR "Invalid JSON from Smartflo"] o = o /\
     Orchestrator.after_gemini
       [Gemini.Log ERROR "Invalid JSON from Gemini"] o = o).
Proof.
  split; [| split].
  - intros s rest failure.
    assert (H : Smartflo.handle_message (Malformed text) s =
                (Ok false, s, [Smartflo.Log ERROR "Invalid JSON from Smartflo"]))
      by reflexivity.
    split; [exact H |].
    cbn [Smartflo.event_loop]. rewrite (bind_ok _ _ _ _ _ _ H). reflexivity.
  - intros c rest failure.
    assert (H : Gemini.on_message (Malformed text) c =
                (Ok tt, c, [Gemini.Log ERROR "Invalid JSON from Gemini"]))
      by reflexivity.
    split; [exact H |].
    cbn [Gemini.receive_loop]. rewrite (bind_ok _ _ _ _ _ _ H). reflexivity.
  - intros o. split; reflexivity.
Qed.

Module MediaFacts.
Import Smartflo.

(** What [_handle_media] does, case by case. *)
Lemma handle_media_run (message : json) (s : session) :
  _handle_media message s =
  match payload_of message with
  | Raise e => (Raise e, s, [])
  | Ok p =>
      if Py.truthy p then
        match Py.b64decode p with
        | Raise e => (Ok tt, s, [Log ERROR "Error processing media"])
        | Ok data =>
            let s' := set_audio_chunks_received (audio_chunks_received s + 1) s in
            match on_audio_callback s with
            | None => (Ok tt, s', [])
            | Some f =>
                match f data with
                | None => (Ok tt, s', [OnAudio data])
                | Some e =>
                    (Ok tt, s', [OnAudio data; Log ERROR "Error processing media"])
                end
            end
        end
      else (Ok tt, s, [])
  end.
Proof.
  unfold _handle_media, payload_of.
  destruct (Py.get message "media" (JObject [])) as [media | e]; [| reflexivity].
  unfold bind at 1. cbn [lift ret].
  destruct (Py.get media "payload" JNull) as [p | e]; [| reflexivity].
  unfold bind at 1. cbn [lift ret].
  destruct (Py.truthy p); [| reflexivity]. cbn [negb].
  unfold try_except, bind.
  destruct (Py.b64decode p) as [data | e]; [| reflexivity].
  cbn [lift ret modify get].
  destruct (on_audio_callback s) as [f |] eqn:F; cbn; rewrite F; [| reflexivity].
  unfold await, bind, tell. destruct (f data); reflexivity.
Qed.

(** The loop body on a [media] event. *)
Lemma handle_message_media (members : list (string * json)) (s : session) :
  Py.lookup "event" members = Some (JString "media") ->
  handle_message (Document (JObject members)) s =
  match _handle_media (JObject members) s with
  | (Ok _, s', t) => (Ok false, s', t)
  | (Raise e, s', t) =>
      (Ok false, s',
       t ++ [Log ERROR (match e with
                        | JSONDecodeError => "Invalid JSON from Smartflo"
                        | _ => "Error processing Smartflo event"
                        end)])
  end.
Proof.
  intros H. unfold handle_message, try_except.
  unfold bind at 1. cbn [json_loads lift ret].
  unfold bind at 1. cbn [Py.get lift ret]. rewrite H. cbn [Py.eq_str].
  change (String.eqb "media" "connected") with false.
  change (String.eqb "media" "start") with false.
  change (String.eqb "media" "media") with true.
  cbn iota. unfold bind at 1.
  destruct (_handle_media (JObject members) s) as [[[[] | e] s'] t].
  - cbn. rewrite app_nil_r. reflexivity.
  - destruct e; reflexivity.
Qed.

End MediaFacts.

(** C10. On a [media] event the loop always goes on.  When the payload is
    missing or empty nothing at all happens: no field changes, nothing is
    logged, no callback runs.  The count of chunks received moves, or the
    audio callback runs, only when the payload is a non-empty string that
    decodes from base64; then the count goes up by one and the callback, if
    one is registered, receives the decoded octets. *)
Theorem media_payload_edge (s : Smartflo.session) (members : list (string * json)) :
  Py.lookup "event" members = Some (JString "media") ->
  let message := JObject members in
  let r := Smartflo.handle_message (Document message) s in
  result_of r = Ok false /\
  (forall p, Smartflo.payload_of message = Ok p -> Py.truthy p = false ->
     r = (Ok false, s, [])) /\
  (Smartflo.audio_chunks_received (state_of r) <> Smartflo.audio_chunks_received s
   \/ (exists d, In (Smartflo.OnAudio d) (trace_of r)) ->
     exists p data,
       Smartflo.payload_of message = Ok (JString p) /\ p <> EmptyString /\
       Base64.b64decode p = Ok data /\
       Smartflo.audio_chunks_received (state_of r)
         = Smartflo.audio_chunks_received s + 1 /\
       forall d, In (Smartflo.OnAudio d) (trace_of r) -> d = data) /\
  (forall p data,
     Smartflo.payload_of message = Ok (JString p) -> p <> EmptyString ->
     Base64.b64decode p = Ok data ->
     Smartflo.audio_chunks_received (state_of r)
       = Smartflo.audio_chunks_received s + 1 /\
     forall f, Smartflo.on_audio_callback s = Some f ->
               In (Smartflo.OnAudio data) (trace_of r)).
Proof.
  intros Hev. cbv zeta.
  rewrite (MediaFacts.handle_message_media members s Hev).
  rewrite MediaFacts.handle_media_run.
  set (message := JObject members).
  destruct (Smartflo.payload_of message) as [p | e] eqn:P.
  2:{ cbn. split; [reflexivity |]. split; [intros p H; discriminate H |].
      split.
      - intros [H | [d [H | []]]]; [now contradiction H | discriminate H].
      - intros p data H. discriminate H. }
  destruct (Py.truthy p) eqn:Tp.
  2:{ cbn. split; [reflexivity |]. split; [reflexivity |]. split.
      - intros [H | [d []]]. now contradiction H.
      - intros p' data H Hne. injection H as ->. cbn in Tp.
        apply negb_false_iff, String.eqb_eq in Tp. contradiction. }
  destruct (Py.b64decode p) as [data | e] eqn:D.
  2:{ cbn. split; [reflexivity |]. split; [intros p' H; injection H as <-; congruence |].
      split.
      - intros [H | [d [H | []]]]; [now contradiction H | discriminate H].
      - intros p' data H Hne Hd. injection H as ->. cbn in D. congruence. }
  assert (Hp : exists str, p = JString str /\ str <> EmptyString /\ Base64.b64decode str = Ok data).
  { destruct p; try discriminate D. exists s0. repeat split; [| exact D].
    intros ->. discriminate Tp. }
  destruct Hp as [str [-> [Hne Hdec]]].
  cbn zeta.
  destruct (Smartflo.on_audio_callback s) as [f |] eqn:F;
    [destruct (f data) eqn:Fd |]; cbn.
  all: split; [reflexivity |].
  all: split; [intros p' H; injection H as <-; congruence |].
  all: split.
  all: try (intros _; exists str, data; repeat split; try assumption;
            intros d Hin; cbn in Hin; intuition congruence).
  all: intros p' data' H Hne' Hd; injection H as <-;
       assert (data' = data) by congruence; subst data'; split; [reflexivity |].
  all: intros f' Hf'; try discriminate Hf'; cbn; auto.
Qed.

Lemma media_payload_edge_witness :
  Py.lookup "event" [("event", JString "media");
                     ("media", JObject [("payload", JString EmptyString)])]
    = Some (JString "media") /\
  result_of (Smartflo.handle_message
               (Document (JObject [("event", JString "media");
                                   ("media", JObject [("payload", JString EmptyString)])]))
               Smartflo.init) = Ok false.
Proof.
  split; [reflexivity |].
  apply (media_payload_edge Smartflo.init
           [("event", JString "media");
            ("media", JObject [("payload", JString EmptyString)])]).
  reflexivity.
Defined.

(** ** gemini_live/client.py *)

Module GeminiFacts.
Import Gemini.

Lemma same_callbacks_refl c : same_callbacks c c.
Proof. repeat split. Qed.

Lemma same_callbacks_trans c1 c2 c3 :
  same_callbacks c1 c2 -> same_callbacks c2 c3 -> same_callbacks c1 c3.
Proof.
  intros [A1 [B1 C1]] [A2 [B2 C2]]. repeat split; congruence.
Qed.

Lemma turn_step_refl quiet c : turn_step quiet c c.
Proof. split; [apply same_callbacks_refl | split; auto]. Qed.

Lemma turn_step_trans quiet c1 c2 c3 :
  turn_step quiet c1 c2 -> turn_step quiet c2 c3 -> turn_step quiet c1 c3.
Proof.
  intros [S1 [E1 Q1]] [S2 [E2 Q2]]. split; [| split].
  - eapply same_callbacks_trans; eassumption.
  - auto.
  - intros q. rewrite (Q2 q). auto.
Qed.

(** A step that leaves every field alone is a turn step. *)
Lemma eq_turn_step quiet c c' : c = c' -> turn_step quiet c c'.
Proof. intros <-. apply turn_step_refl. Qed.

(** *** What the blocks do, case by case *)

Lemma model_turn_begin_run (c : client) :
  model_turn_begin c =
  if bot_speaking c then (Ok tt, c, [])
  else
    let c' := set_user_speaking false (set_bot_speaking true c) in
    match vad_callback c with
    | None => (Ok tt, c', [Log INFO "Bot speaking (VAD: user stopped)"])
    | Some f =>
        (match f "user_stopped" with None => Ok tt | Some e => Raise e end,
         c',
         [Log INFO "Bot speaking (VAD: user stopped)"; VadCallback "user_stopped"])
    end.
Proof.
  unfold model_turn_begin, bind, get, modify, log, tell, await, ret, raise.
  destruct (bot_speaking c) eqn:B; cbn.
  - rewrite B. reflexivity.
  - destruct (vad_callback c) as [f |]; [destruct (f "user_stopped") |]; reflexivity.
Qed.

Lemma call_vad_run (event : string) (c : client) :
  call_vad event c =
  match vad_callback c with
  | None => (Ok tt, c, [])
  | Some f =>
      (match f event with None => Ok tt | Some e => Raise e end,
       c, [VadCallback event])
  end.
Proof.
  unfold call_vad, bind, get, await, tell, ret, raise. cbn.
  destruct (vad_callback c) as [f |]; [destruct (f event) |]; reflexivity.
Qed.

Lemma on_turn_complete_run (c : client) :
  on_turn_complete c =
  let c' := set_bot_speaking false c in
  match vad_callback c with
  | None => (Ok tt, c', [Log INFO "Turn complete - waiting for user"])
  | Some f =>
      (match f "turn_complete" with None => Ok tt | Some e => Raise e end,
       c',
       [Log INFO "Turn complete - waiting for user"; VadCallback "turn_complete"])
  end.
Proof.
  destruct c as [w cn ac tc [f |] us bs]; cbv - [String.eqb app];
    [destruct (f "turn_complete") |]; reflexivity.
Qed.

Lemma on_interrupted_run (c : client) :
  on_interrupted c =
  let c' := set_user_speaking true (set_bot_speaking false c) in
  match vad_callback c with
  | None => (Ok tt, c', [Log INFO "Bot interrupted by user"])
  | Some f =>
      match f "interrupted" with
      | Some e =>
          (Raise e, c',
           [Log INFO "Bot interrupted by user"; VadCallback "interrupted"])
      | None =>
          (match f "turn_complete" with None => Ok tt | Some e => Raise e end,
           c',
           [Log INFO "Bot interrupted by user"; VadCallback "interrupted";
            VadCallback "turn_complete"])
      end
  end.
Proof.
  destruct c as [w cn ac tc [f |] us bs]; cbv - [String.eqb app];
    [| reflexivity].
  destruct (f "interrupted"); [reflexivity |].
  destruct (f "turn_complete"); reflexivity.
Qed.

Lemma on_interrupted_again_run (c : client) :
  on_interrupted_again c =
  let c' := set_bot_speaking false c in
  match vad_callback c with
  | None => (Ok tt, c', [Log INFO "Bot interrupted by user speech"])
  | Some f =>
      (match f "interrupted" with None => Ok tt | Some e => Raise e end,
       c',
       [Log INFO "Bot interrupted by user speech"; VadCallback "interrupted"])
  end.
Proof.
  destruct c as [w cn ac tc [f |] us bs]; cbv - [String.eqb app];
    [destruct (f "interrupted") |]; reflexivity.
Qed.

End GeminiFacts.
Module GeminiSteps.
Import Gemini GeminiFacts.

Lemma bind_lift_ok {A B : Type} (a : A) (k : A -> M client effect B) c :
  bind (lift (Ok a)) k c = k a c.
Proof. unfold bind, lift, ret. destruct (k a c) as [[r s2] t2]. reflexivity. Qed.

Lemma bind_assoc {A B C : Type} (m : M client effect A)
      (k : A -> M client effect B) (h : B -> M client effect C) c :
  bind (bind m k) h c = bind m (fun x => bind (k x) h) c.
Proof.
  unfold bind. destruct (m c) as [[[a | e] s1] t1]; [| reflexivity].
  destruct (k a s1) as [[[b | e] s2] t2]; [| reflexivity].
  destruct (h b s2) as [[r s3] t3]. now rewrite app_assoc.
Qed.

(** A guarded computation that has a prefix with a known run. *)
Lemma try_bind_run {A B : Type} (m : M client effect A)
      (k : A -> M client effect B) (h : exn -> M client effect B) c r0 c0 t0 :
  m c = (r0, c0, t0) ->
  let tail := match r0 with
              | Ok a => try_except (k a) h
              | Raise e => h e
              end in
  try_except (bind m k) h c =
    (result_of (tail c0), state_of (tail c0), t0 ++ trace_of (tail c0)).
Proof.
  intros Hm. cbv zeta. unfold try_except, bind. rewrite Hm.
  destruct r0 as [a | e].
  - destruct (k a c0) as [[[b | e] s2] t2]; cbn.
    + reflexivity.
    + destruct (h e s2) as [[r s3] t3]. cbn. now rewrite app_assoc.
  - destruct (h e c0) as [[r s2] t2]. reflexivity.
Qed.

Ltac side :=
  first [ exact I | reflexivity
        | apply eq_turn_step; reflexivity
        | intros; apply turn_step_refl ].

(** Steps through a computation made of the monad's operations. *)
Ltac stable_with Hrefl Htrans :=
  repeat first
    [ apply (stable_ret _ _ Hrefl)
    | apply (stable_raise _ _ Hrefl)
    | apply (stable_lift _ _ Hrefl)
    | apply (stable_get _ _ Hrefl)
    | apply (stable_tell _ _ Hrefl); side
    | apply (stable_await _ _ Hrefl Htrans); side
    | apply (stable_bind _ _ Htrans); [| intros ?]
    | apply (stable_try_except _ _ Htrans); [| intros ?]
    | apply (stable_for_each _ _ Hrefl Htrans); intros ?
    | match goal with
      | |- stable _ _ (if ?b then _ else _) => destruct b
      | |- stable _ _ (match ?x with _ => _ end) => destruct x
      end ].

Section Quiet.

Variable quiet : Prop.

Lemma handle_part_stable (part : json) :
  stable (turn_step quiet) not_user_stopped (handle_part part).
Proof.
  unfold handle_part.
  stable_with (turn_step_refl quiet) (turn_step_trans quiet).
Qed.

Lemma other_keys_stable (data : json) :
  stable (turn_step quiet) not_user_stopped (other_keys data).
Proof.
  unfold other_keys, log.
  stable_with (turn_step_refl quiet) (turn_step_trans quiet).
Qed.

Lemma on_error_stable (e : exn) :
  stable (turn_step quiet) not_user_stopped (on_error e).
Proof.
  unfold on_error, log.
  stable_with (turn_step_refl quiet) (turn_step_trans quiet).
Qed.

(** The bodies that lower or raise a flag are no quiet steps. *)
Hypothesis not_quiet : ~ quiet.

Lemma flags_turn_step (c c' : client) :
  same_callbacks c c' ->
  (user_speaking c' = false \/ bot_speaking c' = false) ->
  turn_step quiet c c'.
Proof.
  intros Hs Hf. split; [exact Hs | split; [| intros q; contradiction]].
  intros _ Hu Hb. destruct Hf as [Hf | Hf]; congruence.
Qed.

Lemma on_turn_complete_stable :
  stable (turn_step quiet) not_user_stopped on_turn_complete.
Proof.
  intros c. rewrite on_turn_complete_run. cbv zeta.
  destruct (vad_callback c) as [f |]; cbn [state_of trace_of fst snd].
  all: split; [apply flags_turn_step; [repeat split | right; reflexivity]
              | repeat constructor].
Qed.

Lemma on_interrupted_stable :
  stable (turn_step quiet) not_user_stopped on_interrupted.
Proof.
  intros c. rewrite on_interrupted_run. cbv zeta.
  destruct (vad_callback c) as [f |]; [destruct (f "interrupted") |];
    cbn [state_of trace_of fst snd].
  all: split; [apply flags_turn_step; [repeat split | right; reflexivity]
              | repeat constructor].
Qed.

Lemma on_interrupted_again_stable :
  stable (turn_step quiet) not_user_stopped on_interrupted_again.
Proof.
  intros c. rewrite on_interrupted_again_run. cbv zeta.
  destruct (vad_callback c) as [f |]; cbn [state_of trace_of fst snd].
  all: split; [apply flags_turn_step; [repeat split | right; reflexivity]
              | repeat constructor].
Qed.

Lemma model_turn_begin_stable :
  stable (turn_step quiet) (fun _ => True) model_turn_begin.
Proof.
  intros c. rewrite model_turn_begin_run.
  destruct (bot_speaking c); [split; [apply turn_step_refl | constructor] |].
  cbv zeta. destruct (vad_callback c) as [f |]; cbn [state_of trace_of fst snd].
  all: split; [apply flags_turn_step; [repeat split | left; reflexivity]
              | repeat constructor].
Qed.

End Quiet.

End GeminiSteps.
Module GeminiTurns.
Import Gemini GeminiFacts GeminiSteps.

Lemma any_call {A : Type} (R : client -> client -> Prop) (m : M client effect A) :
  stable R not_user_stopped m -> stable R (fun _ => True) m.
Proof. apply stable_weaken; auto. Qed.

Section Quiet.

Variable quiet : Prop.

Let Hrefl := turn_step_refl quiet.
Let Htrans := turn_step_trans quiet.

(** A block guarded by a flag of the server content. *)
Lemma guarded_stable (key : string) (server_content : json)
      (body : M client effect unit) :
  (quiet -> flag_set key server_content = Ok false) ->
  (~ quiet -> stable (turn_step quiet) not_user_stopped body) ->
  stable (turn_step quiet) not_user_stopped
         (bind (lift (flag_set key server_content))
               (fun b : bool => if b then body else ret tt)).
Proof.
  intros Hq Hbody c.
  destruct (flag_set key server_content) as [[|] | e] eqn:F.
  - rewrite bind_lift_ok. apply Hbody. intros q. specialize (Hq q). discriminate.
  - rewrite bind_lift_ok. apply (stable_ret _ _ Hrefl).
  - apply (stable_bind _ _ Htrans); [apply (stable_raise _ _ Hrefl) | ].
    intros []; [apply Hbody | apply (stable_ret _ _ Hrefl)].
    intros q. specialize (Hq q). discriminate.
Qed.

Variable server_content : json.
Hypothesis quiet_turn_complete : quiet -> flag_set "turnComplete" server_content = Ok false.
Hypothesis quiet_interrupted : quiet -> flag_set "interrupted" server_content = Ok false.

Lemma turn_complete_block_stable :
  stable (turn_step quiet) not_user_stopped (turn_complete_block server_content).
Proof.
  apply guarded_stable; [assumption |]. apply on_turn_complete_stable.
Qed.

Lemma interrupted_block_stable :
  stable (turn_step quiet) not_user_stopped (interrupted_block server_content).
Proof.
  apply guarded_stable; [assumption |]. apply on_interrupted_stable.
Qed.

Lemma interrupted_again_block_stable :
  stable (turn_step quiet) not_user_stopped (interrupted_again_block server_content).
Proof.
  apply guarded_stable; [assumption |]. apply on_interrupted_again_stable.
Qed.

Lemma after_begin_stable (data model_turn : json) :
  stable (turn_step quiet) not_user_stopped
         (after_begin data server_content model_turn).
Proof.
  unfold after_begin.
  apply (stable_bind _ _ Htrans); [| intros _; apply (stable_bind _ _ Htrans)].
  - apply (stable_bind _ _ Htrans); [apply (stable_lift _ _ Hrefl) | intros parts].
    apply (stable_bind _ _ Htrans); [apply (stable_lift _ _ Hrefl) | intros items].
    apply (stable_for_each _ _ Hrefl Htrans). intros part. apply handle_part_stable.
  - apply (stable_bind _ _ Htrans); [apply turn_complete_block_stable | intros _].
    apply (stable_bind _ _ Htrans); [apply interrupted_block_stable | intros _].
    apply interrupted_again_block_stable.
  - intros _. apply other_keys_stable.
Qed.

End Quiet.

Lemma no_quiet_step : ~ False.
Proof. intros []. Qed.

Lemma model_turn_block_stable (server_content : json) :
  stable (turn_step False) (fun _ => True) (model_turn_block server_content).
Proof.
  unfold model_turn_block.
  pose proof (turn_step_refl False) as Hrefl.
  pose proof (turn_step_trans False) as Htrans.
  apply (stable_bind _ _ Htrans); [apply (stable_lift _ _ Hrefl) |].
  intros [|]; [| apply (stable_ret _ _ Hrefl)].
  apply (stable_bind _ _ Htrans); [apply (stable_lift _ _ Hrefl) | intros model_turn].
  apply (stable_bind _ _ Htrans);
    [apply model_turn_begin_stable, no_quiet_step | intros _].
  apply (stable_bind _ _ Htrans); [apply (stable_lift _ _ Hrefl) | intros parts].
  apply (stable_bind _ _ Htrans); [apply (stable_lift _ _ Hrefl) | intros items].
  apply (stable_for_each _ _ Hrefl Htrans).
  intros part. apply any_call, handle_part_stable.
Qed.

Lemma dispatch_stable (data : json) :
  stable (turn_step False) (fun _ => True) (dispatch data).
Proof.
  unfold dispatch.
  pose proof (turn_step_refl False) as Hrefl.
  pose proof (turn_step_trans False) as Htrans.
  apply (stable_bind _ _ Htrans); [apply (stable_lift _ _ Hrefl) |].
  intros has_content.
  apply (stable_bind _ _ Htrans); [| intros _; apply any_call, other_keys_stable].
  destruct has_content; [| apply (stable_ret _ _ Hrefl)].
  apply (stable_bind _ _ Htrans); [apply (stable_lift _ _ Hrefl) | intros sc].
  apply (stable_bind _ _ Htrans); [apply model_turn_block_stable | intros _].
  apply (stable_bind _ _ Htrans);
    [apply any_call, turn_complete_block_stable; intros [] | intros _].
  apply (stable_bind _ _ Htrans);
    [apply any_call, interrupted_block_stable; intros [] | intros _].
  apply any_call, interrupted_again_block_stable; intros [].
Qed.

(** The handling of one message of the model keeps the callbacks and keeps
    exclusive flags exclusive, whatever the message is and whatever raises. *)
Lemma on_message_stable (message : frame) :
  stable (turn_step False) (fun _ => True) (on_message message).
Proof.
  unfold on_message.
  apply (stable_try_except _ _ (turn_step_trans False)).
  - apply (stable_bind _ _ (turn_step_trans False));
      [apply (stable_lift _ _ (turn_step_refl False)) | apply dispatch_stable].
  - intros e. apply any_call, on_error_stable.
Qed.

(** *** The other operations *)

Lemma send_audio_chunk_run (sent : option exn) (pcm_data : bytes) (c : client) :
  send_audio_chunk sent pcm_data c =
  if negb (connected c) || negb (ws c) then (Ok tt, c, [])
  else
    (Ok tt,
     (if user_speaking c then c else set_user_speaking true c),
     (if user_speaking c then [] else [Log DEBUG "User started speaking"])
     ++ [WsSend (realtime_input (AudioConverter.to_base64 pcm_data))]
     ++ match sent with
        | None => []
        | Some _ => [Log ERROR "Error sending audio to Gemini"]
        end).
Proof.
  unfold send_audio_chunk. unfold bind at 1. cbn [get].
  destruct (negb (connected c) || negb (ws c)); [reflexivity |].
  unfold try_except, bind, modify, log, tell, await, ret, raise.
  destruct (user_speaking c), sent; reflexivity.
Qed.

Lemma connect_flags (opened sent : option exn) (c : client) :
  user_speaking (state_of (connect opened sent c)) = user_speaking c /\
  bot_speaking (state_of (connect opened sent c)) = bot_speaking c.
Proof. destruct opened, sent; split; reflexivity. Qed.

Lemma close_flags (closed : option exn) (c : client) :
  user_speaking (state_of (close closed c)) = user_speaking c /\
  bot_speaking (state_of (close closed c)) = bot_speaking c.
Proof.
  destruct c as [[|] cn ac tc vc us bs], closed; split; reflexivity.
Qed.

End GeminiTurns.
Module GeminiRuns.
Import Gemini GeminiFacts GeminiSteps GeminiTurns.





(** The handling of a message that carries a model turn, from
    [model_turn_begin] on. *)
Lemma on_message_model_turn (members sc : list (string * json)) (turn : json)
      (c : client) :
  Py.lookup "serverContent" members = Some (JObject sc) ->
  Py.lookup "modelTurn" sc = Some turn ->
  on_message (Document (JObject members)) c =
  try_except
    (bind model_turn_begin
          (fun _ => after_begin (JObject members) (JObject sc) turn))
    on_error c.
Proof.
  intros H1 H2.
  assert (E : bind (lift (json_loads (Document (JObject members))))
                   (fun data => dispatch data) c =
              bind model_turn_begin
                   (fun _ => after_begin (JObject members) (JObject sc) turn) c);
    [| unfold on_message, try_except; rewrite E; reflexivity].
  cbn [json_loads]. rewrite bind_lift_ok.
  unfold dispatch. cbn [Py.contains Py.getitem]. rewrite H1, bind_lift_ok.
  rewrite bind_assoc, bind_lift_ok. rewrite bind_assoc.
  unfold model_turn_block. cbn [Py.contains Py.getitem]. rewrite H2.
  rewrite bind_assoc, bind_lift_ok.
  rewrite bind_assoc, bind_lift_ok.
  rewrite bind_assoc.
  unfold after_begin. reflexivity.
Qed.

End GeminiRuns.
(** C1, as stated, fails: a client that has connected, has seen a model turn
    and is then handed caller audio has both speaking flags up. *)
Lemma both_flags_up :
  ~ (forall c, Gemini.reachable c -> Gemini.exclusive c).
Proof.
  intros H.
  apply (H (Gemini.step (Gemini.SendAudioChunk None [x00; x00])
              (Gemini.step (Gemini.Receive Gemini.text_only_turn)
                 (Gemini.step (Gemini.Connect None None) Gemini.init)))).
  - repeat apply Gemini.reachable_step. apply Gemini.reachable_init.
  - reflexivity.
  - reflexivity.
Qed.

(** C1, amended. In every state reached by connecting, closing, registering
    callbacks, handling messages of the model, and calls of
    [send_audio_chunk] other than those made on a connected client while
    [bot_speaking] is up, at most one of [user_speaking] and [bot_speaking]
    is up. *)
Theorem turn_flags_exclusive (c : Gemini.client) :
  Gemini.reachable_in_turns c -> Gemini.exclusive c.
Proof.
  induction 1 as [| sent pcm_data c Hc IH Hbot | opened sent c Hc IH
                  | message c Hc IH | audio transcript vad c Hc IH
                  | closed c Hc IH].
  - intros Hu _. discriminate Hu.
  - intros Hu Hb. cbn [Gemini.step] in Hu, Hb.
    rewrite GeminiTurns.send_audio_chunk_run in Hu, Hb.
    unfold Gemini.barges_in in Hbot.
    destruct (Gemini.connected c), (Gemini.ws c), (Gemini.user_speaking c) eqn:U;
      cbn in Hu, Hb, Hbot; try congruence; exact (IH U Hb).
  - intros Hu Hb. cbn [Gemini.step] in Hu, Hb.
    destruct (GeminiTurns.connect_flags opened sent c) as [Eu Eb].
    rewrite Eu in Hu. rewrite Eb in Hb. exact (IH Hu Hb).
  - cbn [Gemini.step].
    destruct (GeminiTurns.on_message_stable message c) as [[_ [Hex _]] _].
    exact (Hex IH).
  - exact IH.
  - intros Hu Hb. cbn [Gemini.step] in Hu, Hb.
    destruct (GeminiTurns.close_flags closed c) as [Eu Eb].
    rewrite Eu in Hu. rewrite Eb in Hb. exact (IH Hu Hb).
Qed.

Lemma turn_flags_exclusive_witness :
  Gemini.barges_in (Gemini.step (Gemini.Connect None None) Gemini.init) = false /\
  Gemini.exclusive
    (Gemini.step (Gemini.Receive Gemini.interrupted_message)
       (Gemini.step (Gemini.Receive Gemini.text_only_turn)
          (Gemini.step (Gemini.SendAudioChunk None [x00; x00])
             (Gemini.step (Gemini.Connect None None) Gemini.init)))).
Proof.
  split; [reflexivity |].
  apply turn_flags_exclusive.
  apply Gemini.in_turns_receive, Gemini.in_turns_receive.
  apply Gemini.in_turns_send; [| reflexivity].
  apply Gemini.in_turns_connect, Gemini.in_turns_init.
Defined.

(** C5, as stated, fails: on a connected client with a VAD callback
    registered and [user_speaking] down, [send_audio_chunk] raises the flag
    and calls no callback at all. *)
Lemma no_user_started_event :
  Gemini.connected Gemini.listening = true /\
  Gemini.ws Gemini.listening = true /\
  Gemini.vad_callback Gemini.listening <> None /\
  Gemini.user_speaking Gemini.listening = false /\
  Gemini.user_speaking
    (state_of (Gemini.send_audio_chunk None [x00; x00] Gemini.listening)) = true /\
  existsb Gemini.is_callback
    (trace_of (Gemini.send_audio_chunk None [x00; x00] Gemini.listening)) = false.
Proof. repeat split; try reflexivity. discriminate. Qed.

(** C5, amended. A call of [send_audio_chunk] on a connected client leaves
    [user_speaking] up; it writes the debug line "User started speaking"
    exactly when [user_speaking] was down before the call, once, ahead of the
    audio message; it changes no other field and calls no callback. *)
Theorem send_audio_chunk_edge (c : Gemini.client) (sent : option exn)
                              (pcm_data : bytes) :
  Gemini.connected c = true -> Gemini.ws c = true ->
  let r := Gemini.send_audio_chunk sent pcm_data c in
  state_of r = (if Gemini.user_speaking c then c
                else Gemini.set_user_speaking true c) /\
  Gemini.user_speaking (state_of r) = true /\
  trace_of r =
    (if Gemini.user_speaking c then []
     else [Gemini.Log DEBUG "User started speaking"])
    ++ [Gemini.WsSend (Gemini.realtime_input (AudioConverter.to_base64 pcm_data))]
    ++ match sent with
       | None => []
       | Some _ => [Gemini.Log ERROR "Error sending audio to Gemini"]
       end /\
  existsb Gemini.is_callback (trace_of r) = false.
Proof.
  intros Hc Hw. cbv zeta. rewrite GeminiTurns.send_audio_chunk_run, Hc, Hw.
  cbn [negb orb state_of trace_of fst snd].
  destruct (Gemini.user_speaking c) eqn:U, sent; repeat split; assumption.
Qed.

Lemma send_audio_chunk_edge_witness :
  Gemini.connected Gemini.listening = true /\
  Gemini.ws Gemini.listening = true /\
  trace_of (Gemini.send_audio_chunk None [x00; x00] Gemini.listening) =
    [Gemini.Log DEBUG "User started speaking";
     Gemini.WsSend (Gemini.realtime_input "AAA=")].
Proof.
  split; [reflexivity |]. split; [reflexivity |].
  apply (send_audio_chunk_edge Gemini.listening None [x00; x00]); reflexivity.
Defined.



(** C4, as stated, fails: a model turn whose only part is text, without any
    inline data, raises [bot_speaking] and makes the client call the VAD
    callback with "user_stopped". *)
Lemma text_turn_starts_bot :
  existsb Gemini.carries_inline_data [JObject [("text", JString "Namaste")]] = false /\
  Gemini.bot_speaking Gemini.listening = false /\
  Gemini.bot_speaking
    (state_of (Gemini.on_message Gemini.text_only_turn Gemini.listening)) = true /\
  trace_of (Gemini.on_message Gemini.text_only_turn Gemini.listening) =
    [Gemini.Log INFO "Bot speaking (VAD: user stopped)";
     Gemini.VadCallback "user_stopped"].
Proof. repeat split. Qed.

(** C4, amended. It is the [modelTurn] key of a message, whatever its parts
    carry, that starts the bot's turn.  When [bot_speaking] is down, the
    handling of the message begins by logging the turn and calling the VAD
    callback, if one is registered, with "user_stopped", and makes no such
    call again; when [bot_speaking] is up already, no such call is made.
    Unless the same message sets [turnComplete] or [interrupted],
    [bot_speaking] is up afterwards, and [user_speaking] is down if the turn
    was started by this message. *)
Theorem model_turn_key_edge
        (c : Gemini.client) (members sc : list (string * json)) (turn : json) :
  Py.lookup "serverContent" members = Some (JObject sc) ->
  Py.lookup "modelTurn" sc = Some turn ->
  let r := Gemini.on_message (Document (JObject members)) c in
  let signal := match Gemini.vad_callback c with
                | Some _ => [Gemini.VadCallback "user_stopped"]
                | None => []
                end in
  (if Gemini.bot_speaking c
   then Forall Gemini.not_user_stopped (trace_of r)
   else exists rest,
       trace_of r =
         Gemini.Log INFO "Bot speaking (VAD: user stopped)" :: signal ++ rest /\
       Forall Gemini.not_user_stopped rest) /\
  (Gemini.flag_set "turnComplete" (JObject sc) = Ok false ->
   Gemini.flag_set "interrupted" (JObject sc) = Ok false ->
   Gemini.bot_speaking (state_of r) = true /\
   Gemini.user_speaking (state_of r) =
     (if Gemini.bot_speaking c then Gemini.user_speaking c else false)).
Proof.
  intros Hsc Hturn. cbv zeta.
  rewrite (GeminiRuns.on_message_model_turn members sc turn c Hsc Hturn).
  pose proof (GeminiFacts.model_turn_begin_run c) as Hbegin.
  set (quiet := Gemini.flag_set "turnComplete" (JObject sc) = Ok false /\
                Gemini.flag_set "interrupted" (JObject sc) = Ok false).
  assert (Htail : forall r0 : result unit,
    stable (Gemini.turn_step quiet) Gemini.not_user_stopped
      (match r0 with
       | Ok a => try_except
                   (Gemini.after_begin (JObject members) (JObject sc) turn)
                   Gemini.on_error
       | Raise e => Gemini.on_error e
       end)).
  { intros [a | e]; [| apply GeminiSteps.on_error_stable].
    apply (stable_try_except _ _ (GeminiFacts.turn_step_trans quiet));
      [| intros e; apply GeminiSteps.on_error_stable].
    apply GeminiTurns.after_begin_stable; intros [Q1 Q2]; assumption. }
  destruct (Gemini.bot_speaking c) eqn:B.
  - rewrite (GeminiSteps.try_bind_run _ _ _ _ _ _ _ Hbegin).
    cbn [state_of trace_of fst snd app].
    destruct (Htail (Ok tt) c) as [[_ [_ Hq]] Htrace].
    split; [exact Htrace |]. intros Q1 Q2. rewrite (Hq (conj Q1 Q2)).
    split; [exact B | reflexivity].
  - cbv zeta in Hbegin.
    destruct (Gemini.vad_callback c) as [f |].
    + rewrite (GeminiSteps.try_bind_run _ _ _ _ _ _ _ Hbegin).
      cbn [state_of trace_of fst snd app].
      match goal with
      | |- context [trace_of (?tail ?c0)] =>
          destruct (Htail (match f "user_stopped" with
                           | None => Ok tt
                           | Some e => Raise e
                           end) c0) as [[_ [_ Hq]] Htrace]
      end.
      split; [eexists; split; [reflexivity | exact Htrace] |].
      intros Q1 Q2. rewrite (Hq (conj Q1 Q2)). split; reflexivity.
    + rewrite (GeminiSteps.try_bind_run _ _ _ _ _ _ _ Hbegin).
      cbn [state_of trace_of fst snd app].
      match goal with
      | |- context [trace_of (?tail ?c0)] =>
          destruct (Htail (Ok tt) c0) as [[_ [_ Hq]] Htrace]
      end.
      split; [eexists; split; [reflexivity | exact Htrace] |].
      intros Q1 Q2. rewrite (Hq (conj Q1 Q2)). split; reflexivity.
Qed.

Lemma model_turn_key_edge_witness :
  Gemini.bot_speaking
    (state_of (Gemini.on_message Gemini.text_only_turn Gemini.listening)) = true /\
  Gemini.user_speaking
    (state_of (Gemini.on_message Gemini.text_only_turn Gemini.listening)) = false.
Proof.
  apply (model_turn_key_edge Gemini.listening
           [("serverContent", JObject [
              ("modelTurn", JObject [
                 ("parts", JArray [JObject [("text", JString "Namaste")]])])])]
           [("modelTurn", JObject [
               ("parts", JArray [JObject [("text", JString "Namaste")]])])]
           (JObject [("parts", JArray [JObject [("text", JString "Namaste")]])]));
    reflexivity.
Defined.

(** ** The rest of audio/converter.py *)

Module SampleFacts.
Import Audioop.
Local Open Scope Z_scope.

Lemma to_N_byte_of_N (n : N) : Byte.to_N (byte_of_N n) = (n mod 256)%N.
Proof.
  unfold byte_of_N.
  destruct (Byte.of_N (n mod 256)) as [b |] eqn:E.
  - now apply Byte.to_of_N.
  - apply Byte.of_N_None_iff in E.
    pose proof (N.mod_upper_bound n 256). lia.
Qed.

Lemma GETINT16_range lo hi : -32768 <= GETINT16 lo hi <= 32767.
Proof.
  unfold GETINT16.
  pose proof (Byte.to_N_bounded lo). pose proof (Byte.to_N_bounded hi).
  destruct (Z.ltb_spec (Z.of_N (Byte.to_N lo) + 256 * Z.of_N (Byte.to_N hi)) 32768);
    lia.
Qed.

(** A sample in range, stored by [SETINT16], reads back. *)
Lemma stored_in_range (v : Z) (rest : bytes) :
  -32768 <= v <= 32767 ->
  samples (SETINT16 v ++ rest) = v :: samples rest.
Proof.
  intros Hv. unfold SETINT16. cbn [app samples]. f_equal.
  unfold GETINT16. rewrite !to_N_byte_of_N.
  assert (Hu : 0 <= v mod 65536 < 65536) by (apply Z.mod_pos_bound; lia).
  set (u := v mod 65536) in *.
  assert (Hlo : Z.of_N (Z.to_N (u mod 256) mod 256) = u mod 256).
  { rewrite N2Z.inj_mod, Z2N.id by (apply Z.mod_pos_bound; lia).
    apply Z.mod_small. cbn. apply Z.mod_pos_bound. lia. }
  assert (Hhi : Z.of_N (Z.to_N (u / 256) mod 256) = u / 256).
  { assert (0 <= u / 256 < 256)
      by (split; [apply Z.div_pos; lia | apply Z.div_lt_upper_bound; lia]).
    rewrite N2Z.inj_mod, Z2N.id by lia. apply Z.mod_small. cbn. lia. }
  rewrite Hlo, Hhi.
  assert (Hsum : u mod 256 + 256 * (u / 256) = u)
    by (pose proof (Z.div_mod u 256); lia).
  rewrite Hsum.
  destruct (Z.ltb_spec u 32768) as [Hs | Hs]; subst u.
  - destruct (Z.le_gt_cases 0 v) as [Hp | Hn].
    + apply Z.mod_small. lia.
    + rewrite <- (Z.mod_add v 1 65536) in Hs by lia.
      rewrite Z.mod_small in Hs by lia. lia.
  - destruct (Z.le_gt_cases 0 v) as [Hp | Hn].
    + rewrite Z.mod_small in Hs by lia. lia.
    + rewrite <- (Z.mod_add v 1 65536) by lia.
      rewrite Z.mod_small by lia. lia.
Qed.

Lemma samples_ulaw2lin (ulaw : bytes) :
  samples (flat_map (fun uc => SETINT16 (decode_sample uc)) ulaw)
  = map decode_sample ulaw.
Proof.
  induction ulaw as [| uc rest IH]; [reflexivity |].
  cbn [flat_map map]. rewrite AudioopFacts.stored_sample, IH. reflexivity.
Qed.

Lemma lin2ulaw_frames_samples (pcm : bytes) :
  lin2ulaw_frames pcm = map encode_sample (samples pcm).
Proof.
  induction pcm as [| lo | lo hi rest IH] using list_ind2; try reflexivity.
  cbn [lin2ulaw_frames samples map]. now rewrite IH.
Qed.

Lemma samples_range (pcm : bytes) :
  Forall (fun v => -32768 <= v <= 32767) (samples pcm).
Proof.
  induction pcm as [| lo | lo hi rest IH] using list_ind2; try constructor.
  - apply GETINT16_range.
  - exact IH.
Qed.

Lemma samples_length (pcm : bytes) :
  List.length (samples pcm) = Nat.div (List.length pcm) 2.
Proof.
  induction pcm as [| lo | lo hi rest IH] using list_ind2; try reflexivity.
  cbn [samples List.length]. rewrite IH.
  change (S (S (List.length rest))) with (1 * 2 + List.length rest)%nat.
  rewrite Nat.div_add_l by discriminate. reflexivity.
Qed.

Lemma decode_sample_range (uc : byte) : -32768 <= decode_sample uc <= 32767.
Proof.
  assert (H : ((-32768 <=? decode_sample uc) && (decode_sample uc <=? 32767)) = true).
  { revert uc. apply check1_spec. vm_compute. reflexivity. }
  apply andb_prop in H. destruct H as [H1 H2].
  apply Z.leb_le in H1. apply Z.leb_le in H2. lia.
Qed.

End SampleFacts.

Module RatecvFacts.
Import Audioop Ratecv Resampler SampleFacts.
Local Open Scope Z_scope.

Lemma shifted_back (s : Z) : Z.shiftr (s * 65536) 16 = s.
Proof. rewrite Z.shiftr_div_pow2 by lia. now rewrite Z.div_mul. Qed.

(** The filter with the default weights passes the sample through. *)
Lemma filtered (s prev_i : Z) :
  Z.quot (weightA * Z.shiftl s 16 + weightB * prev_i) (weightA + weightB)
  = s * 65536.
Proof.
  unfold weightA, weightB. rewrite Z.shiftl_mul_pow2 by lia.
  change (2 ^ 16) with 65536. change (1 + 0) with 1.
  replace (1 * (s * 65536) + 0 * prev_i) with (s * 65536) by ring.
  apply Z.quot_1_r.
Qed.

Lemma interpolate_at_0 (prev_i cur_i outrate : Z) :
  outrate <> 0 -> interpolate prev_i cur_i 0 outrate = cur_i.
Proof.
  intros H. unfold interpolate.
  replace (prev_i * 0 + cur_i * (outrate - 0)) with (cur_i * outrate) by ring.
  now apply Z.quot_mul.
Qed.

Lemma interpolate_half (a b : Z) :
  Z.shiftr (interpolate (a * 65536) (b * 65536) 1 2) 16 = (a + b) / 2.
Proof.
  unfold interpolate.
  replace (a * 65536 * 1 + b * 65536 * (2 - 1)) with ((a + b) * 32768 * 2) by ring.
  rewrite Z.quot_mul by lia.
  rewrite Z.shiftr_div_pow2 by lia.
  change (2 ^ 16) with (2 * 32768).
  now rewrite Z.div_mul_cancel_r by lia.
Qed.

Lemma mean_range (a b : Z) :
  -32768 <= a <= 32767 -> -32768 <= b <= 32767 ->
  -32768 <= (a + b) / 2 <= 32767.
Proof.
  intros Ha Hb. split.
  - apply Z.div_le_lower_bound; lia.
  - apply Z.div_le_upper_bound; lia.
Qed.

(** *** 8000 Hz to 16000 Hz *)

Lemma emit_doubling (prev_i cur_i : Z) :
  emit_frames (Z.to_nat (1 / 1) + 1) 1 2 prev_i cur_i 1 =
  (SETINT16 (Z.shiftr (interpolate prev_i cur_i 1 2) 16)
   ++ SETINT16 (Z.shiftr (interpolate prev_i cur_i 0 2) 16) ++ [], -1).
Proof. reflexivity. Qed.

Lemma feed_doubling (pcm : bytes) :
  forall prev_i c, -32768 <= c <= 32767 ->
  samples (feed_frames pcm 1 2 prev_i (c * 65536) (-1))
  = interleave_from c (samples pcm).
Proof.
  induction pcm as [| lo | lo hi rest IH] using list_ind2; intros prev_i c Hc;
    try reflexivity.
  cbn [feed_frames]. rewrite filtered.
  change (-1 + 2) with 1. change (1 <? 0) with false. cbn iota.
  rewrite emit_doubling.
  rewrite interpolate_half, interpolate_at_0 by lia. rewrite shifted_back.
  pose proof (GETINT16_range lo hi) as Hs.
  rewrite app_nil_r, <- app_assoc.
  rewrite stored_in_range by (now apply mean_range).
  rewrite stored_in_range by assumption.
  cbn [samples interleave_from]. now rewrite IH.
Qed.

Lemma emit_first (prev_i cur_i : Z) :
  emit_frames (Z.to_nat (0 / 1) + 1) 1 2 prev_i cur_i 0 =
  (SETINT16 (Z.shiftr (interpolate prev_i cur_i 0 2) 16) ++ [], -1).
Proof. reflexivity. Qed.

Lemma doubled_samples (pcm : bytes) :
  samples (feed_frames pcm 1 2 0 0 (-2)) = interleave (samples pcm).
Proof.
  destruct pcm as [| lo [| hi rest]]; try reflexivity.
  cbn [feed_frames]. rewrite filtered.
  change (-2 + 2) with 0. change (0 <? 0) with false. cbn iota.
  rewrite emit_first, interpolate_at_0 by lia. rewrite shifted_back, app_nil_r.
  pose proof (GETINT16_range lo hi) as Hs.
  rewrite stored_in_range by assumption.
  cbn [samples interleave]. now rewrite feed_doubling.
Qed.

(** *** 24000 Hz to 8000 Hz *)

Lemma emit_third (prev_i cur_i : Z) :
  emit_frames (Z.to_nat (0 / 3) + 1) 3 1 prev_i cur_i 0 =
  (SETINT16 (Z.shiftr (interpolate prev_i cur_i 0 1) 16) ++ [], -3).
Proof. reflexivity. Qed.

Lemma feed_thirds (pcm : bytes) :
  forall prev_i cur_i (skip : nat), (skip <= 2)%nat ->
  samples (feed_frames pcm 3 1 prev_i cur_i (- Z.of_nat skip - 1))
  = pick skip (samples pcm).
Proof.
  induction pcm as [| lo | lo hi rest IH] using list_ind2;
    intros prev_i cur_i skip Hskip; try reflexivity.
  cbn [feed_frames samples pick]. rewrite filtered.
  destruct skip as [| k].
  - change (- Z.of_nat 0 - 1 + 1) with 0. change (0 <? 0) with false. cbn iota.
    rewrite emit_third, interpolate_at_0 by lia. rewrite shifted_back, app_nil_r.
    rewrite stored_in_range by apply GETINT16_range.
    f_equal. apply (IH _ _ 2%nat). lia.
  - replace (- Z.of_nat (S k) - 1 + 1) with (- Z.of_nat k - 1) by lia.
    destruct (Z.ltb_spec (- Z.of_nat k - 1) 0); [| lia].
    apply IH. lia.
Qed.

Lemma pick_length (samples : list Z) :
  forall skip : nat, (skip <= 2)%nat ->
  List.length (pick skip samples) = Nat.div (List.length samples + 2 - skip) 3.
Proof.
  induction samples as [| s rest IH]; intros skip Hskip.
  - cbn [pick List.length].
    destruct skip as [| [| [| k]]]; reflexivity.
  - cbn [pick List.length]. destruct skip as [| k].
    + cbn [List.length]. rewrite (IH 2%nat) by lia.
      replace (S (List.length rest) + 2 - 0)%nat
        with (1 * 3 + (List.length rest + 2 - 2))%nat by lia.
      now rewrite Nat.div_add_l by discriminate.
    + rewrite IH by lia. reflexivity.
Qed.

(** *** The frames written are whole *)

Lemma emit_frames_even fuel inrate outrate prev_i cur_i d :
  Nat.even (List.length (fst (emit_frames fuel inrate outrate prev_i cur_i d)))
  = true.
Proof.
  revert d. induction fuel as [| fuel IH]; intros d; cbn [emit_frames].
  - reflexivity.
  - destruct (0 <=? d); [| reflexivity].
    specialize (IH (d - inrate)).
    destruct (emit_frames fuel inrate outrate prev_i cur_i (d - inrate)) as [out d'].
    cbn [fst] in *. unfold SETINT16. cbn [app List.length]. exact IH.
Qed.

Lemma feed_frames_even (pcm : bytes) :
  forall inrate outrate prev_i cur_i d,
  Nat.even (List.length (feed_frames pcm inrate outrate prev_i cur_i d)) = true.
Proof.
  induction pcm as [| lo | lo hi rest IH] using list_ind2;
    intros inrate outrate prev_i cur_i d; try reflexivity.
  cbn [feed_frames].
  destruct (d + outrate <? 0); [apply IH |].
  match goal with
  | |- context [emit_frames ?f ?i ?o ?p ?c ?x] =>
      pose proof (emit_frames_even f i o p c x) as He;
      destruct (emit_frames f i o p c x) as [out d'']
  end.
  cbn [fst] in He. rewrite length_app, Nat.even_add, He, IH. reflexivity.
Qed.

Lemma samples_even_length (pcm : bytes) :
  Nat.even (List.length pcm) = true ->
  List.length pcm = (2 * List.length (samples pcm))%nat.
Proof.
  induction pcm as [| lo | lo hi rest IH] using list_ind2; intros E.
  - reflexivity.
  - discriminate.
  - change (Nat.even (S (S (List.length rest)))) with (Nat.even (List.length rest)) in E.
    cbn [samples List.length]. specialize (IH E). lia.
Qed.

Lemma interleave_from_length (prev : Z) (samples : list Z) :
  List.length (interleave_from prev samples) = (2 * List.length samples)%nat.
Proof.
  revert prev. induction samples as [| s rest IH]; intros prev; [reflexivity |].
  cbn [interleave_from List.length]. rewrite IH. lia.
Qed.

Lemma ulaw2lin_length (ulaw : bytes) :
  List.length (flat_map (fun uc => SETINT16 (decode_sample uc)) ulaw)
  = (2 * List.length ulaw)%nat.
Proof.
  induction ulaw as [| uc rest IH]; [reflexivity |].
  cbn [flat_map]. rewrite length_app, IH. unfold SETINT16. cbn [List.length]. lia.
Qed.

Lemma reencoded (uc : byte) : encode_sample (decode_sample uc) = canonical uc.
Proof.
  apply Byte.byte_dec_bl. revert uc.
  apply (check1_spec (fun uc => Byte.eqb (encode_sample (decode_sample uc)) (canonical uc))).
  vm_compute. reflexivity.
Qed.


(** *** The fuel of the loop that writes *)

Lemma emit_frames_exits (fuel : nat) (inrate outrate prev_i cur_i : Z) :
  0 < inrate ->
  forall d, d < Z.of_nat fuel * inrate ->
  snd (emit_frames fuel inrate outrate prev_i cur_i d) < 0.
Proof.
  intros Hin. induction fuel as [| fuel IH]; intros d Hd.
  - cbn in *. lia.
  - cbn [emit_frames]. destruct (Z.leb_spec 0 d); [| cbn; lia].
    specialize (IH (d - inrate)).
    destruct (emit_frames fuel inrate outrate prev_i cur_i (d - inrate))
      as [out d'].
    cbn [snd] in *. apply IH. lia.
Qed.

(** The loop that writes is left with [d < 0], as the loop that reads
    expects: the fuel [feed_frames] gives is enough. *)
Lemma emit_frames_fuel (inrate outrate prev_i cur_i d : Z) :
  0 < inrate -> 0 <= d ->
  snd (emit_frames (Z.to_nat (d / inrate) + 1) inrate outrate prev_i cur_i d) < 0.
Proof.
  intros Hin Hd. apply emit_frames_exits; [exact Hin |].
  rewrite Nat2Z.inj_add, Z2Nat.id by (apply Z.div_pos; lia).
  pose proof (Z.mod_pos_bound d inrate Hin) as Hm.
  pose proof (Z.div_mod d inrate) as Hdm. change (Z.of_nat 1) with 1. nia.
Qed.

(** *** The two conversions of the pipeline *)

Lemma smartflo_to_gemini_total (ulaw_data : bytes) :
  exists pcm_16k,
    Resampler.smartflo_to_gemini ulaw_data = Ok pcm_16k /\
    List.length pcm_16k = (2 * (2 * List.length ulaw_data - 1))%nat.
Proof.
  unfold Resampler.smartflo_to_gemini, AudioConverter.ulaw_to_pcm16,
    Audioop.ulaw2lin, Resampler.resample.
  change (8000 =? 16000)%Z with false. cbn iota.
  unfold Ratecv.ratecv.
  change (negb (Ratecv.c_int 8000 && Ratecv.c_int 16000)) with false. cbn iota.
  rewrite ulaw2lin_length.
  rewrite Nat.mul_comm, Nat.Div0.mod_mul. cbn [Nat.eqb negb].
  change ((8000 <=? 0)%Z || (16000 <=? 0)%Z) with false. cbn iota.
  change (Z.gcd 8000 16000) with 8000%Z. cbv zeta.
  change (8000 / 8000)%Z with 1%Z. change (16000 / 8000)%Z with 2%Z.
  change (- (2))%Z with (-2)%Z.
  eexists. split; [reflexivity |].
  rewrite (samples_even_length _ (feed_frames_even _ _ _ _ _ _)).
  rewrite doubled_samples, SampleFacts.samples_ulaw2lin.
  destruct ulaw_data as [| uc rest]; [reflexivity |].
  cbn [map Resampler.interleave List.length].
  rewrite interleave_from_length, length_map. lia.
Qed.

Lemma gemini_to_smartflo_run (pcm_data : bytes) :
  Resampler.gemini_to_smartflo pcm_data 24000 =
    (if Nat.even (List.length pcm_data)
     then Ok (map Audioop.encode_sample
                  (Resampler.pick 0 (Audioop.samples pcm_data)))
     else Raise InvalidFrameLength).
Proof.
  unfold Resampler.gemini_to_smartflo, Resampler.resample.
  change (24000 =? 8000)%Z with false. cbn iota.
  unfold Ratecv.ratecv.
  change (negb (Ratecv.c_int 24000 && Ratecv.c_int 8000)) with false. cbn iota.
  rewrite AudioopFacts.even_length_mod2.
  destruct (Nat.even (List.length pcm_data)); cbn [negb]; [| reflexivity].
  change ((24000 <=? 0)%Z || (8000 <=? 0)%Z) with false. cbn iota.
  change (Z.gcd 24000 8000) with 8000%Z. cbv zeta.
  change (24000 / 8000)%Z with 3%Z. change (8000 / 8000)%Z with 1%Z.
  unfold AudioConverter.pcm16_to_ulaw, Audioop.lin2ulaw.
  rewrite AudioopFacts.even_length_mod2, feed_frames_even.
  rewrite SampleFacts.lin2ulaw_frames_samples.
  change (- (1))%Z with (- Z.of_nat 0 - 1)%Z.
  rewrite feed_thirds by lia. reflexivity.
Qed.

End RatecvFacts.

(** X1. [ulaw_to_pcm16] never fails: it returns two octets for every code
    word, the 16-bit samples being the expansions of the code words. *)
Theorem ulaw_to_pcm16_doubles (ulaw_data : bytes) :
  exists pcm,
    AudioConverter.ulaw_to_pcm16 ulaw_data = Ok pcm /\
    List.length pcm = 2 * List.length ulaw_data /\
    Audioop.samples pcm = map Audioop.decode_sample ulaw_data.
Proof.
  eexists. split; [reflexivity |]. split.
  - apply RatecvFacts.ulaw2lin_length.
  - apply SampleFacts.samples_ulaw2lin.
Qed.

(** X2. Encoding what [ulaw_to_pcm16] decoded gives the code words back,
    but for the code word of negative zero ([0x7f]), which comes back as the
    one of positive zero ([0xff]). *)
Theorem ulaw_reencodes (ulaw_data : bytes) :
  match AudioConverter.ulaw_to_pcm16 ulaw_data with
  | Ok pcm =>
      AudioConverter.pcm16_to_ulaw pcm = Ok (map Resampler.canonical ulaw_data)
  | Raise _ => False
  end.
Proof.
  unfold AudioConverter.ulaw_to_pcm16, Audioop.ulaw2lin.
  unfold AudioConverter.pcm16_to_ulaw, Audioop.lin2ulaw.
  rewrite RatecvFacts.ulaw2lin_length.
  rewrite Nat.mul_comm, Nat.Div0.mod_mul. cbn [Nat.eqb].
  rewrite SampleFacts.lin2ulaw_frames_samples, SampleFacts.samples_ulaw2lin.
  rewrite map_map. f_equal. apply map_ext. intros uc. apply RatecvFacts.reencoded.
Qed.

(** X3. [resample] with equal rates returns its input, whatever the buffer
    and the rates are, also a buffer that is no whole number of samples.
    With different rates it returns a result only for a buffer of even
    length and two rates from 1 to [INT_MAX]; of the failures,
    [OverflowError] comes first, for a rate that is no C [int], then the
    frame-length error, for a buffer of odd length, then the error of a rate
    that is not positive. *)
Theorem resample_failures (audio_data : bytes) (from_rate to_rate : Z) :
  Resampler.resample audio_data from_rate from_rate = Ok audio_data /\
  match Resampler.resample audio_data from_rate to_rate with
  | Ok _ =>
      from_rate = to_rate \/
      (Nat.even (List.length audio_data) = true /\
       (0 < from_rate <= Ratecv.INT_MAX)%Z /\
       (0 < to_rate <= Ratecv.INT_MAX)%Z)
  | Raise e =>
      from_rate <> to_rate /\
      if Ratecv.c_int from_rate && Ratecv.c_int to_rate then
        if Nat.even (List.length audio_data) then
          e = OtherError "sampling rate not > 0" /\
          ((from_rate <= 0)%Z \/ (to_rate <= 0)%Z)
        else e = InvalidFrameLength
      else e = OtherError "OverflowError"
  end.
Proof.
  unfold Resampler.resample. split; [now rewrite Z.eqb_refl |].
  destruct (Z.eqb_spec from_rate to_rate) as [E | E]; [now left |].
  unfold Ratecv.ratecv. rewrite AudioopFacts.even_length_mod2.
  destruct (Ratecv.c_int from_rate && Ratecv.c_int to_rate) eqn:C;
    cbn [negb]; [| now split].
  apply andb_prop in C. destruct C as [Cf Ct].
  unfold Ratecv.c_int in Cf, Ct.
  apply andb_prop in Cf. destruct Cf as [_ Cf]. apply Z.leb_le in Cf.
  apply andb_prop in Ct. destruct Ct as [_ Ct]. apply Z.leb_le in Ct.
  destruct (Nat.even (List.length audio_data)) eqn:Ev; cbn [negb];
    [| now split].
  destruct (Z.leb_spec from_rate 0), (Z.leb_spec to_rate 0); cbn [orb];
    try (split; [exact E | split; [reflexivity | lia]]).
  right. repeat split; lia.
Qed.

(** X4. [smartflo_to_gemini] never fails.  Its output holds every decoded
    sample and, between two neighbours, their mean rounded down: [2n - 1]
    samples for [n] code words, none for none. *)
Theorem smartflo_to_gemini_interpolates (ulaw_data : bytes) :
  exists pcm_16k,
    Resampler.smartflo_to_gemini ulaw_data = Ok pcm_16k /\
    Audioop.samples pcm_16k
      = Resampler.interleave (map Audioop.decode_sample ulaw_data) /\
    List.length pcm_16k = 2 * (2 * List.length ulaw_data - 1).
Proof.
  unfold Resampler.smartflo_to_gemini, AudioConverter.ulaw_to_pcm16,
    Audioop.ulaw2lin, Resampler.resample.
  change (8000 =? 16000)%Z with false. cbn iota.
  unfold Ratecv.ratecv.
  change (negb (Ratecv.c_int 8000 && Ratecv.c_int 16000)) with false. cbn iota.
  rewrite RatecvFacts.ulaw2lin_length.
  rewrite Nat.mul_comm, Nat.Div0.mod_mul. cbn [Nat.eqb negb].
  change ((8000 <=? 0)%Z || (16000 <=? 0)%Z) with false. cbn iota.
  change (Z.gcd 8000 16000) with 8000%Z. cbv zeta.
  change (8000 / 8000)%Z with 1%Z. change (16000 / 8000)%Z with 2%Z.
  change (- (2))%Z with (-2)%Z.
  eexists. split; [reflexivity |].
  assert (Hs : Audioop.samples
                 (Ratecv.feed_frames
                    (flat_map (fun uc => Audioop.SETINT16 (Audioop.decode_sample uc))
                              ulaw_data) 1 2 0 0 (-2))
               = Resampler.interleave (map Audioop.decode_sample ulaw_data)).
  { rewrite RatecvFacts.doubled_samples, SampleFacts.samples_ulaw2lin. reflexivity. }
  split; [exact Hs |].
  rewrite (RatecvFacts.samples_even_length _ (RatecvFacts.feed_frames_even _ _ _ _ _ _)).
  rewrite Hs. destruct ulaw_data as [| uc rest]; [reflexivity |].
  cbn [map Resampler.interleave List.length].
  rewrite RatecvFacts.interleave_from_length, length_map. lia.
Qed.

(** X5. [gemini_to_smartflo] at 24000 Hz fails on a buffer of odd length and
    otherwise returns the code words of every third sample, the first one
    included: the number of samples divided by three, rounded up. *)
Theorem gemini_to_smartflo_decimates (pcm_data : bytes) :
  Resampler.gemini_to_smartflo pcm_data 24000 =
    (if Nat.even (List.length pcm_data)
     then Ok (map Audioop.encode_sample
                  (Resampler.pick 0 (Audioop.samples pcm_data)))
     else Raise InvalidFrameLength) /\
  List.length (Resampler.pick 0 (Audioop.samples pcm_data))
    = Nat.div (Nat.div (List.length pcm_data) 2 + 2) 3.
Proof.
  split.
  - apply RatecvFacts.gemini_to_smartflo_run.
  - rewrite RatecvFacts.pick_length by lia.
    rewrite SampleFacts.samples_length. f_equal. lia.
Qed.

(** ** Stepping through computations *)

(** Proves [stable R T m] for a computation built from the operations of the
    monad; [Hrefl] and [Htrans] make [R] a preorder, [side] settles what a
    single call or assignment has to satisfy. *)
Ltac steps Hrefl Htrans side :=
  repeat first
    [ apply (stable_ret _ _ Hrefl)
    | apply (stable_raise _ _ Hrefl)
    | apply (stable_lift _ _ Hrefl)
    | apply (stable_get _ _ Hrefl)
    | apply (stable_tell _ _ Hrefl); side
    | apply (stable_await _ _ Hrefl Htrans); side
    | apply (stable_modify _ _); side
    | apply (stable_bind _ _ Htrans); [| intros ?]
    | apply (stable_try_except _ _ Htrans); [| intros ?]
    | apply (stable_for_each _ _ Hrefl Htrans); intros ?
    | match goal with
      | |- stable _ _ (if ?b then _ else _) => destruct b
      | |- stable _ _ (match ?x with _ => _ end) => destruct x
      end ].

Section Guarded.

Context {S E : Type}.

(** A computation whose handler always returns does not raise. *)
Lemma try_except_returns {A : Type} (m : M S E A) (h : exn -> M S E A) (s : S) :
  (forall e s', exists a, result_of (h e s') = Ok a) ->
  exists a, result_of (try_except m h s) = Ok a.
Proof.
  intros Hh. unfold try_except.
  destruct (m s) as [[[a | e] s1] t1]; [now exists a |].
  destruct (Hh e s1) as [a Ha].
  destruct (h e s1) as [[r s2] t2]. cbn in *. now exists a.
Qed.

Lemma try_lift_ok {A B : Type} (a : A) (k : A -> M S E B) (h : exn -> M S E B) s :
  try_except (bind (lift (Ok a)) k) h s = try_except (k a) h s.
Proof.
  unfold try_except, bind, lift, ret.
  destruct (k a s) as [[[b | e] s1] t1]; reflexivity.
Qed.

Lemma lift_ok_bind {A B : Type} (a : A) (k : A -> M S E B) s :
  bind (lift (Ok a)) k s = k a s.
Proof. unfold bind, lift, ret. destruct (k a s) as [[r s2] t2]. reflexivity. Qed.

(** What a guarded computation returns when neither it nor its handler
    returns [forbidden]. *)
Lemma try_except_avoids {A : Type} (forbidden : A)
      (m : M S E A) (h : exn -> M S E A) (s : S) :
  (forall s', result_of (m s') <> Ok forbidden) ->
  (forall e s', result_of (h e s') <> Ok forbidden) ->
  result_of (try_except m h s) <> Ok forbidden.
Proof.
  intros Hm Hh. unfold try_except. specialize (Hm s).
  destruct (m s) as [[[a | e] s1] t1]; [exact Hm |].
  specialize (Hh e s1). destruct (h e s1) as [[r s2] t2]. exact Hh.
Qed.

Lemma bind_ret_avoids {A B : Type} (b forbidden : B) (m : M S E A) (s : S) :
  b <> forbidden ->
  result_of (bind m (fun _ => ret b) s) <> Ok forbidden.
Proof.
  intros Hb. unfold bind, ret.
  destruct (m s) as [[[a | e] s1] t1]; cbn; congruence.
Qed.

End Guarded.

(** ** The rest of smartflo/session.py *)

Module SmartfloSteps.
Import Smartflo SmartfloNotions.

Lemma wiring_refl s : wiring s s.
Proof. repeat split. Qed.

Lemma wiring_trans s1 s2 s3 : wiring s1 s2 -> wiring s2 s3 -> wiring s1 s3.
Proof.
  intros [A1 [B1 [C1 [D1 [E1 F1]]]]] [A2 [B2 [C2 [D2 [E2 F2]]]]].
  repeat split; congruence.
Qed.

Lemma steady_refl s : steady s s.
Proof. repeat split. Qed.

Lemma steady_trans s1 s2 s3 : steady s1 s2 -> steady s2 s3 -> steady s1 s3.
Proof.
  intros [W1 C1] [W2 C2].
  split; [eapply wiring_trans; eassumption | congruence].
Qed.

Ltac fields := first [exact I | intros; repeat split].

(** No message touches the wiring of the session or the socket. *)
Lemma handle_message_wiring (message : frame) :
  stable wiring off_socket (handle_message message).
Proof.
  unfold handle_message.
  steps wiring_refl wiring_trans fields.
Qed.

Lemma on_error_steady (e : exn) : stable steady silent (on_error e).
Proof. unfold on_error, log. steps steady_refl steady_trans fields. Qed.

(** A message that is no [media] event leaves the count of chunks received
    alone and does not call the audio callback. *)
Lemma other_events_steady (message : frame) (s : session) :
  (exists members,
      message = Document (JObject members) /\
      Py.lookup "event" members = Some (JString "media")) \/
  (steady s (state_of (handle_message message s)) /\
   Forall silent (trace_of (handle_message message s))).
Proof.
  destruct message as [text | data].
  - right. split; [apply steady_refl | repeat constructor].
  - change (handle_message (Document data))
      with (try_except
              (bind (lift (json_loads (Document data)))
                    (fun data =>
                       bind (lift (Py.get data "event" JNull))
                            (fun event_type =>
                               if Py.eq_str event_type "connected" then
                                 bind (_handle_connected data) (fun _ => ret false)
                               else if Py.eq_str event_type "start" then
                                 bind (_handle_start data) (fun _ => ret false)
                               else if Py.eq_str event_type "media" then
                                 bind (_handle_media data) (fun _ => ret false)
                               else if Py.eq_str event_type "stop" then
                                 bind (_handle_stop data) (fun _ => ret true)
                               else ret false)))
              on_error).
    cbn [json_loads]. rewrite (@try_lift_ok session effect json bool).
    destruct data as [| b | n | m e | str | items | members];
      try solve [right; apply (stable_try_except _ _ steady_trans);
                 [steps steady_refl steady_trans fields | apply on_error_steady]].
    cbn [Py.get]. rewrite (@try_lift_ok session effect json bool).
    destruct (Py.lookup "event" members) as [ev |] eqn:Hev.
    2:{ right. cbn [Py.eq_str].
        apply (stable_try_except _ _ steady_trans);
          [steps steady_refl steady_trans fields | apply on_error_steady]. }
    destruct (Py.eq_str ev "media") eqn:Hm.
    + left. exists members. split; [reflexivity |].
      destruct ev; try discriminate Hm. cbn in Hm.
      apply String.eqb_eq in Hm. now subst.
    + right. destruct (Py.eq_str ev "connected"), (Py.eq_str ev "start"),
        (Py.eq_str ev "stop");
        (apply (stable_try_except _ _ steady_trans);
         [unfold _handle_connected, _handle_start, _handle_stop, log;
          steps steady_refl steady_trans fields
         | apply on_error_steady]).
Qed.

Lemma handle_message_returns (message : frame) (s : session) :
  exists stop, result_of (handle_message message s) = Ok stop.
Proof.
  unfold handle_message. apply try_except_returns.
  intros e s'. destruct e; eexists; reflexivity.
Qed.

Lemma handle_message_malformed (text : string) (s : session) :
  handle_message (Malformed text) s
  = (Ok false, s, [Log ERROR "Invalid JSON from Smartflo"]).
Proof. reflexivity. Qed.

(** A document that is no object has no method [get]. *)
Lemma handle_message_other (data : json) (s : session) :
  is_object data = false ->
  handle_message (Document data) s
  = (Ok false, s, [Log ERROR "Error processing Smartflo event"]).
Proof. destruct data; intros H; try discriminate H; reflexivity. Qed.

(** The loop body on a message that parses to an object. *)
Lemma handle_message_object (members : list (string * json)) (s : session) :
  handle_message (Document (JObject members)) s
  = try_except (route (field "event" members) (JObject members)) on_error s.
Proof.
  change (handle_message (Document (JObject members)))
    with (try_except
            (bind (lift (Ok (JObject members)))
                  (fun data =>
                     bind (lift (Py.get data "event" JNull))
                          (fun event_type => route event_type data)))
            on_error).
  rewrite (@try_lift_ok session effect json bool). cbn [Py.get].
  change (match Py.lookup "event" members with Some x => x | None => JNull end)
    with (field "event" members).
  now rewrite (@try_lift_ok session effect json bool).
Qed.

Lemma delivered_app (t1 t2 : list effect) :
  delivered (t1 ++ t2) = delivered t1 ++ delivered t2.
Proof.
  induction t1 as [| e t1 IH]; [reflexivity |].
  destruct e; cbn [app delivered]; now rewrite IH.
Qed.

Lemma silent_delivers_nothing (t : list effect) :
  Forall silent t -> delivered t = [].
Proof.
  induction 1 as [| e t He _ IH]; [reflexivity |].
  destruct e; cbn [delivered]; try exact IH. destruct He.
Qed.

(** The count of chunks received goes up by one per call of the audio
    callback when one is registered, and by one at most per message. *)
Lemma handle_message_counts (message : frame) (s : session) :
  audio_chunks_received s
    <= audio_chunks_received (state_of (handle_message message s))
    <= S (audio_chunks_received s) /\
  List.length (delivered (trace_of (handle_message message s))) <= 1 /\
  (on_audio_callback s <> None ->
   audio_chunks_received (state_of (handle_message message s))
   = audio_chunks_received s
     + List.length (delivered (trace_of (handle_message message s)))).
Proof.
  destruct (other_events_steady message s) as [[members [-> Hev]] | [[_ Hr] Ht]].
  - rewrite (MediaFacts.handle_message_media members s Hev).
    rewrite MediaFacts.handle_media_run.
    destruct (payload_of (JObject members)) as [p | e];
      [| cbn; repeat split; lia].
    destruct (Py.truthy p); [| cbn; repeat split; lia].
    destruct (Py.b64decode p) as [data | e]; [| cbn; repeat split; lia].
    cbv zeta. destruct (on_audio_callback s) as [f |].
    + destruct (f data); cbn; repeat split; lia.
    + cbn. repeat split; try lia. intros H. now contradiction H.
  - rewrite Hr, (silent_delivers_nothing _ Ht). cbn. repeat split; lia.
Qed.

(** The loop of [handle_events], by induction on the messages read. *)
Lemma event_loop_facts (messages : list frame) (failure : option exn) :
  forall s,
    wiring s (state_of (event_loop messages failure s)) /\
    Forall off_socket (trace_of (event_loop messages failure s)) /\
    audio_chunks_received s
      <= audio_chunks_received (state_of (event_loop messages failure s))
      <= audio_chunks_received s + List.length messages /\
    (on_audio_callback s <> None ->
     audio_chunks_received (state_of (event_loop messages failure s))
     = audio_chunks_received s
       + List.length (delivered (trace_of (event_loop messages failure s)))).
Proof.
  induction messages as [| message rest IH]; intros s.
  - destruct failure; cbn; repeat split; try constructor; lia.
  - cbn [event_loop]. unfold bind.
    destruct (handle_message_wiring message s) as [Hw Ht].
    destruct (handle_message_counts message s) as [Hc [_ Hd]].
    destruct (handle_message message s) as [[[stop | e] s1] t1];
      cbn [state_of trace_of fst snd] in *.
    + destruct stop.
      * cbn. rewrite app_nil_r. repeat split; try apply Hw; try assumption; lia.
      * destruct (IH s1) as [Hw' [Ht' [Hc' Hd']]].
        destruct (event_loop rest failure s1) as [[r s2] t2];
          cbn [state_of trace_of fst snd List.length] in *.
        split; [eapply wiring_trans; eassumption |].
        split; [apply Forall_app; now split |].
        split; [lia |].
        intros Hcb. rewrite delivered_app, length_app.
        rewrite Hd' by (destruct Hw as [_ [-> _]]; exact Hcb).
        rewrite (Hd Hcb). lia.
    + cbn [List.length]. repeat split; try apply Hw; try assumption; lia.
Qed.

Lemma handle_stop_run (members : list (string * json)) (s : session) :
  _handle_stop (JObject members) s =
  if is_object (stop_of members) then
    match on_stop_callback s with
    | None => (Ok tt, s, [Log INFO "Call ended"])
    | Some f =>
        (match f tt with None => Ok tt | Some e => Raise e end,
         s, [Log INFO "Call ended"; OnStop])
    end
  else (Raise AttributeError, s, []).
Proof.
  unfold _handle_stop. cbn [Py.get].
  change (match Py.lookup "stop" members with Some x => x | None => JObject [] end)
    with (stop_of members).
  rewrite lift_ok_bind.
  destruct (stop_of members); try reflexivity.
  cbn [Py.get is_object]. rewrite lift_ok_bind.
  unfold bind, log, tell, get, await.
  destruct (on_stop_callback s) as [f |]; [| reflexivity].
  unfold bind, tell. destruct (f tt); reflexivity.
Qed.

Lemma route_stop (ev : json) (members : list (string * json)) :
  Py.eq_str ev "stop" = true ->
  route ev (JObject members)
  = bind (_handle_stop (JObject members)) (fun _ => ret true).
Proof.
  destruct ev; try discriminate. cbn [Py.eq_str]. intros H.
  apply String.eqb_eq in H. subst. reflexivity.
Qed.

(** Only the branch of the [stop] event reaches the [break]. *)
Lemma route_goes_on (ev data : json) (s : session) :
  Py.eq_str ev "stop" = false ->
  result_of (route ev data s) <> Ok true.
Proof.
  intros H. unfold route. rewrite H.
  destruct (Py.eq_str ev "connected"); [now apply bind_ret_avoids |].
  destruct (Py.eq_str ev "start"); [now apply bind_ret_avoids |].
  destruct (Py.eq_str ev "media"); [now apply bind_ret_avoids |].
  discriminate.
Qed.

Lemma on_error_goes_on (e : exn) (s : session) :
  result_of (on_error e s) <> Ok true.
Proof. destruct e; discriminate. Qed.

Lemma breaks_loop_spec (members : list (string * json)) (s : session) :
  result_of (handle_message (Document (JObject members)) s) = Ok true
  <-> breaks_loop members s = true.
Proof.
  rewrite handle_message_object. unfold breaks_loop.
  destruct (Py.eq_str (field "event" members) "stop") eqn:Hev.
  - rewrite (route_stop _ _ Hev). unfold try_except, bind.
    rewrite handle_stop_run. unfold returns.
    destruct (is_object (stop_of members)); [| split; discriminate].
    destruct (on_stop_callback s) as [f |]; [| split; reflexivity].
    destruct (f tt) as [e |]; [| split; reflexivity].
    split; [| discriminate]. destruct e; discriminate.
  - cbn [andb]. split; [| discriminate]. intros H. exfalso. revert H.
    apply try_except_avoids.
    + intros s'. now apply route_goes_on.
    + apply on_error_goes_on.
Qed.

End SmartfloSteps.
Module SmartfloEvents.
Import Smartflo SmartfloNotions SmartfloSteps.






Lemma route_start (ev : json) (members : list (string * json)) :
  Py.eq_str ev "start" = true ->
  route ev (JObject members)
  = bind (_handle_start (JObject members)) (fun _ => ret false).
Proof.
  destruct ev; try discriminate. cbn [Py.eq_str]. intros H.
  apply String.eqb_eq in H. subst. reflexivity.
Qed.

(** [_handle_start] on a message whose [start] member is an object, or that
    has none. *)
Lemma handle_start_run (members start_data : list (string * json)) (s : session) :
  start_of members = JObject start_data ->
  _handle_start (JObject members) s =
  let s' := set_call_sid (field "callSid" start_data)
              (set_stream_sid (chosen_sid members start_data) s) in
  match on_start_callback s with
  | None => (Ok tt, s', [Log INFO "Call started"; Log INFO "From -> To"])
  | Some f =>
      (match f tt with None => Ok tt | Some e => Raise e end,
       s', [Log INFO "Call started"; Log INFO "From -> To"; OnStart])
  end.
Proof.
  intros H. unfold _handle_start. cbn [Py.get].
  change (match Py.lookup "start" members with Some x => x | None => JObject [] end)
    with (start_of members).
  rewrite H, lift_ok_bind.
  change (match Py.lookup "streamSid" members with Some x => x | None => JNull end)
    with (field "streamSid" members).
  rewrite lift_ok_bind. unfold chosen_sid. cbn [Py.get].
  change (match Py.lookup "streamSid" start_data with Some x => x | None => JNull end)
    with (field "streamSid" start_data).
  change (match Py.lookup "callSid" start_data with Some x => x | None => JNull end)
    with (field "callSid" start_data).
  cbv zeta.
  destruct (Py.truthy (field "streamSid" members));
    unfold bind, lift, ret, modify, log, tell, get, await; cbn;
    (destruct (on_start_callback s) as [f |]; [| reflexivity]);
    unfold bind, tell; destruct (f tt); reflexivity.
Qed.

(** [_handle_start] on a message whose [start] member is no object: the
    first [get] on it raises. *)
Lemma handle_start_fails (members : list (string * json)) (s : session) :
  is_object (start_of members) = false ->
  _handle_start (JObject members) s =
  (Raise AttributeError,
   (if Py.truthy (field "streamSid" members)
    then set_stream_sid (field "streamSid" members) s else s),
   []).
Proof.
  intros H. unfold _handle_start. cbn [Py.get].
  change (match Py.lookup "start" members with Some x => x | None => JObject [] end)
    with (start_of members).
  rewrite lift_ok_bind.
  change (match Py.lookup "streamSid" members with Some x => x | None => JNull end)
    with (field "streamSid" members).
  rewrite lift_ok_bind.
  destruct (start_of members); try discriminate H;
    destruct (Py.truthy (field "streamSid" members)); reflexivity.
Qed.

Lemma field_found (key : string) (members : list (string * json)) (v : json) :
  Py.lookup key members = Some v -> field key members = v.
Proof. unfold field. now intros ->. Qed.

(** [close], case by case. *)
Lemma close_run (closed : option exn) (s : session) :
  close closed s =
  if connected s then
    (Ok tt, set_connected false s,
     WsClose
     :: match closed with
        | None => []
        | Some _ => [Log DEBUG "Error closing websocket"]
        end
     ++ [Log INFO "Closed Smartflo WebSocket"])
  else (Ok tt, s, []).
Proof.
  unfold close. unfold bind at 1. cbn [get].
  destruct (connected s); [| reflexivity]. destruct closed; reflexivity.
Qed.

Lemma payload_truthy (data : bytes) :
  Py.truthy (JString (string_of_list_byte (Base64.b64encode data)))
  = match data with [] => false | _ => true end.
Proof.
  destruct data as [| b1 [| b2 [| b3 rest]]]; try reflexivity.
Qed.

(** [handle_events] in terms of its loop. *)
Lemma handle_events_run (messages : list frame) (failure : option exn) (s : session) :
  handle_events messages failure s =
  (Ok tt,
   set_connected false (state_of (event_loop messages failure s)),
   trace_of (event_loop messages failure s)
   ++ match result_of (event_loop messages failure s) with
      | Ok _ => []
      | Raise _ => [Log ERROR "Error in Smartflo event loop"]
      end
   ++ [Log INFO "Session stats"]).
Proof.
  unfold handle_events, bind, try_except.
  destruct (event_loop messages failure s) as [[[[] | e] s1] t1];
    cbn; rewrite ?app_nil_r, <- ?app_assoc; reflexivity.
Qed.

End SmartfloEvents.
(** X6. The handling of one message of the telephony side lets no failure
    of class [Exception] out, whatever the message is and whichever such
    failure a callback raises: it returns.  The body itself assigns none of
    the connection flag, the callbacks, the count of chunks sent and the
    start time, makes no call on the socket, calls the audio callback once at
    most and moves the count of chunks received by one at most. *)
Theorem handle_message_contained (message : frame) (s : Smartflo.session) :
  (exists stop, result_of (Smartflo.handle_message message s) = Ok stop) /\
  SmartfloNotions.wiring s (state_of (Smartflo.handle_message message s)) /\
  Forall SmartfloNotions.off_socket (trace_of (Smartflo.handle_message message s)) /\
  Smartflo.audio_chunks_received s
    <= Smartflo.audio_chunks_received (state_of (Smartflo.handle_message message s))
    <= S (Smartflo.audio_chunks_received s) /\
  List.length (SmartfloNotions.delivered
                 (trace_of (Smartflo.handle_message message s))) <= 1.
Proof.
  split; [apply SmartfloSteps.handle_message_returns |].
  destruct (SmartfloSteps.handle_message_wiring message s) as [Hw Ht].
  destruct (SmartfloSteps.handle_message_counts message s) as [Hc [Hd _]].
  split; [exact Hw | split; [exact Ht | split; [exact Hc | exact Hd]]].
Qed.

(** The loop and its frame, in a run of [handle_events] by itself. *)
Lemma handle_events_facts
        (messages : list frame) (failure : option exn) (s : Smartflo.session) :
  result_of (Smartflo.handle_events messages failure s) = Ok tt /\
  SmartfloNotions.wiring (Smartflo.set_connected false s)
    (state_of (Smartflo.handle_events messages failure s)) /\
  Forall SmartfloNotions.off_socket
    (trace_of (Smartflo.handle_events messages failure s)) /\
  Smartflo.audio_chunks_received s
    <= Smartflo.audio_chunks_received
         (state_of (Smartflo.handle_events messages failure s))
    <= Smartflo.audio_chunks_received s + List.length messages /\
  List.length (SmartfloNotions.delivered
                 (trace_of (Smartflo.handle_events messages failure s)))
  = match Smartflo.on_audio_callback s with
    | Some _ =>
        Smartflo.audio_chunks_received
          (state_of (Smartflo.handle_events messages failure s))
        - Smartflo.audio_chunks_received s
    | None => 0
    end.
Proof.
  destruct (SmartfloSteps.event_loop_facts messages failure s)
    as [Hw [Ht [Hc Hd]]].
  assert (Hnone : Smartflo.on_audio_callback s = None ->
                  SmartfloNotions.delivered
                    (trace_of (Smartflo.event_loop messages failure s)) = []).
  { clear Hw Ht Hc Hd. revert s.
    induction messages as [| message rest IH]; intros s Hs.
    - destruct failure; reflexivity.
    - cbn [Smartflo.event_loop]. unfold bind.
      destruct (SmartfloSteps.handle_message_wiring message s) as [Hw _].
      destruct (SmartfloSteps.other_events_steady message s)
        as [[members [-> Hev]] | [_ Hsil]].
      + rewrite (MediaFacts.handle_message_media members s Hev) in *.
        rewrite MediaFacts.handle_media_run in *. rewrite Hs in *.
        destruct (Smartflo.payload_of (JObject members)) as [p | e].
        * destruct (Py.truthy p);
            [destruct (Py.b64decode p) |];
            cbn [state_of trace_of fst snd] in *;
            (specialize (IH _ (eq_trans (proj1 (proj2 Hw)) Hs));
             match goal with
             | |- context [Smartflo.event_loop rest failure ?x] =>
                 destruct (Smartflo.event_loop rest failure x) as [[r s2] t2]
             end; cbn in *; exact IH).
        * cbn [state_of trace_of fst snd] in *.
          specialize (IH _ (eq_trans (proj1 (proj2 Hw)) Hs)).
          destruct (Smartflo.event_loop rest failure s) as [[r s2] t2].
          cbn in *. exact IH.
      + apply SmartfloSteps.silent_delivers_nothing in Hsil.
        destruct (Smartflo.handle_message message s) as [[[stop | e] s1] t1];
          cbn [state_of trace_of fst snd] in *; [| exact Hsil].
        destruct stop.
        * cbn. now rewrite app_nil_r.
        * specialize (IH _ (eq_trans (proj1 (proj2 Hw)) Hs)).
          destruct (Smartflo.event_loop rest failure s1) as [[r s2] t2].
          cbn [state_of trace_of fst snd] in *.
          now rewrite SmartfloSteps.delivered_app, Hsil, IH. }
  unfold Smartflo.handle_events, bind, try_except.
  destruct (Smartflo.event_loop messages failure s) as [[[[] | e] s1] t1];
    cbn [state_of trace_of fst snd] in *;
    unfold Smartflo.log, modify, tell; cbn [state_of trace_of result_of fst snd].
  all: (split; [reflexivity |]).
  all: (split; [destruct Hw as [A [B [C [D [E F]]]]]; repeat split; assumption |]).
  all: (split; [repeat (apply Forall_app; split); try assumption;
                repeat constructor |]).
  all: (split; [cbn; lia |]).
  all: rewrite ?SmartfloSteps.delivered_app, ?length_app; cbn [SmartfloNotions.delivered List.length Smartflo.audio_chunks_received Smartflo.set_connected].
  all: destruct (Smartflo.on_audio_callback s) as [f |];
    [rewrite Hd by discriminate; lia | rewrite (Hnone eq_refl); reflexivity].
Qed.


(** X7. [handle_events] lets no failure of class [Exception] out,
    whatever the messages are and whether the stream of messages ends by
    itself or with such a failure: it returns, with the connection flag
    lowered and without any call on the socket.  In the loop the count of
    chunks received goes up by one per message at most, and the audio
    callback is called at most once for each time the count goes up. *)
Theorem handle_events_always_returns
        (messages : list frame) (failure : option exn) (s : Smartflo.session) :
  result_of (Smartflo.handle_events messages failure s) = Ok tt /\
  Smartflo.connected (state_of (Smartflo.handle_events messages failure s)) = false /\
  Forall SmartfloNotions.off_socket
    (trace_of (Smartflo.handle_events messages failure s)) /\
  Smartflo.audio_chunks_received s
    <= Smartflo.audio_chunks_received
         (state_of (Smartflo.handle_events messages failure s))
    <= Smartflo.audio_chunks_received s + List.length messages /\
  List.length (SmartfloNotions.delivered
                 (trace_of (Smartflo.handle_events messages failure s)))
  <= Smartflo.audio_chunks_received
       (state_of (Smartflo.handle_events messages failure s))
     - Smartflo.audio_chunks_received s.
Proof.
  destruct (handle_events_facts messages failure s)
    as [Hr [[Hc _] [Ht [Hn Hd]]]].
  split; [exact Hr |]. split; [exact Hc |]. split; [exact Ht |].
  split; [exact Hn |].
  rewrite Hd. destruct (Smartflo.on_audio_callback s); lia.
Qed.

(** X8. The loop of [handle_events] ends at a message exactly when the
    message is a [stop] event whose [stop] member, if it has one, is an
    object, and whose callback, if one is registered, returns.  What follows
    such a message is never read, the failure that may end the stream
    included; from any other message the loop goes on with the rest, from
    the fields that message left. *)
Theorem stop_event_breaks_loop
        (message : frame) (rest : list frame) (failure : option exn)
        (s : Smartflo.session) :
  result_of (Smartflo.handle_message message s)
  = Ok (SmartfloNotions.stops message s) /\
  Smartflo.handle_events (message :: rest) failure s
  = if SmartfloNotions.stops message s then
      Smartflo.handle_events [message] None s
    else
      (Ok tt,
       state_of (Smartflo.handle_events rest failure
                   (state_of (Smartflo.handle_message message s))),
       trace_of (Smartflo.handle_message message s)
       ++ trace_of (Smartflo.handle_events rest failure
                      (state_of (Smartflo.handle_message message s)))).
Proof.
  assert (H : result_of (Smartflo.handle_message message s)
              = Ok (SmartfloNotions.stops message s)).
  { destruct message as [text | data]; [reflexivity |].
    destruct data;
      try (rewrite SmartfloSteps.handle_message_other by reflexivity;
           reflexivity).
    cbn [SmartfloNotions.stops].
    destruct (SmartfloSteps.handle_message_returns (Document (JObject members)) s)
      as [stop Hstop].
    pose proof (SmartfloSteps.breaks_loop_spec members s) as [Hto Hfrom].
    destruct (SmartfloNotions.breaks_loop members s).
    - now apply Hfrom.
    - rewrite Hstop. destruct stop; [| reflexivity].
      specialize (Hto Hstop). discriminate Hto. }
  split; [exact H |].
  rewrite !SmartfloEvents.handle_events_run. cbn [Smartflo.event_loop].
  destruct (Smartflo.handle_message message s) as [[[stop | e] s1] t1] eqn:Hm;
    cbn [result_of state_of trace_of fst snd] in *; [| discriminate H].
  injection H as <-. rewrite !(bind_ok _ _ _ _ _ _ Hm).
  destruct stop; [reflexivity |].
  cbn [result_of state_of trace_of fst snd].
  now rewrite <- app_assoc.
Qed.

(** X9. A [start] event whose [start] member is an object, or that has
    none, sets the stream identifier to the one at the top of the message
    when that is not empty and to the one of the [start] member otherwise,
    sets the call identifier to the one of the [start] member ([None] when
    there is none), writes two lines to the log and calls the start callback
    when one is registered; an exception of the callback is logged, as
    invalid JSON when it is a [JSONDecodeError], and the loop goes on. *)
Theorem start_event_sets_identifiers
        (members start_data : list (string * json)) (s : Smartflo.session) :
  Py.lookup "event" members = Some (JString "start") ->
  SmartfloNotions.start_of members = JObject start_data ->
  Smartflo.handle_message (Document (JObject members)) s =
    (Ok false,
     Smartflo.set_call_sid (SmartfloNotions.field "callSid" start_data)
       (Smartflo.set_stream_sid
          (SmartfloNotions.chosen_sid members start_data) s),
     [Smartflo.Log INFO "Call started"; Smartflo.Log INFO "From -> To"]
     ++ SmartfloNotions.callback_calls Smartflo.OnStart
          (Smartflo.on_start_callback s)).
Proof.
  intros Hev Hstart. rewrite SmartfloSteps.handle_message_object.
  rewrite (SmartfloEvents.field_found _ _ _ Hev).
  rewrite SmartfloEvents.route_start by reflexivity.
  unfold try_except, bind.
  rewrite (SmartfloEvents.handle_start_run members start_data s Hstart).
  cbv zeta. unfold SmartfloNotions.callback_calls.
  destruct (Smartflo.on_start_callback s) as [f |]; [| reflexivity].
  destruct (f tt) as [e |]; [| reflexivity]. destruct e; reflexivity.
Qed.

Lemma start_event_sets_identifiers_witness :
  Smartflo.streaming
    (state_of
       (Smartflo.handle_message
          (Document (JObject [("event", JString "start");
                              ("start", JObject [("streamSid", JString "MZ1");
                                                 ("callSid", JString "CA1")])]))
          (Smartflo.set_connected true Smartflo.init)))
  = true.
Proof.
  rewrite (start_event_sets_identifiers
             [("event", JString "start");
              ("start", JObject [("streamSid", JString "MZ1");
                                 ("callSid", JString "CA1")])]
             [("streamSid", JString "MZ1"); ("callSid", JString "CA1")]
             (Smartflo.set_connected true Smartflo.init)
             eq_refl eq_refl).
  reflexivity.
Defined.

(** X10. A [start] event whose [start] member is no object is handled in
    part: the stream identifier is set when the message has a non-empty one
    at its top, the call identifier stays as it was, the start callback is
    not called, one error line is logged and the loop goes on. *)
Theorem start_event_without_object
        (members : list (string * json)) (s : Smartflo.session) :
  Py.lookup "event" members = Some (JString "start") ->
  SmartfloNotions.is_object (SmartfloNotions.start_of members) = false ->
  Smartflo.handle_message (Document (JObject members)) s =
    (Ok false,
     (if Py.truthy (SmartfloNotions.field "streamSid" members)
      then Smartflo.set_stream_sid (SmartfloNotions.field "streamSid" members) s
      else s),
     [Smartflo.Log ERROR "Error processing Smartflo event"]).
Proof.
  intros Hev Hstart. rewrite SmartfloSteps.handle_message_object.
  rewrite (SmartfloEvents.field_found _ _ _ Hev).
  rewrite SmartfloEvents.route_start by reflexivity.
  unfold try_except, bind.
  rewrite (SmartfloEvents.handle_start_fails members s Hstart). reflexivity.
Qed.

Lemma start_event_without_object_witness :
  Smartflo.handle_message
    (Document (JObject [("event", JString "start");
                        ("streamSid", JString "MZ1");
                        ("start", JString "CA1")]))
    Smartflo.init
  = (Ok false, Smartflo.set_stream_sid (JString "MZ1") Smartflo.init,
     [Smartflo.Log ERROR "Error processing Smartflo event"]).
Proof.
  exact (start_event_without_object
           [("event", JString "start"); ("streamSid", JString "MZ1");
            ("start", JString "CA1")]
           Smartflo.init eq_refl eq_refl).
Defined.



(** X12. [close] lets no failure of class [Exception] out, whichever such
    failure closing the socket raises: it returns and leaves the session
    disconnected.  It calls the socket exactly when the session was
    connected, so that a second [close] does nothing at all, and neither does
    [send_audio] after it. *)
Theorem close_is_idempotent
        (closed again written : option exn) (ulaw_data : bytes)
        (s : Smartflo.session) :
  result_of (Smartflo.close closed s) = Ok tt /\
  state_of (Smartflo.close closed s)
  = (if Smartflo.connected s then Smartflo.set_connected false s else s) /\
  Smartflo.connected (state_of (Smartflo.close closed s)) = false /\
  hd_error (trace_of (Smartflo.close closed s))
  = (if Smartflo.connected s then Some Smartflo.WsClose else None) /\
  Smartflo.close again (state_of (Smartflo.close closed s))
  = (Ok tt, state_of (Smartflo.close closed s), []) /\
  Smartflo.send_audio written ulaw_data (state_of (Smartflo.close closed s))
  = (Ok tt, state_of (Smartflo.close closed s), []).
Proof.
  rewrite SmartfloEvents.close_run.
  destruct (Smartflo.connected s) eqn:Hc; cbn [result_of state_of trace_of fst snd].
  - repeat split.
  - repeat split; try assumption.
    all: try (rewrite SmartfloEvents.close_run, Hc; reflexivity).
    all: rewrite SmartfloFacts.send_audio_not_streaming; [reflexivity |].
    all: unfold Smartflo.streaming; now rewrite Hc.
Qed.

(** X13. What [send_audio] of one session writes, the loop of
    [handle_events] of another reads back: the message is a [media] event
    that raises the count of chunks received by one and hands the buffer,
    padded to whole frames, to the audio callback.  The empty buffer is the
    exception: its message has an empty payload and is passed over. *)
Theorem media_message_loopback
        (written : option exn) (ulaw_data : bytes) (s peer : Smartflo.session) :
  Smartflo.streaming s = true ->
  exists message rest,
    trace_of (Smartflo.send_audio written ulaw_data s)
    = Smartflo.WsSendText message :: rest /\
    Smartflo.handle_message (Document message) peer =
      match ulaw_data with
      | [] => (Ok false, peer, [])
      | _ =>
          (Ok false,
           Smartflo.set_audio_chunks_received
             (Smartflo.audio_chunks_received peer + 1) peer,
           match Smartflo.on_audio_callback peer with
           | None => []
           | Some f =>
               Smartflo.OnAudio (Smartflo.pad_to_frame ulaw_data)
               :: match f (Smartflo.pad_to_frame ulaw_data) with
                  | None => []
                  | Some _ => [Smartflo.Log ERROR "Error processing media"]
                  end
           end)
      end.
Proof.
  intros Hs. rewrite (SmartfloFacts.send_audio_streaming s written ulaw_data Hs).
  eexists. eexists. split; [reflexivity |].
  unfold Smartflo.media_message.
  rewrite MediaFacts.handle_message_media by reflexivity.
  rewrite MediaFacts.handle_media_run.
  match goal with
  | |- context [Smartflo.payload_of ?m] =>
      change (Smartflo.payload_of m)
        with (Ok (JString (string_of_list_byte
                             (Base64.b64encode (Smartflo.pad_to_frame ulaw_data)))))
  end.
  cbv beta iota.
  rewrite SmartfloEvents.payload_truthy. cbn [Py.b64decode].
  rewrite Base64Facts.b64decode_b64encode. cbv zeta.
  destruct ulaw_data as [| b rest]; [reflexivity |].
  destruct (Smartflo.pad_to_frame (b :: rest)) as [| b' rest'] eqn:Hp.
  - exfalso. destruct (SmartfloFacts.pad_to_frame_spec (b :: rest)) as [n [Hn _]].
    rewrite Hp in Hn. discriminate Hn.
  - destruct (Smartflo.on_audio_callback peer) as [f |]; [| reflexivity].
    destruct (f (b' :: rest')); reflexivity.
Qed.

Lemma media_message_loopback_witness :
  exists message rest,
    trace_of (Smartflo.send_audio None [x00; xff] SmartfloNotions.in_call)
    = Smartflo.WsSendText message :: rest /\
    Smartflo.handle_message (Document message) Smartflo.init
    = (Ok false,
       Smartflo.set_audio_chunks_received
         (Smartflo.audio_chunks_received Smartflo.init + 1) Smartflo.init,
       []).
Proof.
  exact (media_message_loopback None [x00; xff] SmartfloNotions.in_call
           Smartflo.init eq_refl).
Defined.
(** ** Runs from fields that satisfy an invariant *)

Section From.

Context {S E : Type}.
Variable P : S -> Prop.
Variable R : S -> S -> Prop.
Variable T : E -> Prop.
Hypothesis R_refl : forall s, R s s.
Hypothesis R_trans : forall s1 s2 s3, R s1 s2 -> R s2 s3 -> R s1 s3.
Hypothesis P_kept : forall s s', P s -> R s s' -> P s'.

Lemma from_stable {A : Type} (m : M S E A) : stable R T m -> stable_from P R T m.
Proof. intros H s _. apply H. Qed.

Lemma stable_from_bind {A B : Type} (m : M S E A) (k : A -> M S E B) :
  stable_from P R T m -> (forall a, stable_from P R T (k a)) ->
  stable_from P R T (bind m k).
Proof.
  intros Hm Hk s Ps. unfold bind. destruct (Hm s Ps) as [H1 H2].
  destruct (m s) as [[[a | e] s1] t1]; cbn [state_of trace_of fst snd] in *;
    [| now split].
  destruct (Hk a s1 (P_kept _ _ Ps H1)) as [H3 H4].
  destruct (k a s1) as [[r s2] t2]. cbn [state_of trace_of fst snd] in *.
  split; [eapply R_trans; eassumption | apply Forall_app; now split].
Qed.

Lemma stable_from_try_except {A : Type} (m : M S E A) (h : exn -> M S E A) :
  stable_from P R T m -> (forall e, stable_from P R T (h e)) ->
  stable_from P R T (try_except m h).
Proof.
  intros Hm Hh s Ps. unfold try_except. destruct (Hm s Ps) as [H1 H2].
  destruct (m s) as [[[a | e] s1] t1]; cbn [state_of trace_of fst snd] in *;
    [now split |].
  destruct (Hh e s1 (P_kept _ _ Ps H1)) as [H3 H4].
  destruct (h e s1) as [[r s2] t2]. cbn [state_of trace_of fst snd] in *.
  split; [eapply R_trans; eassumption | apply Forall_app; now split].
Qed.

Lemma stable_from_for_each {X : Type} (l : list X) (body : X -> M S E unit) :
  (forall x, stable_from P R T (body x)) ->
  stable_from P R T (for_each l body).
Proof.
  intros Hb. induction l as [| x rest IH]; cbn [for_each].
  - apply from_stable, stable_ret, R_refl.
  - apply stable_from_bind; [apply Hb | intros _; exact IH].
Qed.

(** Reading the fields: what follows may rely on [P] for what was read. *)
Lemma stable_from_get {A : Type} (k : S -> M S E A) :
  (forall s0, P s0 -> stable_from P R T (k s0)) ->
  stable_from P R T (bind get k).
Proof.
  intros Hk s Ps. specialize (Hk s Ps s Ps).
  unfold bind, get. destruct (k s s) as [[r s2] t2]. exact Hk.
Qed.

End From.

(** ** The rest of gemini_live/client.py *)

Module GeminiCalls.
Import Gemini GeminiNotions GeminiShapes GeminiFacts.

Lemma link_refl c : link c c.
Proof. repeat split. Qed.

Lemma link_trans c1 c2 c3 : link c1 c2 -> link c2 c3 -> link c1 c3.
Proof.
  intros [A1 [B1 [C1 [D1 E1]]]] [A2 [B2 [C2 [D2 E2]]]].
  repeat split; congruence.
Qed.

Lemma wired_kept c0 c c' : same_callbacks c0 c -> link c c' -> same_callbacks c0 c'.
Proof.
  intros [A1 [B1 C1]] [_ [_ [A2 [B2 C2]]]]. repeat split; congruence.
Qed.

Ltac kept := first [exact I | intros; repeat split].

Section Registered.

Variable c0 : client.

Let P := same_callbacks c0.
Let T := registered_call c0.

Ltac quiet_steps :=
  apply (from_stable P); steps link_refl link_trans kept.

Ltac from_bind :=
  apply (stable_from_bind P link T link_trans (wired_kept c0)).

Lemma call_vad_from (event : string) : stable_from P link T (call_vad event).
Proof.
  intros c [_ [_ Hv]]. rewrite call_vad_run.
  destruct (vad_callback c) as [f |] eqn:F; cbn [state_of trace_of fst snd].
  - split; [apply link_refl |]. repeat constructor. cbn. congruence.
  - split; [apply link_refl | constructor].
Qed.

Lemma model_turn_begin_from : stable_from P link T model_turn_begin.
Proof.
  intros c [_ [_ Hv]]. rewrite model_turn_begin_run.
  destruct (bot_speaking c); [split; [apply link_refl | constructor] |].
  cbv zeta. destruct (vad_callback c) as [f |] eqn:F;
    cbn [state_of trace_of fst snd].
  - split; [repeat split |]. repeat constructor. cbn. congruence.
  - split; [repeat split |]. repeat constructor.
Qed.

Lemma handle_part_from (part : json) : stable_from P link T (handle_part part).
Proof.
  unfold handle_part.
  from_bind; [quiet_steps | intros has_inline].
  from_bind.
  - destruct has_inline; [| quiet_steps].
    from_bind; [quiet_steps | intros inline_data].
    from_bind; [quiet_steps | intros mime_type].
    from_bind; [quiet_steps | intros is_audio].
    apply (stable_from_get P). intros c [Ha _].
    destruct is_audio; [| quiet_steps].
    destruct (audio_callback c) as [f |] eqn:F; [| quiet_steps].
    from_bind; [quiet_steps | intros audio_b64].
    destruct (Py.truthy audio_b64); [| quiet_steps].
    from_bind; [quiet_steps | intros audio_data].
    apply (from_stable P), (stable_await _ _ link_refl link_trans).
    cbn. congruence.
  - intros _. from_bind; [quiet_steps | intros has_text].
    apply (stable_from_get P). intros c [_ [Ht _]].
    destruct has_text; [| quiet_steps].
    destruct (transcript_callback c) as [f |] eqn:F; [| quiet_steps].
    from_bind; [quiet_steps | intros text].
    destruct (Py.truthy text); [| quiet_steps].
    apply (from_stable P), (stable_await _ _ link_refl link_trans).
    cbn. congruence.
Qed.

Lemma guarded_from (key : string) (server_content : json)
      (body : M client effect unit) :
  stable_from P link T body ->
  stable_from P link T
    (bind (lift (flag_set key server_content))
          (fun b : bool => if b then body else ret tt)).
Proof.
  intros Hb. from_bind; [quiet_steps | intros []; [exact Hb | quiet_steps]].
Qed.

Lemma dispatch_from (data : json) : stable_from P link T (dispatch data).
Proof.
  unfold dispatch.
  from_bind; [quiet_steps | intros has_content].
  from_bind; [| intros _; unfold other_keys, log; quiet_steps].
  destruct has_content; [| quiet_steps].
  from_bind; [quiet_steps | intros server_content].
  from_bind; [| intros _; from_bind; [| intros _; from_bind; [| intros _]]].
  - unfold model_turn_block.
    from_bind; [quiet_steps | intros has_turn].
    destruct has_turn; [| quiet_steps].
    from_bind; [quiet_steps | intros model_turn].
    from_bind; [apply model_turn_begin_from | intros _].
    from_bind; [quiet_steps | intros parts].
    from_bind; [quiet_steps | intros items].
    apply (stable_from_for_each P link T link_refl link_trans (wired_kept c0)).
    apply handle_part_from.
  - apply guarded_from. unfold on_turn_complete.
    from_bind; [unfold log; quiet_steps | intros _].
    from_bind; [unfold log; quiet_steps | intros _]. apply call_vad_from.
  - apply guarded_from. unfold on_interrupted.
    from_bind; [unfold log; quiet_steps | intros _].
    from_bind; [unfold log; quiet_steps | intros _].
    from_bind; [unfold log; quiet_steps | intros _].
    from_bind; [apply call_vad_from | intros _]. apply call_vad_from.
  - apply guarded_from. unfold on_interrupted_again.
    from_bind; [unfold log; quiet_steps | intros _].
    from_bind; [unfold log; quiet_steps | intros _]. apply call_vad_from.
Qed.

Lemma on_message_from (message : frame) : stable_from P link T (on_message message).
Proof.
  unfold on_message.
  apply (stable_from_try_except P link T link_trans (wired_kept c0)).
  - from_bind; [quiet_steps | intros data; apply dispatch_from].
  - intros e. unfold on_error, log. quiet_steps.
Qed.

End Registered.

Lemma on_message_returns (message : frame) (c : client) :
  result_of (on_message message c) = Ok tt.
Proof.
  destruct (try_except_returns
              (bind (lift (json_loads message)) (fun data => dispatch data))
              on_error c) as [[] H]; [| exact H].
  intros e c'. exists tt. destruct e; reflexivity.
Qed.

(** The loop of [receive_events], by induction on the messages read. *)
Lemma receive_loop_facts (messages : list frame) (failure : option exn) :
  forall c0 c,
    same_callbacks c0 c ->
    result_of (receive_loop messages failure c)
    = match failure with None => Ok tt | Some e => Raise e end /\
    link c (state_of (receive_loop messages failure c)) /\
    Forall (registered_call c0) (trace_of (receive_loop messages failure c)).
Proof.
  induction messages as [| message rest IH]; intros c0 c Hc.
  - destruct failure; cbn; repeat split; constructor.
  - cbn [receive_loop]. unfold bind.
    pose proof (on_message_returns message c) as Hr.
    destruct (on_message_from c0 message c Hc) as [Hl Ht].
    destruct (on_message message c) as [[[[] | e] c1] t1];
      cbn [result_of state_of trace_of fst snd] in *; [| discriminate Hr].
    destruct (IH c0 c1 (wired_kept _ _ _ Hc Hl)) as [Hr' [Hl' Ht']].
    destruct (receive_loop rest failure c1) as [[r c2] t2];
      cbn [result_of state_of trace_of fst snd] in *.
    split; [exact Hr' |].
    split; [eapply link_trans; eassumption | apply Forall_app; now split].
Qed.

Lemma receive_events_run (messages : list frame) (failure : option exn) (c : client) :
  receive_events messages failure c =
  if negb (connected c) || negb (ws c) then (Raise RuntimeError, c, [])
  else try_except (receive_loop messages failure) loop_handler c.
Proof.
  unfold receive_events. unfold bind at 1. cbn [get].
  destruct (negb (connected c) || negb (ws c)); [reflexivity |].
  change (fun e : exn => match e with
                         | ConnectionClosed => _
                         | _ => _
                         end) with loop_handler.
  destruct (try_except (receive_loop messages failure) loop_handler c)
    as [[r s2] t2]. reflexivity.
Qed.

End GeminiCalls.
Module GeminiFloor.
Import Gemini GeminiNotions GeminiShapes GeminiFacts GeminiSteps GeminiRuns.

Lemma towards_refl c : towards_user c c.
Proof. split; auto. Qed.

Lemma towards_trans c1 c2 c3 :
  towards_user c1 c2 -> towards_user c2 c3 -> towards_user c1 c3.
Proof. intros [A1 B1] [A2 B2]. split; auto. Qed.

Ltac lowers :=
  first [ exact I
        | intros; split; cbn; intros;
          first [assumption | discriminate | reflexivity] ].

Ltac towards := steps towards_refl towards_trans lowers.

Lemma call_vad_towards (event : string) :
  stable towards_user (fun _ => True) (call_vad event).
Proof. unfold call_vad. towards. Qed.

Lemma guarded_towards (key : string) (server_content : json)
      (body : M client effect unit) :
  stable towards_user (fun _ => True) body ->
  stable towards_user (fun _ => True)
    (bind (lift (flag_set key server_content))
          (fun b : bool => if b then body else ret tt)).
Proof.
  intros Hb. apply (stable_bind _ _ towards_trans);
    [apply (stable_lift _ _ towards_refl) | intros []; [exact Hb | towards]].
Qed.

Lemma turn_complete_block_towards (sc : json) :
  stable towards_user (fun _ => True) (turn_complete_block sc).
Proof.
  apply guarded_towards. unfold on_turn_complete, call_vad, log. towards.
Qed.

Lemma interrupted_block_towards (sc : json) :
  stable towards_user (fun _ => True) (interrupted_block sc).
Proof.
  apply guarded_towards. unfold on_interrupted, call_vad, log. towards.
Qed.

Lemma interrupted_again_block_towards (sc : json) :
  stable towards_user (fun _ => True) (interrupted_again_block sc).
Proof.
  apply guarded_towards. unfold on_interrupted_again, call_vad, log. towards.
Qed.

(** Without a [modelTurn] to read, the block of the model turn changes no
    field. *)
Lemma model_turn_block_towards (sc : json) :
  (forall turn, Py.getitem sc "modelTurn" <> Ok turn) ->
  stable towards_user (fun _ => True) (model_turn_block sc).
Proof.
  intros H c. unfold model_turn_block.
  destruct (Py.contains "modelTurn" sc) as [[|] | e];
    [| split; [apply towards_refl | constructor] ..].
  rewrite bind_lift_ok.
  destruct (Py.getitem sc "modelTurn") as [turn | e]; [now contradiction (H turn) |].
  split; [apply towards_refl | constructor].
Qed.

Lemma dispatch_towards (data : json) :
  (forall sc turn, Py.getitem data "serverContent" = Ok sc ->
                   Py.getitem sc "modelTurn" <> Ok turn) ->
  stable towards_user (fun _ => True) (dispatch data).
Proof.
  intros H. unfold dispatch.
  apply (stable_bind _ _ towards_trans);
    [apply (stable_lift _ _ towards_refl) | intros has_content].
  apply (stable_bind _ _ towards_trans);
    [| intros _; unfold other_keys, log; towards].
  destruct has_content; [| towards].
  destruct (Py.getitem data "serverContent") as [sc | e] eqn:G; [| towards].
  intros c. rewrite bind_lift_ok. revert c.
  apply (stable_bind _ _ towards_trans);
    [apply model_turn_block_towards; intros turn; now apply H | intros _].
  apply (stable_bind _ _ towards_trans);
    [apply turn_complete_block_towards | intros _].
  apply (stable_bind _ _ towards_trans);
    [apply interrupted_block_towards | intros _].
  apply interrupted_again_block_towards.
Qed.

Lemma on_message_towards (message : frame) :
  opens_turn message = false ->
  stable towards_user (fun _ => True) (on_message message).
Proof.
  intros H. unfold on_message.
  apply (stable_try_except _ _ towards_trans);
    [| intros e; unfold on_error, log; towards].
  destruct message as [text | data]; [towards |].
  cbn [json_loads]. intros c. rewrite bind_lift_ok. revert c.
  apply dispatch_towards. intros sc turn Hsc Hturn.
  destruct data; try discriminate Hsc. cbn [Py.getitem opens_turn] in *.
  destruct (Py.lookup "serverContent" members) as [v |]; [| discriminate Hsc].
  injection Hsc as ->.
  destruct sc; try discriminate Hturn. cbn [Py.getitem] in Hturn.
  destruct (Py.lookup "modelTurn" members0); discriminate.
Qed.




End GeminiFloor.
(** X14. The handling of one message of the model lets no failure of
    class [Exception] out, whatever the message is and whichever such failure
    a callback raises: it returns.  The body itself assigns none of the
    socket, the connection flag and the three callbacks, makes no call on
    the socket, and calls a callback only when it is registered. *)
Theorem on_message_contained (message : frame) (c : Gemini.client) :
  result_of (Gemini.on_message message c) = Ok tt /\
  GeminiNotions.link c (state_of (Gemini.on_message message c)) /\
  Forall (GeminiNotions.registered_call c) (trace_of (Gemini.on_message message c)).
Proof.
  split; [apply GeminiCalls.on_message_returns |].
  apply (GeminiCalls.on_message_from c message c).
  repeat split.
Qed.

(** X15. [receive_events] on a client that is not connected raises
    [RuntimeError] before it reads anything.  On a connected one, whatever
    the messages are, its outcome follows the way the stream of messages
    ends: it returns with the connection flag as it was when the stream ends
    by itself, returns with the flag lowered on [ConnectionClosed], and
    lowers the flag and raises the same exception again on any other failure
    of class [Exception].  It never assigns the socket or the callbacks and
    calls registered callbacks only. *)
Theorem receive_events_outcomes
        (messages : list frame) (failure : option exn) (c : Gemini.client) :
  if negb (Gemini.connected c) || negb (Gemini.ws c) then
    Gemini.receive_events messages failure c = (Raise RuntimeError, c, [])
  else
    result_of (Gemini.receive_events messages failure c)
    = GeminiShapes.loop_outcome failure /\
    Gemini.connected (state_of (Gemini.receive_events messages failure c))
    = (match failure with None => true | Some _ => false end) /\
    Gemini.ws (state_of (Gemini.receive_events messages failure c)) = true /\
    Gemini.same_callbacks c (state_of (Gemini.receive_events messages failure c)) /\
    Forall (GeminiNotions.registered_call c)
           (trace_of (Gemini.receive_events messages failure c)).
Proof.
  rewrite GeminiCalls.receive_events_run.
  destruct (negb (Gemini.connected c) || negb (Gemini.ws c)) eqn:G;
    [reflexivity |].
  apply Bool.orb_false_elim in G. destruct G as [Gc Gw].
  apply Bool.negb_false_iff in Gc, Gw.
  destruct (GeminiCalls.receive_loop_facts messages failure c c)
    as [Hr [[Hw [Hc Hs]] Ht]]; [repeat split |].
  unfold try_except.
  destruct (Gemini.receive_loop messages failure c) as [[r c1] t1];
    cbn [result_of state_of trace_of fst snd] in *.
  subst r. destruct failure as [e |].
  - destruct e; cbn;
      (split; [reflexivity |]; split; [reflexivity |];
       split; [congruence |]; split; [exact Hs |];
       apply Forall_app; split; [exact Ht | repeat constructor]).
  - cbn. repeat split; first [congruence | apply Hs | exact Ht].
Qed.

(** X16. [connect] returns only when both the opening of the socket and
    the writing of the setup message return; otherwise it raises the very
    exception it met, with the connection flag lowered.  The socket is kept
    from the moment it is open, also when the setup message could not be
    written, and the setup message is written exactly when the socket
    opened.  After a [connect] that returned, [send_audio_chunk] writes its
    chunk to the socket; after one that raised, [send_audio_chunk] does
    nothing and [receive_events] raises [RuntimeError], also when the socket
    is open. *)
Theorem connect_outcomes
        (opened sent written : option exn) (pcm_data : bytes)
        (messages : list frame) (failure : option exn) (c : Gemini.client) :
  result_of (Gemini.connect opened sent c)
  = match opened, sent with
    | None, None => Ok tt
    | Some e, _ => Raise e
    | None, Some e => Raise e
    end /\
  state_of (Gemini.connect opened sent c)
  = Gemini.set_connected
      (match opened, sent with None, None => true | _, _ => false end)
      (match opened with None => Gemini.set_ws true c | Some _ => c end) /\
  filter (fun e => negb (Gemini.is_log e)) (trace_of (Gemini.connect opened sent c))
  = Gemini.WsConnect
    :: match opened with
       | None => [Gemini.WsSend Gemini.setup_message]
       | Some _ => []
       end /\
  match result_of (Gemini.connect opened sent c) with
  | Ok _ =>
      In (Gemini.WsSend (Gemini.realtime_input (AudioConverter.to_base64 pcm_data)))
         (trace_of (Gemini.send_audio_chunk written pcm_data
                      (state_of (Gemini.connect opened sent c))))
  | Raise _ =>
      Gemini.send_audio_chunk written pcm_data
        (state_of (Gemini.connect opened sent c))
      = (Ok tt, state_of (Gemini.connect opened sent c), []) /\
      Gemini.receive_events messages failure
        (state_of (Gemini.connect opened sent c))
      = (Raise RuntimeError, state_of (Gemini.connect opened sent c), [])
  end.
Proof.
  split; [destruct opened, sent; reflexivity |].
  split; [destruct opened, sent; reflexivity |].
  split; [destruct opened, sent; reflexivity |].
  rewrite GeminiTurns.send_audio_chunk_run, GeminiCalls.receive_events_run.
  destruct opened as [e |]; [| destruct sent as [e |]];
    cbn [Gemini.connect result_of state_of fst snd];
    try (split; reflexivity).
  change (Gemini.connected (state_of (Gemini.connect None None c))) with true.
  change (Gemini.ws (state_of (Gemini.connect None None c))) with true.
  cbn [negb orb trace_of snd].
  apply in_or_app. right. now left.
Qed.

(** X17. [close] of the model session is not guarded: when closing the
    socket raises, the exception goes to the caller and the connection flag
    stays as it was.  The socket is never forgotten, so that every further
    [close] calls it again.  Once [close] has returned on a client that has
    a socket, [send_audio_chunk] does nothing and [receive_events] raises
    [RuntimeError]. *)
Theorem gemini_close_outcomes
        (closed again sent : option exn) (pcm_data : bytes)
        (messages : list frame) (failure : option exn) (c : Gemini.client) :
  result_of (Gemini.close closed c)
  = (if Gemini.ws c then match closed with None => Ok tt | Some e => Raise e end
     else Ok tt) /\
  state_of (Gemini.close closed c)
  = (if Gemini.ws c then
       match closed with None => Gemini.set_connected false c | Some _ => c end
     else c) /\
  hd_error (trace_of (Gemini.close again (state_of (Gemini.close closed c))))
  = (if Gemini.ws c then Some Gemini.WsClose else None) /\
  (if Gemini.ws c then
     Gemini.send_audio_chunk sent pcm_data (state_of (Gemini.close None c))
     = (Ok tt, state_of (Gemini.close None c), []) /\
     Gemini.receive_events messages failure (state_of (Gemini.close None c))
     = (Raise RuntimeError, state_of (Gemini.close None c), [])
   else Gemini.close closed c = (Ok tt, c, [])).
Proof.
  destruct c as [[|] cn ac tc vc us bs]; destruct closed, again; repeat split.
Qed.



(** X19. Only a message that opens a model turn hands the floor to the bot:
    the handling of any other message, whatever it holds and whatever
    raises, never raises [bot_speaking] and never lowers [user_speaking]. *)
Theorem only_model_turn_raises_bot (message : frame) (c : Gemini.client) :
  GeminiShapes.opens_turn message = false ->
  GeminiNotions.towards_user c (state_of (Gemini.on_message message c)).
Proof.
  intros H. apply (GeminiFloor.on_message_towards message H c).
Qed.

Lemma only_model_turn_raises_bot_witness :
  GeminiNotions.towards_user Gemini.listening
    (state_of (Gemini.on_message Gemini.interrupted_message Gemini.listening)).
Proof.
  exact (only_model_turn_raises_bot Gemini.interrupted_message Gemini.listening
           eq_refl).
Defined.
(** ** orchestrator.py *)

Module BridgeFacts.
Import Bridge.

Lemma cancel_tasks_run (done : list bool) :
  forall place o,
    result_of (cancel_tasks place done o) = Ok tt /\
    state_of (cancel_tasks place done o) = o /\
    List.length (trace_of (cancel_tasks place done o))
    = List.length (filter negb done) /\
    forallb is_cancel (trace_of (cancel_tasks place done o)) = true.
Proof.
  induction done as [| d rest IH]; intros place o; [repeat split |].
  cbn [cancel_tasks]. unfold bind.
  destruct (IH (S place) o) as [Hr [Hs [Hl Hc]]].
  destruct d; cbn [negb filter]; unfold ret, tell;
    destruct (cancel_tasks (S place) rest o) as [[r s] t]; cbn in *;
    repeat split; auto.
Qed.

Lemma send_audio_chunk_returns (sent : option exn) (pcm_data : bytes)
      (c : Gemini.client) :
  result_of (Gemini.send_audio_chunk sent pcm_data c) = Ok tt.
Proof.
  rewrite GeminiTurns.send_audio_chunk_run.
  destruct (negb (Gemini.connected c) || negb (Gemini.ws c)); reflexivity.
Qed.

Lemma send_audio_returns (written : option exn) (ulaw_data : bytes)
      (s : Smartflo.session) :
  result_of (Smartflo.send_audio written ulaw_data s) = Ok tt.
Proof.
  destruct (Smartflo.streaming s) eqn:H.
  - now rewrite SmartfloFacts.send_audio_streaming.
  - now rewrite SmartfloFacts.send_audio_not_streaming.
Qed.

Lemma no_vad_call (c : Gemini.client) (t : list Gemini.effect) :
  Gemini.vad_callback c = None ->
  Forall (GeminiNotions.registered_call c) t ->
  existsb is_vad_call (map OfGemini t) = false.
Proof.
  intros Hv. induction 1 as [| e t He _ IH]; [reflexivity |].
  cbn [map existsb]. rewrite IH.
  destruct e; try reflexivity. cbn in He. now contradiction He.
Qed.

Lemma not_cancel {A : Type} (g : A -> effect) (l : list A) :
  (forall a, is_cancel (g a) = false) -> filter is_cancel (map g l) = [].
Proof.
  intros Hg. induction l as [| a l IH]; [reflexivity |].
  cbn [map filter]. now rewrite Hg, IH.
Qed.

Lemma all_cancel (t : list effect) :
  forallb is_cancel t = true -> filter is_cancel t = t.
Proof.
  induction t as [| e t IH]; [reflexivity |].
  cbn [forallb filter]. intros H. apply andb_prop in H. destruct H as [He Ht].
  now rewrite He, (IH Ht).
Qed.

Lemma smartflo_close_returns (closed : option exn) (s : Smartflo.session) :
  result_of (Smartflo.close closed s) = Ok tt.
Proof.
  rewrite SmartfloEvents.close_run. now destruct (Smartflo.connected s).
Qed.

(** [stop], in terms of the two [close] it calls. *)
Lemma stop_run (done : list bool) (closed_model closed_phone : option exn)
      (o : orchestrator) :
  stop done closed_model closed_phone o =
  let model := Gemini.close closed_model (gemini_client o) in
  let phone := Smartflo.close closed_phone (smartflo_session o) in
  let o1 := set_gemini_client (state_of model) (set_running false o) in
  let head :=
    Log INFO "Stopping streaming orchestrator..."
    :: trace_of (cancel_tasks 0 done (set_running false o))
    ++ map OfGemini (trace_of model) in
  match result_of model with
  | Raise e => (Raise e, o1, head)
  | Ok _ =>
      (Ok tt, set_smartflo_session (state_of phone) o1,
       head ++ map OfSmartflo (trace_of phone)
       ++ [Log INFO "Streaming orchestrator stopped"])
  end.
Proof.
  cbv zeta. unfold stop.
  assert (H1 : log INFO "Stopping streaming orchestrator..." o
               = (Ok tt, o, [Log INFO "Stopping streaming orchestrator..."]))
    by reflexivity.
  rewrite (bind_ok _ _ _ _ _ _ H1).
  assert (H2 : modify (E := effect) (set_running false) o
               = (Ok tt, set_running false o, []))
    by reflexivity.
  rewrite (bind_ok _ _ _ _ _ _ H2).
  destruct (cancel_tasks_run done 0 (set_running false o)) as [Hr [Hs _]].
  assert (H3 : cancel_tasks 0 done (set_running false o)
               = (Ok tt, set_running false o,
                  trace_of (cancel_tasks 0 done (set_running false o)))).
  { rewrite (run_eta (cancel_tasks 0 done (set_running false o))) at 1.
    now rewrite Hr, Hs. }
  rewrite (bind_ok _ _ _ _ _ _ H3).
  pose proof (smartflo_close_returns closed_phone (smartflo_session o)) as Hp.
  destruct (Gemini.close closed_model (gemini_client o)) as [[[[] | e] c] t2] eqn:Hg;
    cbn [result_of state_of trace_of fst snd].
  - assert (H4 : on_gemini (Gemini.close closed_model) (set_running false o)
                 = (Ok tt, set_gemini_client c (set_running false o),
                    map OfGemini t2)).
    { unfold on_gemini. cbn [gemini_client set_running]. now rewrite Hg. }
    rewrite (bind_ok _ _ _ _ _ _ H4).
    assert (H5 : on_smartflo (Smartflo.close closed_phone)
                             (set_gemini_client c (set_running false o))
                 = (Ok tt,
                    set_smartflo_session
                      (state_of (Smartflo.close closed_phone (smartflo_session o)))
                      (set_gemini_client c (set_running false o)),
                    map OfSmartflo
                        (trace_of (Smartflo.close closed_phone (smartflo_session o))))).
    { unfold on_smartflo. cbn [smartflo_session set_running set_gemini_client].
      destruct (Smartflo.close closed_phone (smartflo_session o)) as [[r s] t3].
      cbn [result_of fst] in Hp. now subst r. }
    rewrite (bind_ok _ _ _ _ _ _ H5).
    cbn [result_of state_of trace_of fst snd Bridge.log tell app].
    now rewrite <- !app_assoc.
  - assert (H4 : on_gemini (Gemini.close closed_model) (set_running false o)
                 = (Raise e, set_gemini_client c (set_running false o),
                    map OfGemini t2)).
    { unfold on_gemini. cbn [gemini_client set_running]. now rewrite Hg. }
    rewrite (bind_raise _ _ _ _ _ _ H4). reflexivity.
Qed.



End BridgeFacts.

(** [handle_smartflo_audio], in terms of [send_audio_chunk]. *)
Lemma handle_smartflo_audio_run
        (sent : option exn) (ulaw_data : bytes) (o : Bridge.orchestrator) :
  exists pcm_16k,
    Resampler.smartflo_to_gemini ulaw_data = Ok pcm_16k /\
    List.length pcm_16k = 2 * (2 * List.length ulaw_data - 1) /\
    Bridge.handle_smartflo_audio sent ulaw_data o =
      (Ok tt,
       Bridge.set_gemini_client
         (state_of (Gemini.send_audio_chunk sent pcm_16k (Bridge.gemini_client o)))
         (Bridge.set_counts
            (Orchestrator.handle_smartflo_audio (Bridge.counts o)) o),
       (if Orchestrator.responding (Bridge.counts o)
        then [Bridge.Log INFO "User interrupting - stopping bot response"]
        else [])
       ++ map Bridge.OfGemini
            (trace_of (Gemini.send_audio_chunk sent pcm_16k
                         (Bridge.gemini_client o)))).
Proof.
  destruct (RatecvFacts.smartflo_to_gemini_total ulaw_data) as [pcm [H1 H2]].
  exists pcm. split; [exact H1 |]. split; [exact H2 |].
  pose proof (BridgeFacts.send_audio_chunk_returns sent pcm (Bridge.gemini_client o))
    as Hr.
  unfold Bridge.handle_smartflo_audio. rewrite H1.
  destruct o as [ss gc rn [ain aout [|]]];
    unfold try_except, bind, get, modify, lift, ret, Bridge.log, tell,
      Bridge.on_gemini;
    cbn [Bridge.counts Bridge.gemini_client Orchestrator.responding
         Bridge.count_in Bridge.set_responding Bridge.set_counts] in *;
    destruct (Gemini.send_audio_chunk sent pcm gc) as [[r c] t];
    cbn [result_of fst] in Hr; subst r; reflexivity.
Qed.


(** X20. [handle_smartflo_audio] returns whichever failure of class
    [Exception] the write on the socket of the model raises, and never
    reaches its own [except] clause: the conversion of a buffer of code
    words cannot fail and [send_audio_chunk] holds such failures itself.  It
    counts the chunk, clears the mark of a response under way (logging the
    interruption when there was one), assigns nothing of the telephony
    session and hands the converted buffer, [2 (2 n - 1)] octets for [n]
    code words, to [send_audio_chunk]. *)
Theorem handle_smartflo_audio_forwards
        (sent : option exn) (ulaw_data : bytes) (o : Bridge.orchestrator) :
  exists pcm_16k,
    Resampler.smartflo_to_gemini ulaw_data = Ok pcm_16k /\
    List.length pcm_16k = 2 * (2 * List.length ulaw_data - 1) /\
    result_of (Bridge.handle_smartflo_audio sent ulaw_data o) = Ok tt /\
    trace_of (Bridge.handle_smartflo_audio sent ulaw_data o)
    = (if Orchestrator.responding (Bridge.counts o)
       then [Bridge.Log INFO "User interrupting - stopping bot response"]
       else [])
      ++ map Bridge.OfGemini
           (trace_of (Gemini.send_audio_chunk sent pcm_16k
                        (Bridge.gemini_client o))) /\
    Orchestrator.audio_in_count
      (Bridge.counts (state_of (Bridge.handle_smartflo_audio sent ulaw_data o)))
    = Orchestrator.audio_in_count (Bridge.counts o) + 1 /\
    Orchestrator.audio_out_count
      (Bridge.counts (state_of (Bridge.handle_smartflo_audio sent ulaw_data o)))
    = Orchestrator.audio_out_count (Bridge.counts o) /\
    Orchestrator.responding
      (Bridge.counts (state_of (Bridge.handle_smartflo_audio sent ulaw_data o)))
    = false /\
    Bridge.gemini_client (state_of (Bridge.handle_smartflo_audio sent ulaw_data o))
    = state_of (Gemini.send_audio_chunk sent pcm_16k (Bridge.gemini_client o)) /\
    Bridge.smartflo_session (state_of (Bridge.handle_smartflo_audio sent ulaw_data o))
    = Bridge.smartflo_session o /\
    Bridge.running (state_of (Bridge.handle_smartflo_audio sent ulaw_data o))
    = Bridge.running o.
Proof.
  destruct (handle_smartflo_audio_run sent ulaw_data o) as [pcm [H1 [H2 H3]]].
  exists pcm. split; [exact H1 |]. split; [exact H2 |].
  rewrite H3. repeat split.
Qed.

(** [handle_gemini_audio], in terms of [send_audio]. *)
Lemma handle_gemini_audio_run
        (written : option exn) (pcm_data : bytes) (o : Bridge.orchestrator) :
  Bridge.handle_gemini_audio written pcm_data o =
    (Ok tt,
     (if Nat.even (List.length pcm_data) then
        Bridge.set_smartflo_session
          (state_of (Smartflo.send_audio written
                       (map Audioop.encode_sample
                            (Resampler.pick 0 (Audioop.samples pcm_data)))
                       (Bridge.smartflo_session o)))
          (Bridge.set_counts (Orchestrator.handle_gemini_audio (Bridge.counts o)) o)
      else Bridge.set_counts (Orchestrator.handle_gemini_audio (Bridge.counts o)) o),
     (if Orchestrator.responding (Bridge.counts o) then []
      else [Bridge.Log INFO "First response in"])
     ++ (if Nat.even (List.length pcm_data) then
           map Bridge.OfSmartflo
               (trace_of (Smartflo.send_audio written
                            (map Audioop.encode_sample
                                 (Resampler.pick 0 (Audioop.samples pcm_data)))
                            (Bridge.smartflo_session o)))
         else [Bridge.Log ERROR "Error in audio-out pipeline"])).
Proof.
  unfold Bridge.handle_gemini_audio.
  rewrite RatecvFacts.gemini_to_smartflo_run.
  destruct (Nat.even (List.length pcm_data)).
  - pose proof (BridgeFacts.send_audio_returns written
                  (map Audioop.encode_sample
                       (Resampler.pick 0 (Audioop.samples pcm_data)))
                  (Bridge.smartflo_session o)) as Hr.
    destruct o as [ss gc rn [ain aout [|]]];
      unfold try_except, bind, get, modify, lift, ret, Bridge.log, tell,
        Bridge.on_smartflo;
      cbn [Bridge.counts Bridge.smartflo_session Orchestrator.responding negb
           Bridge.count_out Bridge.set_responding Bridge.set_counts] in *;
      match goal with
      | |- context [Smartflo.send_audio ?w ?u ?s] =>
          destruct (Smartflo.send_audio w u s) as [[r s'] t]
      end;
      cbn [result_of fst] in Hr; subst r; reflexivity.
  - destruct o as [ss gc rn [ain aout [|]]]; reflexivity.
Qed.


(** X21. [handle_gemini_audio] returns whichever failure of class
    [Exception] the conversion or the write on the telephony socket raises.
    It counts the chunk and marks a response as under way, logging the first
    chunk of one, before it converts: a buffer of odd length is counted and
    marked all the same, but nothing is sent for it and one error line is
    logged.  For a buffer of even length the code words of every third
    sample are handed to [send_audio] of the telephony session; nothing of
    the model session is assigned. *)
Theorem handle_gemini_audio_forwards
        (written : option exn) (pcm_data : bytes) (o : Bridge.orchestrator) :
  result_of (Bridge.handle_gemini_audio written pcm_data o) = Ok tt /\
  trace_of (Bridge.handle_gemini_audio written pcm_data o)
  = (if Orchestrator.responding (Bridge.counts o) then []
     else [Bridge.Log INFO "First response in"])
    ++ (if Nat.even (List.length pcm_data) then
          map Bridge.OfSmartflo
              (trace_of (Smartflo.send_audio written
                           (map Audioop.encode_sample
                                (Resampler.pick 0 (Audioop.samples pcm_data)))
                           (Bridge.smartflo_session o)))
        else [Bridge.Log ERROR "Error in audio-out pipeline"]) /\
  Orchestrator.audio_out_count
    (Bridge.counts (state_of (Bridge.handle_gemini_audio written pcm_data o)))
  = Orchestrator.audio_out_count (Bridge.counts o) + 1 /\
  Orchestrator.audio_in_count
    (Bridge.counts (state_of (Bridge.handle_gemini_audio written pcm_data o)))
  = Orchestrator.audio_in_count (Bridge.counts o) /\
  Orchestrator.responding
    (Bridge.counts (state_of (Bridge.handle_gemini_audio written pcm_data o)))
  = true /\
  Bridge.smartflo_session (state_of (Bridge.handle_gemini_audio written pcm_data o))
  = (if Nat.even (List.length pcm_data) then
       state_of (Smartflo.send_audio written
                   (map Audioop.encode_sample
                        (Resampler.pick 0 (Audioop.samples pcm_data)))
                   (Bridge.smartflo_session o))
     else Bridge.smartflo_session o) /\
  Bridge.gemini_client (state_of (Bridge.handle_gemini_audio written pcm_data o))
  = Bridge.gemini_client o /\
  Bridge.running (state_of (Bridge.handle_gemini_audio written pcm_data o))
  = Bridge.running o.
Proof.
  rewrite handle_gemini_audio_run.
  destruct (Nat.even (List.length pcm_data)); repeat split.
Qed.

(** X22. [stop] lowers [running], cancels the tasks that are not done and
    closes the model session first: when that raises, [stop] raises the
    same exception and has not touched the telephony session, whose socket
    is not closed; otherwise the telephony session is closed as well and
    [stop] returns, whichever failure of class [Exception] closing that
    socket raises. *)
Theorem stop_closes_model_first
        (done : list bool) (closed_model closed_phone : option exn)
        (o : Bridge.orchestrator) :
  Bridge.running (state_of (Bridge.stop done closed_model closed_phone o)) = false /\
  List.length (filter Bridge.is_cancel
                 (trace_of (Bridge.stop done closed_model closed_phone o)))
  = List.length (filter negb done) /\
  result_of (Bridge.stop done closed_model closed_phone o)
  = result_of (Gemini.close closed_model (Bridge.gemini_client o)) /\
  Bridge.gemini_client (state_of (Bridge.stop done closed_model closed_phone o))
  = state_of (Gemini.close closed_model (Bridge.gemini_client o)) /\
  Bridge.smartflo_session (state_of (Bridge.stop done closed_model closed_phone o))
  = match result_of (Gemini.close closed_model (Bridge.gemini_client o)) with
    | Ok _ => state_of (Smartflo.close closed_phone (Bridge.smartflo_session o))
    | Raise _ => Bridge.smartflo_session o
    end.
Proof.
  rewrite BridgeFacts.stop_run. cbv zeta.
  destruct (BridgeFacts.cancel_tasks_run done 0 (Bridge.set_running false o))
    as [_ [_ [Hl Hc]]].
  apply BridgeFacts.all_cancel in Hc.
  revert Hl Hc.
  generalize (trace_of (Bridge.cancel_tasks 0 done (Bridge.set_running false o))).
  intros t1 Hl Hc.
  destruct (Gemini.close closed_model (Bridge.gemini_client o)) as [[r c] t2].
  destruct (Smartflo.close closed_phone (Bridge.smartflo_session o)) as [[r' s] t3].
  destruct r as [[] | e];
    cbn [result_of state_of trace_of fst snd Bridge.running
         Bridge.set_smartflo_session Bridge.set_gemini_client Bridge.set_running
         Bridge.gemini_client Bridge.smartflo_session].
  all: rewrite ?filter_app; cbn [filter Bridge.is_cancel].
  all: rewrite ?filter_app, Hc, !BridgeFacts.not_cancel by reflexivity.
  all: rewrite ?app_nil_r.
  all: repeat split; exact Hl.
Qed.

(** X23. The orchestrator registers an audio and a transcript callback and
    no VAD callback: as [start] sets the client of the model up, no message
    of the model, whatever it holds, leads to a call of a VAD callback; the
    events [user_stopped], [turn_complete] and [interrupted] have no
    listener. *)
Theorem no_vad_listener
        (session : Smartflo.session)
        (messages : list frame) (failure : option exn) :
  existsb Bridge.is_vad_call
    (trace_of (Bridge.on_gemini (Gemini.receive_events messages failure)
                 (Bridge.started session)))
  = false.
Proof.
  unfold Bridge.on_gemini.
  set (c := Bridge.gemini_client (Bridge.started session)).
  assert (Hv : Gemini.vad_callback c = None) by reflexivity.
  destruct (GeminiCalls.receive_loop_facts
              messages failure c c (GeminiFacts.same_callbacks_refl c))
    as [_ [_ Ht]].
  rewrite GeminiCalls.receive_events_run.
  destruct (negb (Gemini.connected c) || negb (Gemini.ws c)); [reflexivity |].
  unfold try_except.
  destruct (Gemini.receive_loop messages failure c) as [[[[] | e] c1] t1];
    cbn [trace_of snd] in *.
  - now apply (BridgeFacts.no_vad_call c).
  - assert (Hh : Forall (GeminiNotions.registered_call c)
                        (trace_of (GeminiShapes.loop_handler e c1)))
      by (destruct e; repeat constructor).
    destruct (GeminiShapes.loop_handler e c1) as [[r c2] t2].
    cbn [trace_of snd] in *.
    apply (BridgeFacts.no_vad_call c); [exact Hv | apply Forall_app; now split].
Qed.


(** ** server.py at the root *)

Module HexFacts.
Import Hex.
Local Open Scope N_scope.

(** The two digits written for an octet read back as the octet. *)
Lemma digits_back (b : byte) :
  is_space (hex_char (Byte.to_N b / 16)) = false /\
  digit_value (hex_char (Byte.to_N b / 16)) = Some (Byte.to_N b / 16) /\
  digit_value (hex_char (Byte.to_N b mod 16)) = Some (Byte.to_N b mod 16) /\
  byte_of_N (Byte.to_N b / 16 * 16 + Byte.to_N b mod 16) = b.
Proof.
  pose proof (check1_spec
    (fun b =>
       negb (is_space (hex_char (Byte.to_N b / 16)))
       && match digit_value (hex_char (Byte.to_N b / 16)) with
          | Some top => top =? Byte.to_N b / 16
          | None => false
          end
       && match digit_value (hex_char (Byte.to_N b mod 16)) with
          | Some bot => bot =? Byte.to_N b mod 16
          | None => false
          end
       && Byte.eqb (byte_of_N (Byte.to_N b / 16 * 16 + Byte.to_N b mod 16)) b)%bool
    eq_refl b) as H.
  cbv beta in H.
  apply andb_prop in H. destruct H as [H H4].
  apply andb_prop in H. destruct H as [H H3].
  apply andb_prop in H. destruct H as [H1 H2].
  split; [now apply Bool.negb_true_iff in H1 |].
  split; [destruct (digit_value (hex_char (Byte.to_N b / 16)));
          [apply N.eqb_eq in H2; now subst | discriminate] |].
  split; [destruct (digit_value (hex_char (Byte.to_N b mod 16)));
          [apply N.eqb_eq in H3; now subst | discriminate] |].
  now apply Byte.byte_dec_bl.
Qed.

Lemma fromhex_hex (data : bytes) : fromhex (JString (hex data)) = Ok data.
Proof.
  unfold fromhex, hex. rewrite list_ascii_of_string_of_list_ascii.
  induction data as [| b rest IH]; [reflexivity |].
  cbn [flat_map app]. destruct (digits_back b) as [H1 [H2 [H3 H4]]].
  cbn [fromhex_loop]. rewrite H1, H2, H3, IH, H4. reflexivity.
Qed.

End HexFacts.

Module LegacyFacts.
Import Legacy.

Lemma legacy_send_audio_chunk_run (sent : option exn) (audio_data : bytes) (c : connection) :
  send_audio_chunk sent audio_data c =
  if negb (connected c) || negb (websocket c) then
    (Raise (OtherError "Not connected to Gemini Live"), c, [])
  else
    (match sent with None => Ok tt | Some e => Raise e end, c,
     GeminiSend (realtime_input (Hex.hex audio_data))
     :: match sent with
        | None => []
        | Some _ => [Log ERROR "Error sending audio chunk"]
        end).
Proof.
  unfold send_audio_chunk. unfold bind at 1. cbn [get].
  destruct (negb (connected c) || negb (websocket c)); [reflexivity |].
  destruct sent; reflexivity.
Qed.

Lemma legacy_handle_part_inline (written : callback bytes) (data : string) (c : connection) :
  handle_part written
    (JObject [("inlineData", JObject [("mimeType", JString "audio/pcm");
                                      ("data", JString data)])]) c =
  match Hex.fromhex (JString data) with
  | Raise e => (Raise e, c, [])
  | Ok audio_bytes =>
      (match written audio_bytes with None => Ok tt | Some e => Raise e end,
       c, [Log DEBUG "Sending bytes to Smartflo"; SendBytes audio_bytes])
  end.
Proof.
  unfold handle_part, bind, lift, ret, raise, await, tell, log.
  cbn - [Hex.fromhex].
  destruct (Hex.fromhex (JString data)) as [audio_bytes | e]; [| reflexivity].
  destruct (written audio_bytes); reflexivity.
Qed.

Lemma unchanged_refl (c : connection) : c = c.
Proof. reflexivity. Qed.

Lemma unchanged_trans (c1 c2 c3 : connection) : c1 = c2 -> c2 = c3 -> c1 = c3.
Proof. congruence. Qed.

Ltac plain := first [exact I | intros; reflexivity].

Lemma on_response_stable (written : callback bytes) (message : frame) :
  stable eq to_phone_or_log (on_response written message).
Proof.
  unfold on_response, handle_part, log.
  steps unchanged_refl unchanged_trans plain.
Qed.

Lemma on_response_returns (written : callback bytes) (message : frame)
      (c : connection) :
  result_of (on_response written message c) = Ok tt.
Proof.
  unfold on_response.
  match goal with
  | |- result_of (try_except ?m ?h c) = _ =>
      destruct (try_except_returns m h c) as [[] H]; [| exact H]
  end.
  intros e c'. exists tt. destruct e; reflexivity.
Qed.

End LegacyFacts.

(** X25. [send_audio_chunk] of the bridge at the root raises when the
    connection is not up, before it writes anything, and raises again what
    the write raised.  The one message it writes carries the buffer as
    hexadecimal text, which [bytes.fromhex] reads back as the buffer. *)
Theorem legacy_chunk_is_hex
        (sent : option exn) (audio_data : bytes) (c : Legacy.connection) :
  if negb (Legacy.connected c) || negb (Legacy.websocket c) then
    Legacy.send_audio_chunk sent audio_data c
    = (Raise (OtherError "Not connected to Gemini Live"), c, [])
  else
    exists message rest,
      trace_of (Legacy.send_audio_chunk sent audio_data c)
      = Legacy.GeminiSend message :: rest /\
      Legacy.sent_bytes rest = [] /\
      Legacy.chunk_data message = Ok (JString (Hex.hex audio_data)) /\
      Hex.fromhex (JString (Hex.hex audio_data)) = Ok audio_data /\
      result_of (Legacy.send_audio_chunk sent audio_data c)
      = match sent with None => Ok tt | Some e => Raise e end /\
      state_of (Legacy.send_audio_chunk sent audio_data c) = c.
Proof.
  rewrite LegacyFacts.legacy_send_audio_chunk_run.
  destruct (negb (Legacy.connected c) || negb (Legacy.websocket c));
    [reflexivity |].
  eexists. eexists. split; [reflexivity |].
  split; [now destruct sent |].
  split; [reflexivity |].
  split; [apply HexFacts.fromhex_hex |].
  split; reflexivity.
Qed.

(** X26. A message of the model whose part carries the hexadecimal text of
    a buffer makes the bridge at the root send exactly that buffer to the
    telephony socket, the empty buffer included; an exception of the write
    is logged and the loop goes on. *)
Theorem legacy_response_forwards_hex
        (written : callback bytes) (audio_data : bytes) (c : Legacy.connection) :
  Legacy.on_response written (Legacy.audio_response (Hex.hex audio_data)) c =
  (Ok tt, c,
   [Legacy.Log DEBUG "Received from Gemini";
    Legacy.Log DEBUG "Sending bytes to Smartflo";
    Legacy.SendBytes audio_data]
   ++ match written audio_data with
      | None => []
      | Some JSONDecodeError =>
          [Legacy.Log ERROR "Failed to parse Gemini response"]
      | Some _ => [Legacy.Log ERROR "Error processing Gemini response"]
      end).
Proof.
  pose proof (LegacyFacts.legacy_handle_part_inline written (Hex.hex audio_data) c) as Hp.
  rewrite HexFacts.fromhex_hex in Hp.
  unfold Legacy.on_response, Legacy.audio_response.
  unfold try_except.
  unfold bind at 1. cbn [json_loads lift ret].
  unfold bind at 1. cbn [Legacy.keys lift ret].
  unfold bind at 1. cbn [Legacy.log tell].
  unfold bind at 1.
  cbn [Py.contains Py.lookup String.eqb Ascii.eqb Bool.eqb andb lift ret].
  unfold bind at 1.
  cbn [Py.getitem Py.lookup String.eqb Ascii.eqb Bool.eqb andb lift ret].
  unfold bind at 1.
  cbn [Py.contains Py.lookup String.eqb Ascii.eqb Bool.eqb andb lift ret].
  unfold bind at 1.
  cbn [Py.getitem Py.lookup String.eqb Ascii.eqb Bool.eqb andb lift ret].
  unfold bind at 1.
  cbn [Py.get Py.lookup String.eqb Ascii.eqb Bool.eqb andb lift ret].
  unfold bind at 1. cbn [Py.iter lift ret for_each].
  unfold bind at 1. rewrite Hp.
  destruct (written audio_data) as [e |]; [destruct e |]; reflexivity.
Qed.

(** X27. The handling of one message of the model by the bridge at the
    root lets no failure of class [Exception] out, whatever the message is
    and whichever such failure the write raises: it returns.  It assigns no
    field of the connection and writes nothing to the socket of the
    model. *)
Theorem legacy_response_contained
        (written : callback bytes) (message : frame) (c : Legacy.connection) :
  result_of (Legacy.on_response written message c) = Ok tt /\
  state_of (Legacy.on_response written message c) = c /\
  Forall Legacy.to_phone_or_log (trace_of (Legacy.on_response written message c)).
Proof.
  split; [apply LegacyFacts.on_response_returns |].
  destruct (LegacyFacts.on_response_stable written message c) as [Hs Ht].
  split; [now symmetry | exact Ht].
Qed.
